(** * MiniTel-Lite: a shallow embedding of the protocol engine

    The development follows [src/minitel/protocol.py] (frame codec and
    client nonce sequencer), [src/minitel/server.py] (per-connection
    state and command processing), [src/minitel/client.py] (the client
    and its mission sequence), [src/minitel/enhanced_client.py]
    (connection establishment with retry, sending with recording) and
    [src/session] (session recorder and replayer).  Python integers are [Z],
    [bytes] values are lists of [Byte.byte], exceptions are an explicit
    result type, and mutable objects are threaded as explicit state. *)

From Stdlib Require Import ZArith List Lia Bool.
From Stdlib.Strings Require Import String Byte Ascii.
Import ListNotations.
Local Open Scope Z_scope.

(** ** Exceptions and results *)

(** The messages of [ProtocolError], one constructor per [raise] site;
    the formatted numbers of a message are the constructor's arguments. *)
Inductive ProtocolError : Type :=
| FrameTooLarge (length : Z)
| FrameTooShortForLengthPrefix
| IncompleteFrame (expected got : Z)
| Base64DecodeError
| BinaryFrameTooShort
| HashValidationFailed
| NonceMismatch (expected got : Z)
| UnexpectedCommand (expected got : Z)
| InvalidNonceSequence
| DumpRequiresHelloFirst
| UnknownCommand (cmd : Z)
| NotConnected
| ConnectionClosedByServer.

(** [struct.error] is not a [ProtocolError]: [struct.pack] raises it when
    a value does not fit its format. *)
Inductive exn : Type :=
| Protocol (e : ProtocolError)
| StructError.

Inductive result (A : Type) : Type :=
| Ok (a : A)
| Raise (e : exn).
Arguments Ok {A} a.
Arguments Raise {A} e.

Definition bind {A B : Type} (r : result A) (k : A -> result B) : result B :=
  match r with
  | Ok a => k a
  | Raise e => Raise e
  end.

Notation "x <- r ;; k" := (bind r (fun x => k))
  (at level 61, r at next level, right associativity).

Definition bytes : Type := list byte.

(** Python's [len]. *)
Definition len {A : Type} (l : list A) : Z := Z.of_nat (List.length l).

(** Python's slice [l[lo:hi]] for integer bounds: a negative bound counts
    from the end, and both are clamped to the sequence. *)
Definition norm_index (n i : Z) : Z :=
  Z.max 0 (Z.min n (if i <? 0 then i + n else i)).

Definition slice {A : Type} (l : list A) (lo hi : Z) : list A :=
  let a := norm_index (len l) lo in
  let b := norm_index (len l) hi in
  firstn (Z.to_nat (b - a)) (skipn (Z.to_nat a) l).

(** [l[lo:]] *)
Definition slice_from {A : Type} (l : list A) (lo : Z) : list A :=
  skipn (Z.to_nat (norm_index (len l) lo)) l.

Fixpoint bytes_eqb (x y : bytes) : bool :=
  match x, y with
  | [], [] => true
  | a :: x', b :: y' => Byte.eqb a b && bytes_eqb x' y'
  | _, _ => false
  end.

(** ** [struct.pack] and [struct.unpack] for the formats the code uses *)
Module Struct.

Definition byte_of_Z (z : Z) : byte :=
  match Byte.of_N (Z.to_N (z mod 256)) with
  | Some b => b
  | None => x00
  end.

Definition Z_of_byte (b : byte) : Z := Z.of_N (Byte.to_N b).

Definition fits (width v : Z) : bool := (0 <=? v) && (v <? 2 ^ width).

(** [struct.pack('B', v)] *)
Definition pack_B (v : Z) : result bytes :=
  if fits 8 v then Ok [byte_of_Z v] else Raise StructError.

(** [struct.pack('>H', v)] *)
Definition pack_H (v : Z) : result bytes :=
  if fits 16 v then Ok [byte_of_Z (v / 2 ^ 8); byte_of_Z v]
  else Raise StructError.

(** [struct.pack('>I', v)] *)
Definition pack_I (v : Z) : result bytes :=
  if fits 32 v
  then Ok [byte_of_Z (v / 2 ^ 24); byte_of_Z (v / 2 ^ 16);
           byte_of_Z (v / 2 ^ 8); byte_of_Z v]
  else Raise StructError.

(** Big-endian value of a byte string, as [int.from_bytes(b, 'big')]. *)
Definition from_bytes_big (b : bytes) : Z :=
  fold_left (fun acc x => acc * 256 + Z_of_byte x) b 0.

(** [struct.unpack(fmt, b)[0]]: the buffer must have the format's size. *)
Definition unpack_sized (size : nat) (b : bytes) : result Z :=
  if Nat.eqb (List.length b) size then Ok (from_bytes_big b)
  else Raise StructError.

Definition unpack_B : bytes -> result Z := unpack_sized 1.
Definition unpack_H : bytes -> result Z := unpack_sized 2.
Definition unpack_I : bytes -> result Z := unpack_sized 4.

End Struct.

(** ** [hashlib.sha256]: SHA-256 as in FIPS 180-4, on 32-bit words in [Z] *)
Module SHA256.
Import Struct.

Definition mask32 : Z := 0xffffffff.
Definition add32 (x y : Z) : Z := (x + y) mod 2 ^ 32.
Definition rotr (n x : Z) : Z :=
  Z.lor (Z.shiftr x n) (Z.land (Z.shiftl x (32 - n)) mask32).
Definition xor3 (x y z : Z) : Z := Z.lxor (Z.lxor x y) z.

Definition Ch (x y z : Z) : Z :=
  Z.lxor (Z.land x y) (Z.land (Z.lxor x mask32) z).
Definition Maj (x y z : Z) : Z :=
  xor3 (Z.land x y) (Z.land x z) (Z.land y z).
Definition Sigma0 (x : Z) : Z := xor3 (rotr 2 x) (rotr 13 x) (rotr 22 x).
Definition Sigma1 (x : Z) : Z := xor3 (rotr 6 x) (rotr 11 x) (rotr 25 x).
Definition sigma0 (x : Z) : Z := xor3 (rotr 7 x) (rotr 18 x) (Z.shiftr x 3).
Definition sigma1 (x : Z) : Z := xor3 (rotr 17 x) (rotr 19 x) (Z.shiftr x 10).

(** The constants are defined as the standard defines them: the first
    32 bits of the fractional parts of the cube roots (round constants)
    and of the square roots (initial hash value) of the first primes. *)
Definition is_prime (n : nat) : bool :=
  forallb (fun d => negb (Nat.eqb (n mod d) 0)) (seq 2 (n - 2)).

Definition primes : list Z :=
  map Z.of_nat (filter is_prime (seq 2 310)).

(** The largest [r + c] with [c < 2 ^ bits] and [(r + c) ^ k <= n]. *)
Fixpoint root_floor (k n : Z) (bits : nat) (r : Z) : Z :=
  match bits with
  | O => r
  | S b =>
      let c := r + 2 ^ Z.of_nat b in
      if c ^ k <=? n then root_floor k n b c else root_floor k n b r
  end.

Definition frac_root (k p : Z) : Z :=
  root_floor k (p * 2 ^ (32 * k)) 36 0 mod 2 ^ 32.

Definition K : list Z := map (frac_root 3) primes.

Definition state : Type := (Z * Z * Z * Z * Z * Z * Z * Z)%type.

Definition H0 : state :=
  match map (frac_root 2) (firstn 8 primes) with
  | [a; b; c; d; e; f; g; h] => (a, b, c, d, e, f, g, h)
  | _ => (0, 0, 0, 0, 0, 0, 0, 0)
  end.

(** The message followed by the bit 1, zeros up to 56 modulo 64, and
    the bit length as a 64-bit big-endian number. *)
Definition pad (msg : bytes) : bytes :=
  let n := len msg in
  let bits := 8 * n in
  msg ++ [x80] ++ repeat x00 (Z.to_nat ((55 - n) mod 64))
      ++ map (fun k => byte_of_Z (bits / 2 ^ (8 * Z.of_nat k)))
             [7; 6; 5; 4; 3; 2; 1; 0]%nat.

Fixpoint words (b : bytes) : list Z :=
  match b with
  | b3 :: b2 :: b1 :: b0 :: rest =>
      from_bytes_big [b3; b2; b1; b0] :: words rest
  | _ => []
  end.

(** The message schedule: [n] more words after the ones already in [w]. *)
Fixpoint schedule (n : nat) (w : list Z) : list Z :=
  match n with
  | O => w
  | S n' =>
      let t := List.length w in
      let at_ (k : nat) := nth (t - k) w 0 in
      schedule n'
        (w ++ [add32 (add32 (sigma1 (at_ 2%nat)) (at_ 7%nat))
                     (add32 (sigma0 (at_ 15%nat)) (at_ 16%nat))])
  end.

Definition round (s : state) (kw : Z * Z) : state :=
  let '(a, b, c, d, e, f, g, h) := s in
  let '(k, w) := kw in
  let t1 := add32 (add32 (add32 h (Sigma1 e)) (add32 (Ch e f g) k)) w in
  let t2 := add32 (Sigma0 a) (Maj a b c) in
  (add32 t1 t2, a, b, c, add32 d t1, e, f, g).

Definition compress (s : state) (block : bytes) : state :=
  let w := schedule 48 (words block) in
  let '(a, b, c, d, e, f, g, h) := s in
  let '(a', b', c', d', e', f', g', h') :=
    fold_left round (combine K w) s in
  (add32 a a', add32 b b', add32 c c', add32 d d',
   add32 e e', add32 f f', add32 g g', add32 h h').

Fixpoint blocks (n : nat) (data : bytes) (s : state) : state :=
  match n with
  | O => s
  | S n' => blocks n' (skipn 64 data) (compress s (firstn 64 data))
  end.

Definition word_bytes (x : Z) : bytes :=
  [byte_of_Z (x / 2 ^ 24); byte_of_Z (x / 2 ^ 16);
   byte_of_Z (x / 2 ^ 8); byte_of_Z x].

(** [hashlib.sha256(msg).digest()] *)
Definition sha256 (msg : bytes) : bytes :=
  let data := pad msg in
  let '(a, b, c, d, e, f, g, h) :=
    blocks (List.length data / 64) data H0 in
  word_bytes a ++ word_bytes b ++ word_bytes c ++ word_bytes d ++
  word_bytes e ++ word_bytes f ++ word_bytes g ++ word_bytes h.

End SHA256.

(** ** [base64.b64encode] and [base64.b64decode] of the standard library *)
Module Base64.
Import Struct.

Definition alphabet : bytes :=
  list_byte_of_string
    "ABCDEFGHIJKLMNOPQRSTUVWXYZabcdefghijklmnopqrstuvwxyz0123456789+/".

Definition PAD : byte := "=".

(** The character of a 6-bit value. *)
Definition b2a (v : Z) : byte := nth (Z.to_nat v) alphabet PAD.

Fixpoint index_of (c : byte) (l : bytes) (i : Z) : option Z :=
  match l with
  | [] => None
  | x :: l' => if Byte.eqb c x then Some i else index_of c l' (i + 1)
  end.

(** The 6-bit value of a character, [None] outside the alphabet. *)
Definition a2b (c : byte) : option Z := index_of c alphabet 0.

(** Three bytes give four characters; a last group of one or two bytes
    is completed with [=]. *)
Fixpoint b64encode (data : bytes) : bytes :=
  match data with
  | [] => []
  | [x] =>
      let a := Z_of_byte x in
      [b2a (a / 4); b2a (a mod 4 * 16); PAD; PAD]
  | [x; y] =>
      let a := Z_of_byte x in
      let b := Z_of_byte y in
      [b2a (a / 4); b2a (a mod 4 * 16 + b / 16); b2a (b mod 16 * 4); PAD]
  | x :: y :: z :: rest =>
      let a := Z_of_byte x in
      let b := Z_of_byte y in
      let c := Z_of_byte z in
      b2a (a / 4) :: b2a (a mod 4 * 16 + b / 16)
        :: b2a (b mod 16 * 4 + c / 64) :: b2a (c mod 64)
        :: b64encode rest
  end.

(** The decoder without validation (the default of [b64decode]):
    characters outside the alphabet are skipped, a complete run of
    padding ends the input, and leftover characters of an incomplete
    group are an error ([None], [binascii.Error] in Python).
    [quad_pos] is the position in the current group of four,
    [leftchar] the bits not yet written, [pads] the padding seen. *)
Fixpoint a2b_base64 (ascii : bytes) (quad_pos : nat) (leftchar : Z)
         (pads : nat) : option bytes :=
  match ascii with
  | [] => if Nat.eqb quad_pos 0 then Some [] else None
  | ch :: rest =>
      if Byte.eqb ch PAD then
        if Nat.leb 2 quad_pos then
          if Nat.leb 4 (quad_pos + S pads) then Some []
          else a2b_base64 rest quad_pos leftchar (S pads)
        else a2b_base64 rest quad_pos leftchar pads
      else
        match a2b ch with
        | None => a2b_base64 rest quad_pos leftchar pads
        | Some v =>
            match quad_pos with
            | 0%nat => a2b_base64 rest 1 v 0
            | 1%nat =>
                option_map (cons (byte_of_Z (leftchar * 4 + v / 16)))
                           (a2b_base64 rest 2 (v mod 16) 0)
            | 2%nat =>
                option_map (cons (byte_of_Z (leftchar * 16 + v / 4)))
                           (a2b_base64 rest 3 (v mod 4) 0)
            | _ =>
                option_map (cons (byte_of_Z (leftchar * 64 + v)))
                           (a2b_base64 rest 0 0 0)
            end
        end
  end.

Definition b64decode (s : bytes) : option bytes := a2b_base64 s 0 0 0.

End Base64.

(** ** [protocol.py] *)

Module Command.
Definition HELLO : Z := 0x01.
Definition DUMP : Z := 0x02.
Definition STOP_CMD : Z := 0x04.
Definition HELLO_ACK : Z := 0x81.
Definition DUMP_FAILED : Z := 0x82.
Definition DUMP_OK : Z := 0x83.
Definition STOP_OK : Z := 0x84.
End Command.

Module Frame.
Import Struct.

Record t : Type := mk {
  cmd : Z;
  nonce : Z;
  payload : bytes;
  hash : bytes
}.

(** SHA-256 of CMD + NONCE + PAYLOAD. *)
Definition _calculate_hash (cmd nonce : Z) (payload : bytes) : result bytes :=
  c <- pack_B cmd ;;
  n <- pack_I nonce ;;
  Ok (SHA256.sha256 (c ++ n ++ payload)).

(** [Frame(cmd, nonce, payload)]: the digest is derived on construction. *)
Definition __init__ (cmd nonce : Z) (payload : bytes) : result t :=
  h <- _calculate_hash cmd nonce payload ;;
  Ok (mk cmd nonce payload h).

(** Wire format: LEN (2 bytes) | DATA_B64. *)
Definition encode (self : t) : result bytes :=
  c <- pack_B (cmd self) ;;
  n <- pack_I (nonce self) ;;
  let binary_frame := c ++ n ++ payload self ++ hash self in
  let b64_data := Base64.b64encode binary_frame in
  let length := len b64_data in
  if 65535 <? length then Raise (Protocol (FrameTooLarge length))
  else
    l <- pack_H length ;;
    Ok (l ++ b64_data).

Definition decode (data : bytes) : result t :=
  if len data <? 2 then Raise (Protocol FrameTooShortForLengthPrefix)
  else
    length <- unpack_H (slice data 0 2) ;;
    if len data <? 2 + length
    then Raise (Protocol (IncompleteFrame length (len data - 2)))
    else
      let b64_data := slice data 2 (2 + length) in
      match Base64.b64decode b64_data with
      | None => Raise (Protocol Base64DecodeError)
      | Some binary_frame =>
          if len binary_frame <? 37
          then Raise (Protocol BinaryFrameTooShort)
          else
            cmd <- unpack_B (slice binary_frame 0 1) ;;
            nonce <- unpack_I (slice binary_frame 1 5) ;;
            let payload := slice binary_frame 5 (-32) in
            let received_hash := slice_from binary_frame (-32) in
            frame <- __init__ cmd nonce payload ;;
            if bytes_eqb (hash frame) received_hash then Ok frame
            else Raise (Protocol HashValidationFailed)
      end.

End Frame.

(** The client's protocol handler: one counter.  Every method returns the
    handler after the call next to its result. *)
Module MiniTelProtocol.

Record t : Type := mk { nonce : Z }.

Definition __init__ : t := mk 0.

Definition create_hello_frame (self : t) : t * result Frame.t :=
  (self, Frame.__init__ Command.HELLO (nonce self) []).

Definition create_dump_frame (self : t) : t * result Frame.t :=
  (self, Frame.__init__ Command.DUMP (nonce self) []).

Definition create_stop_frame (self : t) : t * result Frame.t :=
  (self, Frame.__init__ Command.STOP_CMD (nonce self) []).

Definition update_nonce (self : t) (received_nonce : Z) : t * result unit :=
  let expected_nonce := nonce self + 1 in
  if negb (received_nonce =? expected_nonce)
  then (self, Raise (Protocol (NonceMismatch expected_nonce received_nonce)))
  else (mk (received_nonce + 1), Ok tt).

Definition validate_response (self : t) (frame : Frame.t) (expected_cmd : Z)
  : t * result unit :=
  if negb (Frame.cmd frame =? expected_cmd)
  then (self, Raise (Protocol (UnexpectedCommand expected_cmd (Frame.cmd frame))))
  else (self, Ok tt).

End MiniTelProtocol.

(** ** [server.py] *)

(** A reading of the clock ([time.time()]); the code modelled here only
    stores it. *)
Definition timestamp : Type := Z.

Module ConnectionState.

Record t : Type := mk {
  expected_client_nonce : Z;
  server_nonce : Z;
  last_command : option Z;
  dump_count : Z;
  connected_at : timestamp;
  last_activity : timestamp
}.

(** The two fields of the clock are two readings of it. *)
Definition __init__ (now later : timestamp) : t := mk 0 1 None 0 now later.

Definition update_activity (now : timestamp) (self : t) : t :=
  mk (expected_client_nonce self) (server_nonce self) (last_command self)
     (dump_count self) (connected_at self) now.

Definition set_last_command (c : option Z) (self : t) : t :=
  mk (expected_client_nonce self) (server_nonce self) c
     (dump_count self) (connected_at self) (last_activity self).

Definition set_dump_count (n : Z) (self : t) : t :=
  mk (expected_client_nonce self) (server_nonce self) (last_command self)
     n (connected_at self) (last_activity self).

Definition set_expected_client_nonce (n : Z) (self : t) : t :=
  mk n (server_nonce self) (last_command self)
     (dump_count self) (connected_at self) (last_activity self).

Definition set_server_nonce (n : Z) (self : t) : t :=
  mk (expected_client_nonce self) n (last_command self)
     (dump_count self) (connected_at self) (last_activity self).

End ConnectionState.

(** Code that mutates a [ConnectionState] and may raise: the state after
    the call comes with the result, also when the result is an exception,
    since Python keeps the assignments made before a [raise]. *)
Module StateExn.
Import ConnectionState.

Definition M (A : Type) : Type := ConnectionState.t -> ConnectionState.t * result A.

Definition ret {A : Type} (a : A) : M A := fun s => (s, Ok a).
Definition raise {A : Type} (e : ProtocolError) : M A :=
  fun s => (s, Raise (Protocol e)).
Definition lift {A : Type} (r : result A) : M A := fun s => (s, r).
Definition get {A : Type} (field : ConnectionState.t -> A) : M A :=
  fun s => (s, Ok (field s)).
Definition modify (f : ConnectionState.t -> ConnectionState.t) : M unit :=
  fun s => (f s, Ok tt).
Definition bindM {A B : Type} (m : M A) (k : A -> M B) : M B :=
  fun s =>
    match m s with
    | (s', Ok a) => k a s'
    | (s', Raise e) => (s', Raise e)
    end.

End StateExn.

Notation "x <~ m ;; k" := (StateExn.bindM m (fun x => k))
  (at level 61, m at next level, right associativity).
Notation "m ;;; k" := (StateExn.bindM m (fun _ => k))
  (at level 61, right associativity).

Definition option_Z_eqb (x y : option Z) : bool :=
  match x, y with
  | Some a, Some b => a =? b
  | None, None => true
  | _, _ => false
  end.

Module MiniTelServer.
Import ConnectionState StateExn.

Record t : Type := mk { secret : string }.

Definition __init__ : t := mk "FLAG{MINITEL_MASTER_2025}".

(** [str.encode()]: a [string] here is already its UTF-8 bytes. *)
Definition str_encode (s : string) : bytes := list_byte_of_string s.

(** Process received command and return response. *)
Definition _process_command (self : t) (frame : Frame.t) : M Frame.t :=
  expected <~ get expected_client_nonce ;;
  if negb (Frame.nonce frame =? expected)
  then raise InvalidNonceSequence
  else if Frame.cmd frame =? Command.HELLO then
    modify (set_last_command (Some Command.HELLO)) ;;;
    modify (set_dump_count 0) ;;;
    sn <~ get server_nonce ;;
    response <~ lift (Frame.__init__ Command.HELLO_ACK sn []) ;;
    n <~ get expected_client_nonce ;;
    modify (set_expected_client_nonce (n + 2)) ;;;
    sn <~ get server_nonce ;;
    modify (set_server_nonce (sn + 2)) ;;;
    ret response
  else if Frame.cmd frame =? Command.DUMP then
    lc <~ get last_command ;;
    if negb (option_Z_eqb lc (Some Command.HELLO))
    then raise DumpRequiresHelloFirst
    else
      dc <~ get dump_count ;;
      modify (set_dump_count (dc + 1)) ;;;
      dc <~ get dump_count ;;
      sn <~ get server_nonce ;;
      response <~ lift (if dc =? 1
                        then Frame.__init__ Command.DUMP_FAILED sn []
                        else Frame.__init__ Command.DUMP_OK sn
                                            (str_encode (secret self))) ;;
      n <~ get expected_client_nonce ;;
      modify (set_expected_client_nonce (n + 2)) ;;;
      sn <~ get server_nonce ;;
      modify (set_server_nonce (sn + 2)) ;;;
      ret response
  else if Frame.cmd frame =? Command.STOP_CMD then
    sn <~ get server_nonce ;;
    response <~ lift (Frame.__init__ Command.STOP_OK sn []) ;;
    n <~ get expected_client_nonce ;;
    modify (set_expected_client_nonce (n + 2)) ;;;
    sn <~ get server_nonce ;;
    modify (set_server_nonce (sn + 2)) ;;;
    ret response
  else raise (UnknownCommand (Frame.cmd frame)).

(** The body of the reading loop of [_handle_client] once the length
    prefix and the frame data are read: decode, process, send the
    encoded response and record the activity.  [Ok out] is the bytes
    given to [client_socket.send]; an exception sends nothing. *)
Definition handle_frame (self : t) (now : timestamp) (data : bytes) : M bytes :=
  frame <~ lift (Frame.decode data) ;;
  response <~ _process_command self frame ;;
  out <~ lift (Frame.encode response) ;;
  modify (update_activity now) ;;;
  ret out.

(** The reading loop over the frames a peer sends, each with the clock
    at its processing (reads are taken to complete in time).  The loop
    ends when the peer has nothing more ([None]) or at the first
    exception, which leaves the loop and closes the socket: the frames
    after it are not read.  The result has the final state, the
    responses sent, and the exception that closed the connection. *)
Fixpoint _handle_client (self : t) (inbound : list (timestamp * bytes))
         (state : ConnectionState.t)
  : ConnectionState.t * list bytes * option exn :=
  match inbound with
  | [] => (state, [], None)
  | (now, data) :: rest =>
      match handle_frame self now data state with
      | (state', Ok out) =>
          let '(final, outs, closed) := _handle_client self rest state' in
          (final, out :: outs, closed)
      | (state', Raise e) => (state', [], Some e)
      end
  end.

End MiniTelServer.

(** ** [server.py]: the reading loop with its socket and its clock

    [MiniTelServer._handle_client] above follows the loop over frames
    that are read in time.  Here the loop is followed pass by pass, with
    what each pass finds: whether the server is still running, the
    clock, what the calls of [recv] and [send] give.  The clock counts
    in a unit in which its readings are whole numbers, and [timeout] is
    the 2.0 seconds of [is_expired] in that unit. *)
Module ServerLoop.
Import ConnectionState StateExn.

(** What a call of [recv] gives: the bytes received (none when the peer
    has closed), [socket.timeout], or another [socket.error]. *)
Inductive recv_result : Type :=
| Chunk (b : bytes)
| RecvTimeout
| RecvError.

(** What a call of [send] gives: it returns, or raises one of the two. *)
Inductive send_result : Type :=
| Sent
| SendTimeout
| SendError.

(** One pass of [while self.running]: the flag when it is tested, the
    clock in [is_expired], what the calls of [recv] give in order
    (nothing arrives within the socket's timeout once they are used
    up), what [send] gives, and the clock in [update_activity]. *)
Record pass : Type := mk_pass {
  running : bool;
  clock : timestamp;
  recvs : list recv_result;
  send : send_result;
  now : timestamp
}.

(** How the loop is left; [Going] when it is not, after the last pass
    given. *)
Inductive ending : Type :=
| Going
| Stopped
| Expired
| PeerClosed
| IncompleteLength
| IncompleteFrame
| SocketError
| Raised (e : exn).

(** Check if connection has exceeded timeout; [now] is [time.time()]. *)
Definition is_expired (now : timestamp) (timeout : Z) (self : ConnectionState.t)
  : bool :=
  now - last_activity self >? timeout.

(** [recv(bufsize)] returns at most [bufsize] bytes. *)
Definition recv (bufsize : Z) (r : recv_result) : recv_result :=
  match r with
  | Chunk b => Chunk (slice b 0 bufsize)
  | other => other
  end.

(** The inner loop, [while len(frame_data) < frame_length]. *)
Inductive read : Type :=
| Read (frame_data : bytes)
| ReadTimeout
| ReadError.

Fixpoint read_frame_data (frame_length : Z) (frame_data : bytes)
         (rs : list recv_result) : read :=
  if len frame_data <? frame_length then
    match rs with
    | [] => ReadTimeout
    | r :: rs' =>
        match recv (frame_length - len frame_data) r with
        | RecvTimeout => ReadTimeout
        | RecvError => ReadError
        | Chunk [] => Read frame_data
        | Chunk chunk => read_frame_data frame_length (frame_data ++ chunk) rs'
        end
    end
  else Read frame_data.

(** Decode and process a frame, and encode the response. *)
Definition answer (self : MiniTelServer.t) (data : bytes) : M bytes :=
  frame <~ lift (Frame.decode data) ;;
  response <~ MiniTelServer._process_command self frame ;;
  lift (Frame.encode response).

(** The loop.  The result has the state, the responses sent, and how the
    loop was left: a [ProtocolError] leaves it by [break], any other
    exception through the [except Exception] around it. *)
Fixpoint reading_loop (self : MiniTelServer.t) (timeout : Z)
         (passes : list pass) (state : ConnectionState.t)
  : ConnectionState.t * list bytes * ending :=
  match passes with
  | [] => (state, [], Going)
  | p :: rest =>
      if negb (running p) then (state, [], Stopped)
      else if is_expired (clock p) timeout state then (state, [], Expired)
      else
        match recvs p with
        | [] => reading_loop self timeout rest state
        | first :: more =>
            match recv 2 first with
            | RecvTimeout => reading_loop self timeout rest state
            | RecvError => (state, [], SocketError)
            | Chunk length_data =>
                if len length_data =? 0 then (state, [], PeerClosed)
                else if len length_data <? 2 then (state, [], IncompleteLength)
                else
                  let frame_length := Struct.from_bytes_big length_data in
                  match read_frame_data frame_length [] more with
                  | ReadTimeout => reading_loop self timeout rest state
                  | ReadError => (state, [], SocketError)
                  | Read frame_data =>
                      if len frame_data <? frame_length
                      then (state, [], IncompleteFrame)
                      else
                        match answer self (length_data ++ frame_data) state with
                        | (state', Raise e) => (state', [], Raised e)
                        | (state', Ok out) =>
                            match send p with
                            | Sent =>
                                let '(final, outs, e) :=
                                  reading_loop self timeout rest
                                               (update_activity (now p) state') in
                                (final, out :: outs, e)
                            | SendTimeout =>
                                reading_loop self timeout rest state'
                            | SendError => (state', [], SocketError)
                            end
                        end
                  end
            end
        end
  end.

(** Handle individual client connection: the loop from a new
    [ConnectionState]. *)
Definition _handle_client (self : MiniTelServer.t) (timeout : Z)
           (connected_at later : timestamp) (passes : list pass)
  : ConnectionState.t * list bytes * ending :=
  reading_loop self timeout passes (ConnectionState.__init__ connected_at later).

End ServerLoop.

(** ** [bytes.decode('utf-8')]

    A Python [str] is represented by the bytes of its UTF-8 encoding, as
    a [string]; decoding accepts the well-formed byte sequences of the
    Unicode standard (no overlong forms, no surrogates, nothing above
    U+10FFFF) and raises [UnicodeDecodeError] on the others. *)
Module Utf8.

Definition between (lo hi : Z) (b : byte) : bool :=
  (lo <=? Struct.Z_of_byte b) && (Struct.Z_of_byte b <=? hi).

Definition continuation : byte -> bool := between 0x80 0xBF.

Fixpoint valid (b : bytes) : bool :=
  match b with
  | [] => true
  | b0 :: rest =>
      if between 0x00 0x7F b0 then valid rest
      else if between 0xC2 0xDF b0 then
        match rest with
        | b1 :: rest1 => continuation b1 && valid rest1
        | _ => false
        end
      else if between 0xE0 0xEF b0 then
        match rest with
        | b1 :: b2 :: rest2 =>
            (if between 0xE0 0xE0 b0 then between 0xA0 0xBF b1
             else if between 0xED 0xED b0 then between 0x80 0x9F b1
             else continuation b1)
            && continuation b2 && valid rest2
        | _ => false
        end
      else if between 0xF0 0xF4 b0 then
        match rest with
        | b1 :: b2 :: b3 :: rest3 =>
            (if between 0xF0 0xF0 b0 then between 0x90 0xBF b1
             else if between 0xF4 0xF4 b0 then between 0x80 0x8F b1
             else continuation b1)
            && continuation b2 && continuation b3 && valid rest3
        | _ => false
        end
      else false
  end.

(** [b.decode('utf-8')], [None] for [UnicodeDecodeError]. *)
Definition decode (b : bytes) : option string :=
  if valid b then Some (string_of_list_byte b) else None.

End Utf8.

(** ** [client.py]: sending a frame *)
Module MiniTelClient.

(** [sent] is what [socket.send] was given, in order; [incoming] is
    what the peer wrote before closing its end and is not yet read. *)
Record t : Type := mk {
  protocol : MiniTelProtocol.t;
  connected : bool;
  sent : list bytes;
  incoming : bytes
}.

Definition _receive_exact (self : t) (num_bytes : Z) : t * result bytes :=
  if len (incoming self) <? num_bytes
  then (mk (protocol self) (connected self) (sent self) [],
        Raise (Protocol ConnectionClosedByServer))
  else (mk (protocol self) (connected self) (sent self)
           (slice_from (incoming self) num_bytes),
        Ok (slice (incoming self) 0 num_bytes)).

Definition _receive_frame (self : t) : t * result Frame.t :=
  match _receive_exact self 2 with
  | (self1, Raise e) => (self1, Raise e)
  | (self1, Ok length_data) =>
      let frame_length := Struct.from_bytes_big length_data in
      match _receive_exact self1 frame_length with
      | (self2, Raise e) => (self2, Raise e)
      | (self2, Ok frame_data) =>
          (self2, Frame.decode (length_data ++ frame_data))
      end
  end.

Definition _send_frame (self : t) (frame : Frame.t) : t * result Frame.t :=
  if negb (connected self) then (self, Raise (Protocol NotConnected))
  else
    match Frame.encode frame with
    | Raise e => (self, Raise e)
    | Ok data =>
        _receive_frame
          (mk (protocol self) (connected self) (sent self ++ [data])
              (incoming self))
    end.

(** The methods that drive the protocol.  They raise what the protocol
    layer raises, or the [UnicodeDecodeError] of [bytes.decode]. *)
Inductive raised : Type :=
| Base (e : exn)
| UnicodeDecodeError.

Inductive outcome (A : Type) : Type :=
| Returned (a : A)
| Raised (e : raised).
Arguments Returned {A} a.
Arguments Raised {A} e.

Definition M (A : Type) : Type := t -> t * outcome A.

Definition ret {A : Type} (a : A) : M A := fun c => (c, Returned a).

Definition bindC {A B : Type} (m : M A) (k : A -> M B) : M B :=
  fun c =>
    match m c with
    | (c', Returned a) => k a c'
    | (c', Raised e) => (c', Raised e)
    end.

Notation "x <<- m ;; k" := (bindC m (fun x => k))
  (at level 61, m at next level, right associativity).

(** A method of the client. *)
Definition call {A : Type} (m : t -> t * result A) : M A :=
  fun c =>
    match m c with
    | (c', Ok a) => (c', Returned a)
    | (c', Raise e) => (c', Raised (Base e))
    end.

(** A method of [self.protocol]. *)
Definition on_protocol {A : Type}
           (m : MiniTelProtocol.t -> MiniTelProtocol.t * result A) : M A :=
  fun c =>
    match m (protocol c) with
    | (p, Ok a) => (mk p (connected c) (sent c) (incoming c), Returned a)
    | (p, Raise e) => (mk p (connected c) (sent c) (incoming c), Raised (Base e))
    end.

(** [try: body] with [except ProtocolError: return a]. *)
Definition except_ProtocolError {A : Type} (body : M A) (a : A) : M A :=
  fun c =>
    match body c with
    | (c', Raised (Base (Protocol _))) => (c', Returned a)
    | other => other
    end.

Definition decode_utf8 (b : bytes) : M string :=
  fun c =>
    match Utf8.decode b with
    | Some text => (c, Returned text)
    | None => (c, Raised UnicodeDecodeError)
    end.

(** Send HELLO command and handle response. *)
Definition send_hello : M bool :=
  except_ProtocolError
    (frame <<- on_protocol MiniTelProtocol.create_hello_frame ;;
     response <<- call (fun c => _send_frame c frame) ;;
     _ <<- on_protocol (fun p => MiniTelProtocol.validate_response
                                   p response Command.HELLO_ACK) ;;
     _ <<- on_protocol (fun p => MiniTelProtocol.update_nonce
                                   p (Frame.nonce response)) ;;
     ret true)
    false.

(** Send DUMP command and return secret if successful.  The
    [ProtocolError] raised on any other response is caught by the
    [except] of the same [try], which returns [None]. *)
Definition send_dump : M (option string) :=
  except_ProtocolError
    (frame <<- on_protocol MiniTelProtocol.create_dump_frame ;;
     response <<- call (fun c => _send_frame c frame) ;;
     if Frame.cmd response =? Command.DUMP_FAILED then
       _ <<- on_protocol (fun p => MiniTelProtocol.update_nonce
                                     p (Frame.nonce response)) ;;
       ret None
     else if Frame.cmd response =? Command.DUMP_OK then
       _ <<- on_protocol (fun p => MiniTelProtocol.update_nonce
                                     p (Frame.nonce response)) ;;
       secret <<- decode_utf8 (Frame.payload response) ;;
       ret (Some secret)
     else ret None)
    None.

(** Send STOP_CMD command. *)
Definition send_stop : M bool :=
  except_ProtocolError
    (frame <<- on_protocol MiniTelProtocol.create_stop_frame ;;
     response <<- call (fun c => _send_frame c frame) ;;
     _ <<- on_protocol (fun p => MiniTelProtocol.validate_response
                                   p response Command.STOP_OK) ;;
     _ <<- on_protocol (fun p => MiniTelProtocol.update_nonce
                                   p (Frame.nonce response)) ;;
     ret true)
    false.


End MiniTelClient.

(** ** [enhanced_client.py]: connecting with retry *)
Module EnhancedMiniTelClient.

Record t : Type := mk {
  max_retries : Z;
  connection_attempts : Z;
  connected : bool
}.

(** What [connect] does to the world: [calls] counts the calls of
    [socket.connect], [slept] lists the arguments of [time.sleep]. *)
Record world : Type := mk_world {
  calls : nat;
  slept : list Z
}.

(** [transport k] tells whether the [k]-th call of [socket.connect]
    (from 0) succeeds; otherwise it raises [socket.error]. *)
Definition transport : Type := nat -> bool.

(** The [while] loop of [connect]; [None] when [fuel] iterations did
    not reach a [return]. *)
Fixpoint connect_loop (fuel : nat) (net : transport) (self : t) (w : world)
  : option (t * world * bool) :=
  match fuel with
  | O => None
  | S fuel' =>
      if connection_attempts self <? max_retries self then
        if net (calls w) then
          Some (mk (max_retries self) (connection_attempts self) true,
                mk_world (S (calls w)) (slept w), true)
        else
          let attempts := connection_attempts self + 1 in
          let self' := mk (max_retries self) attempts (connected self) in
          if attempts <? max_retries self then
            let wait_time := 2 ^ attempts in
            connect_loop fuel' net self'
                         (mk_world (S (calls w)) (slept w ++ [wait_time]))
          else
            connect_loop fuel' net self' (mk_world (S (calls w)) (slept w))
      else Some (self, w, false)
  end.

(** Connect to the MiniTel server with retry logic (no session
    recorder).  The loop runs at most [max_retries] failing passes and
    one more test of its condition. *)
Definition connect (net : transport) (self : t) (w : world)
  : option (t * world * bool) :=
  connect_loop (S (Z.to_nat (max_retries self))) net
               (mk (max_retries self) 0 (connected self)) w.

End EnhancedMiniTelClient.

(** ** [session/recorder.py] *)

(** The digits of [bytes.hex()] and of the [x] format. *)
Definition hex_digit (d : Z) : ascii :=
  match d with
  | 0 => "0" | 1 => "1" | 2 => "2" | 3 => "3" | 4 => "4" | 5 => "5"
  | 6 => "6" | 7 => "7" | 8 => "8" | 9 => "9" | 10 => "a" | 11 => "b"
  | 12 => "c" | 13 => "d" | 14 => "e" | _ => "f"
  end%char.

(** [b.hex()]: two digits for each byte. *)
Fixpoint bytes_hex (b : bytes) : string :=
  match b with
  | [] => EmptyString
  | x :: rest =>
      let z := Struct.Z_of_byte x in
      String (hex_digit (z / 16)) (String (hex_digit (z mod 16)) (bytes_hex rest))
  end.

(** The digits of a natural number in base 16, most significant first. *)
Fixpoint hex_digits (fuel : nat) (n : Z) (acc : string) : string :=
  match fuel with
  | O => acc
  | S fuel' =>
      let acc' := String (hex_digit (n mod 16)) acc in
      if n / 16 =? 0 then acc' else hex_digits fuel' (n / 16) acc'
  end.

(** [f"{n:02x}"]: the sign, then the digits filled with zeros up to a
    width of two characters, sign included. *)
Definition format_02x (n : Z) : string :=
  let digits := hex_digits (S (Z.to_nat (Z.log2 (Z.abs n)))) (Z.abs n) EmptyString in
  if n <? 0 then String "-"%char digits
  else if (String.length digits <? 2)%nat then String "0"%char digits
  else digits.

Module SessionRecorder.

(** Represents a single protocol interaction. *)
Record SessionRecord : Type := mk_record {
  timestamp : Z;
  step_number : Z;
  direction : string;
  command : string;
  nonce : Z;
  payload_hex : string;
  payload_text : option string;
  frame_hex : string
}.

(** The recorder: the output directory is used by [save_session] only
    and is left out. *)
Record t : Type := mk {
  enabled : bool;
  session_records : list SessionRecord;
  session_start_time : option Z;
  step_counter : Z
}.

Definition __init__ (enabled : bool) : t := mk enabled [] None 0.

(** [now] is [time.time()], [stamp] the formatted [datetime.now()]. *)
Definition start_session (now : Z) (stamp : string) (self : t) : t * string :=
  if negb (enabled self) then (self, EmptyString)
  else (mk (enabled self) [] (Some now) 0, ("session_" ++ stamp)%string).

Definition record_frame (now : Z) (direction command : string) (nonce : Z)
           (payload frame_data : bytes) (self : t) : t :=
  if negb (enabled self)
     || match session_start_time self with None => true | Some _ => false end
  then self
  else
    let step_counter' := step_counter self + 1 in
    let payload_text :=
      match payload with
      | [] => None
      | _ => Utf8.decode payload
      end in
    let record :=
      mk_record now step_counter' direction command nonce
                (match payload with [] => EmptyString | _ => bytes_hex payload end)
                payload_text (bytes_hex frame_data) in
    mk (enabled self) (session_records self ++ [record])
       (session_start_time self) step_counter'.

End SessionRecorder.

(** ** [enhanced_client.py]: sending with session recording

    The client with its optional recorder; the socket is the one of
    [MiniTelClient], and reads are taken to complete in time. *)
Module EnhancedSession.

Record t : Type := mk {
  client : MiniTelClient.t;
  session_recorder : option SessionRecorder.t
}.

(** Get human-readable command name. *)
Definition _get_command_name (cmd_code : Z) : string :=
  if cmd_code =? Command.HELLO then "HELLO"%string
  else if cmd_code =? Command.DUMP then "DUMP"%string
  else if cmd_code =? Command.STOP_CMD then "STOP_CMD"%string
  else if cmd_code =? Command.HELLO_ACK then "HELLO_ACK"%string
  else if cmd_code =? Command.DUMP_FAILED then "DUMP_FAILED"%string
  else if cmd_code =? Command.DUMP_OK then "DUMP_OK"%string
  else if cmd_code =? Command.STOP_OK then "STOP_OK"%string
  else ("UNKNOWN_0x" ++ format_02x cmd_code)%string.

(** [t1] and [t2] are the clock at the two calls of [record_frame]. *)
Definition _send_frame_with_recording (t1 t2 : Z) (frame : Frame.t) (self : t)
  : t * result Frame.t :=
  let c := client self in
  if negb (MiniTelClient.connected c) then (self, Raise (Protocol NotConnected))
  else
    match Frame.encode frame with
    | Raise e => (self, Raise e)
    | Ok data =>
        let recorder1 :=
          option_map
            (SessionRecorder.record_frame
               t1 "request" (_get_command_name (Frame.cmd frame))
               (Frame.nonce frame) (Frame.payload frame) data)
            (session_recorder self) in
        let c1 := MiniTelClient.mk (MiniTelClient.protocol c)
                                   (MiniTelClient.connected c)
                                   (MiniTelClient.sent c ++ [data])
                                   (MiniTelClient.incoming c) in
        match MiniTelClient._receive_frame c1 with
        | (c2, Raise e) => (mk c2 recorder1, Raise e)
        | (c2, Ok response_frame) =>
            match recorder1 with
            | None => (mk c2 None, Ok response_frame)
            | Some recorder =>
                match Frame.encode response_frame with
                | Raise e => (mk c2 (Some recorder), Raise e)
                | Ok response_data =>
                    (mk c2
                        (Some (SessionRecorder.record_frame
                                 t2 "response"
                                 (_get_command_name (Frame.cmd response_frame))
                                 (Frame.nonce response_frame)
                                 (Frame.payload response_frame)
                                 response_data recorder)),
                     Ok response_frame)
                end
            end
        end
    end.

(** The methods that drive the protocol, over the client and its
    recorder; [t1], [t2], ... are the clock at the calls of
    [record_frame], in order. *)
Definition M (A : Type) : Type := t -> t * MiniTelClient.outcome A.

Definition ret {A : Type} (a : A) : M A :=
  fun c => (c, MiniTelClient.Returned a).

Definition bindE {A B : Type} (m : M A) (k : A -> M B) : M B :=
  fun c =>
    match m c with
    | (c', MiniTelClient.Returned a) => k a c'
    | (c', MiniTelClient.Raised e) => (c', MiniTelClient.Raised e)
    end.

Notation "x <== m ;; k" := (bindE m (fun x => k))
  (at level 61, m at next level, right associativity).

Definition call {A : Type} (m : t -> t * result A) : M A :=
  fun c =>
    match m c with
    | (c', Ok a) => (c', MiniTelClient.Returned a)
    | (c', Raise e) => (c', MiniTelClient.Raised (MiniTelClient.Base e))
    end.

(** A method of [self.protocol]. *)
Definition on_protocol {A : Type}
           (m : MiniTelProtocol.t -> MiniTelProtocol.t * result A) : M A :=
  fun c =>
    let cl := client c in
    match m (MiniTelClient.protocol cl) with
    | (p, Ok a) =>
        (mk (MiniTelClient.mk p (MiniTelClient.connected cl)
                              (MiniTelClient.sent cl) (MiniTelClient.incoming cl))
            (session_recorder c),
         MiniTelClient.Returned a)
    | (p, Raise e) =>
        (mk (MiniTelClient.mk p (MiniTelClient.connected cl)
                              (MiniTelClient.sent cl) (MiniTelClient.incoming cl))
            (session_recorder c),
         MiniTelClient.Raised (MiniTelClient.Base e))
    end.

(** [try: body] with [except ProtocolError: return a]. *)
Definition except_ProtocolError {A : Type} (body : M A) (a : A) : M A :=
  fun c =>
    match body c with
    | (c', MiniTelClient.Raised (MiniTelClient.Base (Protocol _))) =>
        (c', MiniTelClient.Returned a)
    | other => other
    end.

(** [try: body] with [except Exception: return a]. *)
Definition except_Exception {A : Type} (body : M A) (a : A) : M A :=
  fun c =>
    match body c with
    | (c', MiniTelClient.Raised _) => (c', MiniTelClient.Returned a)
    | other => other
    end.

Definition decode_utf8 (b : bytes) : M string :=
  fun c =>
    match Utf8.decode b with
    | Some text => (c, MiniTelClient.Returned text)
    | None => (c, MiniTelClient.Raised MiniTelClient.UnicodeDecodeError)
    end.

(** Send HELLO command and handle response. *)
Definition send_hello (t1 t2 : Z) : M bool :=
  except_ProtocolError
    (frame <== on_protocol MiniTelProtocol.create_hello_frame ;;
     response <== call (_send_frame_with_recording t1 t2 frame) ;;
     _ <== on_protocol (fun p => MiniTelProtocol.validate_response
                                   p response Command.HELLO_ACK) ;;
     _ <== on_protocol (fun p => MiniTelProtocol.update_nonce
                                   p (Frame.nonce response)) ;;
     ret true)
    false.

(** Send DUMP command and return (success, secret).  The
    [ProtocolError] raised on any other response is caught by the
    [except] of the same [try], which returns [(False, None)]. *)
Definition send_dump (t1 t2 : Z) : M (bool * option string) :=
  except_ProtocolError
    (frame <== on_protocol MiniTelProtocol.create_dump_frame ;;
     response <== call (_send_frame_with_recording t1 t2 frame) ;;
     if Frame.cmd response =? Command.DUMP_FAILED then
       _ <== on_protocol (fun p => MiniTelProtocol.update_nonce
                                     p (Frame.nonce response)) ;;
       ret (false, None)
     else if Frame.cmd response =? Command.DUMP_OK then
       _ <== on_protocol (fun p => MiniTelProtocol.update_nonce
                                     p (Frame.nonce response)) ;;
       secret <== decode_utf8 (Frame.payload response) ;;
       ret (true, Some secret)
     else ret (false, None))
    (false, None).

(** Send STOP_CMD command. *)
Definition send_stop (t1 t2 : Z) : M bool :=
  except_ProtocolError
    (frame <== on_protocol MiniTelProtocol.create_stop_frame ;;
     response <== call (_send_frame_with_recording t1 t2 frame) ;;
     _ <== on_protocol (fun p => MiniTelProtocol.validate_response
                                   p response Command.STOP_OK) ;;
     _ <== on_protocol (fun p => MiniTelProtocol.update_nonce
                                   p (Frame.nonce response)) ;;
     ret true)
    false.

(** [not override_codes]: [None] and the empty string are false. *)
Definition truthy (s : option string) : bool :=
  match s with
  | None => false
  | Some EmptyString => false
  | Some _ => true
  end.

(** Execute the mission sequence to retrieve emergency override codes. *)
Definition retrieve_override_codes (t1 t2 t3 t4 t5 t6 t7 t8 : Z)
  : M (option string) :=
  fun c =>
    if negb (MiniTelClient.connected (client c))
    then (c, MiniTelClient.Returned None)
    else
      except_Exception
        (ok <== send_hello t1 t2 ;;
         if negb ok then ret None
         else
           _ <== send_dump t3 t4 ;;
           second <== send_dump t5 t6 ;;
           if negb (fst second) || negb (truthy (snd second)) then ret None
           else
             _ <== send_stop t7 t8 ;;
             ret (snd second))
        None c.

End EnhancedSession.

(** ** [session/replay.py]: step-by-step navigation *)
Module SessionReplayer.

Record t : Type := mk {
  records : list SessionRecorder.SessionRecord;
  current_step : Z;
  total_steps : Z
}.

Definition __init__ : t := mk [] 0 0.

(** [file] is the list of records the session file holds, [None] when
    reading or converting it raises. *)
Definition load_session (file : option (list SessionRecorder.SessionRecord))
           (self : t) : t * bool :=
  match file with
  | Some recs => (mk recs 0 (len recs), true)
  | None => (self, false)
  end.

Definition get_current_record (self : t) : option SessionRecorder.SessionRecord :=
  if (0 <=? current_step self) && (current_step self <? len (records self))
  then nth_error (records self) (Z.to_nat (current_step self))
  else None.

Definition next_step (self : t) : t * bool :=
  if current_step self <? len (records self) - 1
  then (mk (records self) (current_step self + 1) (total_steps self), true)
  else (self, false).

Definition previous_step (self : t) : t * bool :=
  if current_step self >? 0
  then (mk (records self) (current_step self - 1) (total_steps self), true)
  else (self, false).

Definition goto_step (step_number : Z) (self : t) : t * bool :=
  if (0 <=? step_number) && (step_number <? len (records self))
  then (mk (records self) step_number (total_steps self), true)
  else (self, false).

(** 1-based for display. *)
Definition get_step_position (self : t) : Z * Z :=
  (current_step self + 1, total_steps self).

End SessionReplayer.

(** ** Vocabulary of the statements *)

(** The bytes [encode] packs before the payload of a frame with fields in
    range: the command byte and the nonce, big-endian. *)
Definition header (cmd nonce : Z) : bytes :=
  [Struct.byte_of_Z cmd;
   Struct.byte_of_Z (nonce / 2 ^ 24); Struct.byte_of_Z (nonce / 2 ^ 16);
   Struct.byte_of_Z (nonce / 2 ^ 8); Struct.byte_of_Z nonce].

(** The local [binary_frame] and [b64_data] of [encode]. *)
Definition binary_frame (f : Frame.t) : bytes :=
  header (Frame.cmd f) (Frame.nonce f) ++ Frame.payload f ++ Frame.hash f.

Definition b64_data (f : Frame.t) : bytes :=
  Base64.b64encode (binary_frame f).

(** Bit [k] of a byte inverted, and bit [i] of a byte string inverted
    (eight bits to a byte, counted from the first byte). *)
Definition flip_bit_in_byte (k : nat) (b : byte) : byte :=
  Struct.byte_of_Z (Z.lxor (Struct.Z_of_byte b) (2 ^ Z.of_nat k)).

Fixpoint flip_bit (i : nat) (b : bytes) : bytes :=
  match b with
  | [] => []
  | x :: rest =>
      if Nat.ltb i 8 then flip_bit_in_byte i x :: rest
      else x :: flip_bit (i - 8) rest
  end.

(** The characters of the base64 text that carry bits of the digest.
    Character [c] of the text holds bits [6c .. 6c+5] of the binary
    frame, whose last 32 bytes are the digest; [j] is a position in the
    encoded frame, which starts with the two bytes of the length. *)
Definition carries_digest (f : Frame.t) (j : nat) : bool :=
  let n := len (binary_frame f) in
  let c := Z.of_nat j - 2 in
  (0 <=? c) && (8 * (n - 32) <? 6 * c + 6) && (6 * c <? 8 * n).

(** The frame [Frame(cmd, nonce, payload)] when the fields are in range. *)
Definition response (cmd nonce : Z) (payload : bytes) : Frame.t :=
  Frame.mk cmd nonce payload (SHA256.sha256 (header cmd nonce ++ payload)).

(** The decoded frames of a connection processed in order up to the first
    exception: the loop of [_handle_client] without the codec. *)
Fixpoint session (self : MiniTelServer.t) (frames : list Frame.t)
         (state : ConnectionState.t)
  : ConnectionState.t * list Frame.t * option exn :=
  match frames with
  | [] => (state, [], None)
  | frame :: rest =>
      match MiniTelServer._process_command self frame state with
      | (state', Ok r) =>
          let '(final, rs, closed) := session self rest state' in
          (final, r :: rs, closed)
      | (state', Raise e) => (state', [], Some e)
      end
  end.

(** The frames carry the nonces [n], [n + 2], [n + 4], ... *)
Fixpoint in_sequence (n : Z) (frames : list Frame.t) : Prop :=
  match frames with
  | [] => True
  | f :: rest => Frame.nonce f = n /\ in_sequence (n + 2) rest
  end.

(** [k] successful DUMP responses from server nonce [sn] on. *)
Fixpoint dump_oks (self : MiniTelServer.t) (sn : Z) (k : nat) : list Frame.t :=
  match k with
  | O => []
  | S k' =>
      response Command.DUMP_OK sn
               (MiniTelServer.str_encode (MiniTelServer.secret self))
        :: dump_oks self (sn + 2) k'
  end.

(** The scripted responses to [k] DUMP requests after a HELLO: the first
    fails, the others succeed. *)
Definition scripted_dumps (self : MiniTelServer.t) (sn : Z) (k : nat)
  : list Frame.t :=
  match k with
  | O => []
  | S k' => response Command.DUMP_FAILED sn [] :: dump_oks self (sn + 2) k'
  end.

(** The waits before the retries after [j] failed attempts:
    2^1, ..., 2^j. *)
Definition backoff (j : nat) : list Z :=
  map (fun k => 2 ^ Z.of_nat k) (seq 1 j).

(** The state after a request is accepted: both nonces two further,
    with the given last command and DUMP counter. *)
Definition advanced (lc : option Z) (dc : Z) (s : ConnectionState.t)
  : ConnectionState.t :=
  ConnectionState.mk (ConnectionState.expected_client_nonce s + 2)
                     (ConnectionState.server_nonce s + 2)
                     lc dc (ConnectionState.connected_at s)
                     (ConnectionState.last_activity s).

(** The nonces of the requests a client handler creates when the peer
    answers with the nonces [peer], one round trip after the other. *)
Fixpoint client_requests (p : MiniTelProtocol.t) (peer : list Z) : list Z :=
  match peer with
  | [] => []
  | n :: rest =>
      MiniTelProtocol.nonce p ::
        match MiniTelProtocol.update_nonce p n with
        | (p', Ok _) => client_requests p' rest
        | (_, Raise _) => []
        end
  end.

(** Concrete frames and their wire bytes for the examples. *)
Definition wire_of (f : Frame.t) : bytes :=
  match Frame.encode f with
  | Ok b => b
  | Raise _ => []
  end.

Definition hello0 : Frame.t := response Command.HELLO 0 [].
Definition dump0 : Frame.t := response Command.DUMP 0 [].
Definition stop0 : Frame.t := response Command.STOP_CMD 0 [].
Definition dump2 : Frame.t := response Command.DUMP 2 [].
Definition dump4 : Frame.t := response Command.DUMP 4 [].
Definition stop6 : Frame.t := response Command.STOP_CMD 6 [].

(** A connection just accepted, at clock 0. *)
Definition fresh : ConnectionState.t := ConnectionState.__init__ 0 0.

Definition hex_of (b : bytes) : list Z := map Struct.Z_of_byte b.

(** A frame object: what the constructor returned for some arguments. *)
Definition constructed (f : Frame.t) : Prop :=
  exists cmd nonce payload, Frame.__init__ cmd nonce payload = Ok f.

(** The states of a connection: [_handle_client] starts from a new
    [ConnectionState], and only [_process_command] and
    [update_activity] change it. *)
Inductive reachable (self : MiniTelServer.t) : ConnectionState.t -> Prop :=
| reach_new (now later : timestamp) :
    reachable self (ConnectionState.__init__ now later)
| reach_command (s s' : ConnectionState.t) (f : Frame.t) (r : result Frame.t) :
    reachable self s ->
    MiniTelServer._process_command self f s = (s', r) ->
    reachable self s'
| reach_activity (s : ConnectionState.t) (now : timestamp) :
    reachable self s ->
    reachable self (ConnectionState.update_activity now s).

(** The recorders a program can hold: made by [__init__], then used
    through [start_session] and [record_frame]. *)
Inductive recording : SessionRecorder.t -> Prop :=
| recording_new (enabled : bool) :
    recording (SessionRecorder.__init__ enabled)
| recording_start (now : Z) (stamp : string) (r : SessionRecorder.t) :
    recording r ->
    recording (fst (SessionRecorder.start_session now stamp r))
| recording_frame (now : Z) (direction command : string) (nonce : Z)
                  (payload frame_data : bytes) (r : SessionRecorder.t) :
    recording r ->
    recording (SessionRecorder.record_frame now direction command nonce
                                            payload frame_data r).

(** The record [record_frame] appends for a frame and its encoding. *)
Definition record_of (now step : Z) (direction : string) (f : Frame.t)
           (data : bytes) : SessionRecorder.SessionRecord :=
  SessionRecorder.mk_record
    now step direction (EnhancedSession._get_command_name (Frame.cmd f))
    (Frame.nonce f)
    (match Frame.payload f with [] => EmptyString
                           | _ => bytes_hex (Frame.payload f) end)
    (match Frame.payload f with [] => None
                           | _ => Utf8.decode (Frame.payload f) end)
    (bytes_hex data).

(** The client and recorder after an answered request. *)
Definition answered (n : Z) (s0 : list bytes) (rest : bytes)
           (recs : list SessionRecorder.SessionRecord) (t0 step t1 t2 : Z)
           (req r : Frame.t) (wire : bytes) (moved : bool)
  : EnhancedSession.t :=
  EnhancedSession.mk
     (MiniTelClient.mk (MiniTelProtocol.mk (if moved then n + 2 else n)) true
                       (s0 ++ [wire_of req]) rest)
     (Some (SessionRecorder.mk
              true
              (recs ++ [record_of t1 (step + 1) "request" req (wire_of req);
                        record_of t2 (step + 2) "response" r wire])
              (Some t0) (step + 2))).

(** The moves of a replay. *)
Inductive navigation : Type :=
| Next
| Previous
| Goto (step_number : Z).

Definition navigate (op : navigation) (self : SessionReplayer.t)
  : SessionReplayer.t * bool :=
  match op with
  | Next => SessionReplayer.next_step self
  | Previous => SessionReplayer.previous_step self
  | Goto step_number => SessionReplayer.goto_step step_number self
  end.

Definition replay (ops : list navigation) (self : SessionReplayer.t)
  : SessionReplayer.t :=
  fold_left (fun s op => fst (navigate op s)) ops self.

(* ################################################################# *)
(** * Properties *)

(** ** Bytes, lengths and slices *)

Section BytesFacts.
Import Struct.

Lemma Z_of_byte_range (b : byte) : 0 <= Z_of_byte b < 256.
Proof.
  unfold Z_of_byte. pose proof (Byte.to_N_bounded b). lia.
Qed.

Lemma byte_of_Z_of_byte (b : byte) : byte_of_Z (Z_of_byte b) = b.
Proof.
  unfold byte_of_Z. pose proof (Z_of_byte_range b).
  rewrite Z.mod_small by assumption.
  unfold Z_of_byte. rewrite N2Z.id, Byte.of_to_N. reflexivity.
Qed.

Lemma Z_of_byte_of_Z (z : Z) : 0 <= z < 256 -> Z_of_byte (byte_of_Z z) = z.
Proof.
  intros Hz. unfold byte_of_Z. rewrite Z.mod_small by assumption.
  destruct (Byte.of_N (Z.to_N z)) as [b|] eqn:E.
  - apply Byte.to_of_N in E. unfold Z_of_byte. rewrite E. lia.
  - apply Byte.of_N_None_iff in E. lia.
Qed.

Lemma Z_of_byte_of_Z_mod (z : Z) : Z_of_byte (byte_of_Z z) = z mod 256.
Proof.
  assert (E : byte_of_Z z = byte_of_Z (z mod 256)).
  { unfold byte_of_Z. rewrite Z.mod_mod by lia. reflexivity. }
  rewrite E. apply Z_of_byte_of_Z. apply Z.mod_pos_bound. lia.
Qed.

Lemma bytes_eqb_refl (x : bytes) : bytes_eqb x x = true.
Proof.
  induction x as [|a x IH]; simpl; [reflexivity|].
  rewrite IH, andb_true_r. apply Byte.byte_dec_lb. reflexivity.
Qed.

Lemma bytes_eqb_eq (x y : bytes) : bytes_eqb x y = true <-> x = y.
Proof.
  split.
  - revert y. induction x as [|a x IH]; intros [|b y] H; simpl in H;
      try discriminate; [reflexivity|].
    apply andb_true_iff in H. destruct H as [Hab Hxy].
    apply Byte.byte_dec_bl in Hab. apply IH in Hxy. congruence.
  - intros ->. apply bytes_eqb_refl.
Qed.

Lemma bytes_eqb_neq (x y : bytes) : x <> y -> bytes_eqb x y = false.
Proof.
  intros H. destruct (bytes_eqb x y) eqn:E; [|reflexivity].
  apply bytes_eqb_eq in E. contradiction.
Qed.

Lemma len_app {A : Type} (x y : list A) : len (x ++ y) = len x + len y.
Proof. unfold len. rewrite length_app. lia. Qed.

Lemma len_nonneg {A : Type} (x : list A) : 0 <= len x.
Proof. unfold len. lia. Qed.

(** A slice with bounds inside the sequence. *)
Lemma slice_inside {A : Type} (l : list A) (lo hi : Z) :
  0 <= lo <= hi -> hi <= len l ->
  slice l lo hi = firstn (Z.to_nat (hi - lo)) (skipn (Z.to_nat lo) l).
Proof.
  intros H1 H2. unfold slice, norm_index.
  destruct (lo <? 0) eqn:E1; [apply Z.ltb_lt in E1; lia|].
  destruct (hi <? 0) eqn:E2; [apply Z.ltb_lt in E2; lia|].
  rewrite !Z.max_r, !Z.min_r by lia. reflexivity.
Qed.

Lemma slice_prefix {A : Type} (x y : list A) :
  slice (x ++ y) 0 (len x) = x.
Proof.
  rewrite slice_inside.
  - simpl. rewrite Z.sub_0_r. unfold len. rewrite Nat2Z.id.
    rewrite firstn_app, Nat.sub_diag, firstn_all. simpl. apply app_nil_r.
  - pose proof (len_nonneg x). lia.
  - rewrite len_app. pose proof (len_nonneg y). lia.
Qed.

Lemma slice_middle {A : Type} (x y z : list A) :
  slice (x ++ y ++ z) (len x) (len x + len y) = y.
Proof.
  rewrite slice_inside.
  - replace (len x + len y - len x) with (len y) by lia.
    unfold len. rewrite !Nat2Z.id.
    rewrite skipn_app, Nat.sub_diag, skipn_all. simpl.
    rewrite firstn_app, Nat.sub_diag, firstn_all. simpl. apply app_nil_r.
  - pose proof (len_nonneg x). pose proof (len_nonneg y). lia.
  - rewrite !len_app. pose proof (len_nonneg z). lia.
Qed.

(** [l[lo:-k]] and [l[-k:]] when the last [k] elements are [z]. *)
Lemma slice_before_suffix {A : Type} (x y z : list A) :
  0 < len z ->
  slice (x ++ y ++ z) (len x) (- len z) = y.
Proof.
  intros Hz. rewrite <- (slice_middle x y z) at 2.
  unfold slice, norm_index. rewrite !len_app.
  pose proof (len_nonneg x). pose proof (len_nonneg y).
  destruct (len x <? 0) eqn:E1; [apply Z.ltb_lt in E1; lia|].
  destruct (- len z <? 0) eqn:E2; [|apply Z.ltb_ge in E2; lia].
  destruct (len x + len y <? 0) eqn:E3; [apply Z.ltb_lt in E3; lia|].
  f_equal. f_equal. lia.
Qed.

Lemma slice_from_suffix {A : Type} (x z : list A) :
  0 < len z ->
  slice_from (x ++ z) (- len z) = z.
Proof.
  intros Hz. unfold slice_from, norm_index. rewrite len_app.
  pose proof (len_nonneg x).
  destruct (- len z <? 0) eqn:E; [|apply Z.ltb_ge in E; lia].
  replace (Z.max 0 (Z.min (len x + len z) (- len z + (len x + len z))))
    with (len x) by lia.
  unfold len. rewrite Nat2Z.id, skipn_app, Nat.sub_diag, skipn_all.
  reflexivity.
Qed.

Lemma from_bytes_big_2 (v : Z) :
  0 <= v < 2 ^ 16 ->
  from_bytes_big [byte_of_Z (v / 2 ^ 8); byte_of_Z v] = v.
Proof.
  intros Hv. unfold from_bytes_big. simpl fold_left.
  rewrite !Z_of_byte_of_Z_mod.
  change (2 ^ 8) with 256. change (2 ^ 16) with 65536 in Hv.
  rewrite (Z.mod_small (v / 256)) by (split; [apply Z.div_pos; lia | apply Z.div_lt_upper_bound; lia]).
  pose proof (Z.div_mod v 256). lia.
Qed.

Lemma from_bytes_big_4 (v : Z) :
  0 <= v < 2 ^ 32 ->
  from_bytes_big [byte_of_Z (v / 2 ^ 24); byte_of_Z (v / 2 ^ 16);
                  byte_of_Z (v / 2 ^ 8); byte_of_Z v] = v.
Proof.
  intros Hv. unfold from_bytes_big. simpl fold_left.
  rewrite !Z_of_byte_of_Z_mod.
  change (2 ^ 8) with 256. change (2 ^ 16) with 65536.
  change (2 ^ 24) with 16777216. change (2 ^ 32) with 4294967296 in Hv.
  Z.div_mod_to_equations. lia.
Qed.

Lemma from_bytes_big_1 (v : Z) :
  0 <= v < 256 -> from_bytes_big [byte_of_Z v] = v.
Proof.
  intros Hv. unfold from_bytes_big. simpl. apply Z_of_byte_of_Z. assumption.
Qed.

End BytesFacts.

(** ** SHA-256: test vectors and the size of a digest *)

Example sha256_abc :
  hex_of (SHA256.sha256 (list_byte_of_string "abc")) =
  [0xba; 0x78; 0x16; 0xbf; 0x8f; 0x01; 0xcf; 0xea;
   0x41; 0x41; 0x40; 0xde; 0x5d; 0xae; 0x22; 0x23;
   0xb0; 0x03; 0x61; 0xa3; 0x96; 0x17; 0x7a; 0x9c;
   0xb4; 0x10; 0xff; 0x61; 0xf2; 0x00; 0x15; 0xad].
Proof. vm_compute. reflexivity. Qed.

Example sha256_empty :
  hex_of (SHA256.sha256 []) =
  [0xe3; 0xb0; 0xc4; 0x42; 0x98; 0xfc; 0x1c; 0x14;
   0x9a; 0xfb; 0xf4; 0xc8; 0x99; 0x6f; 0xb9; 0x24;
   0x27; 0xae; 0x41; 0xe4; 0x64; 0x9b; 0x93; 0x4c;
   0xa4; 0x95; 0x99; 0x1b; 0x78; 0x52; 0xb8; 0x55].
Proof. vm_compute. reflexivity. Qed.

Example sha256_constants :
  List.length SHA256.K = 64%nat /\
  firstn 2 SHA256.K = [0x428a2f98; 0x71374491] /\
  nth 63 SHA256.K 0 = 0xc67178f2 /\
  SHA256.H0 = (0x6a09e667, 0xbb67ae85, 0x3c6ef372, 0xa54ff53a,
               0x510e527f, 0x9b05688c, 0x1f83d9ab, 0x5be0cd19).
Proof. vm_compute. repeat split. Qed.

Example sha256_two_blocks :
  hex_of (SHA256.sha256
            (list_byte_of_string
               "abcdbcdecdefdefgefghfghighijhijkijkljklmklmnlmnomnopnopq")) =
  [0x24; 0x8d; 0x6a; 0x61; 0xd2; 0x06; 0x38; 0xb8;
   0xe5; 0xc0; 0x26; 0x93; 0x0c; 0x3e; 0x60; 0x39;
   0xa3; 0x3c; 0xe4; 0x59; 0x64; 0xff; 0x21; 0x67;
   0xf6; 0xec; 0xed; 0xd4; 0x19; 0xdb; 0x06; 0xc1].
Proof. vm_compute. reflexivity. Qed.

Lemma sha256_length (msg : bytes) : List.length (SHA256.sha256 msg) = 32%nat.
Proof.
  unfold SHA256.sha256.
  destruct (SHA256.blocks _ _ _) as [[[[[[[a b] c] d] e] f] g] h].
  reflexivity.
Qed.

Lemma sha256_len (msg : bytes) : len (SHA256.sha256 msg) = 32.
Proof. unfold len. rewrite sha256_length. reflexivity. Qed.

(** ** Base64: decoding an encoded text gives the bytes back *)

Section Base64Facts.
Import Struct Base64.

Lemma forallb_range (P : Z -> bool) (n : nat) :
  forallb P (map Z.of_nat (seq 0 n)) = true ->
  forall v, 0 <= v < Z.of_nat n -> P v = true.
Proof.
  intros H v Hv. rewrite forallb_forall in H. apply H.
  rewrite in_map_iff. exists (Z.to_nat v). split; [lia|].
  apply in_seq. lia.
Qed.

Lemma a2b_b2a (v : Z) : 0 <= v < 64 -> a2b (b2a v) = Some v.
Proof.
  intros Hv.
  pose proof (forallb_range
    (fun v => match a2b (b2a v) with Some w => w =? v | None => false end)
    64 eq_refl v Hv) as H.
  simpl in H. destruct (a2b (b2a v)); [|discriminate].
  apply Z.eqb_eq in H. congruence.
Qed.

Lemma b2a_not_pad (v : Z) : 0 <= v < 64 -> Byte.eqb (b2a v) PAD = false.
Proof.
  intros Hv.
  pose proof (forallb_range (fun v => negb (Byte.eqb (b2a v) PAD))
                            64 eq_refl v Hv) as H.
  simpl in H. apply negb_true_iff in H. exact H.
Qed.

(** One character of the alphabet moves the decoder one position. *)
Lemma a2b_base64_char (v : Z) (rest : bytes) (q : nat) (l : Z) (p : nat) :
  0 <= v < 64 ->
  a2b_base64 (b2a v :: rest) q l p =
  match q with
  | 0%nat => a2b_base64 rest 1 v 0
  | 1%nat => option_map (cons (byte_of_Z (l * 4 + v / 16)))
                        (a2b_base64 rest 2 (v mod 16) 0)
  | 2%nat => option_map (cons (byte_of_Z (l * 16 + v / 4)))
                        (a2b_base64 rest 3 (v mod 4) 0)
  | _ => option_map (cons (byte_of_Z (l * 64 + v))) (a2b_base64 rest 0 0 0)
  end.
Proof.
  intros Hv. cbn [a2b_base64].
  rewrite (b2a_not_pad v Hv), (a2b_b2a v Hv). reflexivity.
Qed.

Lemma list_ind3 {A : Type} (P : list A -> Prop) :
  P [] -> (forall x, P [x]) -> (forall x y, P [x; y]) ->
  (forall x y z l, P l -> P (x :: y :: z :: l)) ->
  forall l, P l.
Proof.
  intros H0 H1 H2 H3.
  assert (H : forall l, P l /\ (forall x, P (x :: l)) /\ (forall x y, P (x :: y :: l))).
  { induction l as [|a l [IH0 [IH1 IH2]]].
    - repeat split; auto.
    - repeat split; auto. }
  intros l. apply H.
Qed.

Ltac sextet := Z.div_mod_to_equations; lia.

Lemma byte_of_Z_eq (z : Z) (x : byte) : z = Z_of_byte x -> byte_of_Z z = x.
Proof. intros ->. apply byte_of_Z_of_byte. Qed.

Theorem b64decode_b64encode (data : bytes) :
  b64decode (b64encode data) = Some data.
Proof.
  unfold b64decode.
  induction data as [|x|x y|x y z l IH] using list_ind3.
  - reflexivity.
  - pose proof (Z_of_byte_range x) as Hx.
    cbn [b64encode].
    rewrite !a2b_base64_char by sextet.
    cbn [a2b_base64 option_map]. cbn.
    rewrite (byte_of_Z_eq _ x) by sextet. reflexivity.
  - pose proof (Z_of_byte_range x) as Hx.
    pose proof (Z_of_byte_range y) as Hy.
    cbn [b64encode].
    rewrite !a2b_base64_char by sextet.
    cbn [a2b_base64 option_map]. cbn.
    rewrite (byte_of_Z_eq _ x) by sextet.
    rewrite (byte_of_Z_eq _ y) by sextet. reflexivity.
  - pose proof (Z_of_byte_range x) as Hx.
    pose proof (Z_of_byte_range y) as Hy.
    pose proof (Z_of_byte_range z) as Hz.
    cbn [b64encode].
    rewrite !a2b_base64_char by sextet.
    rewrite IH. cbn [option_map].
    rewrite (byte_of_Z_eq _ x) by sextet.
    rewrite (byte_of_Z_eq _ y) by sextet.
    rewrite (byte_of_Z_eq _ z) by sextet. reflexivity.
Qed.

(** Four characters for every three bytes, the last group completed. *)
Lemma b64encode_length (data : bytes) :
  len (b64encode data) = 4 * ((len data + 2) / 3).
Proof.
  unfold len.
  induction data as [|x|x y|x y z l IH] using list_ind3.
  - reflexivity.
  - reflexivity.
  - reflexivity.
  - cbn [b64encode List.length].
    rewrite !Nat2Z.inj_succ, IH. Z.div_mod_to_equations. lia.
Qed.

(** The length of the text depends on the length of the data only. *)
Lemma b64encode_length_eq (x y : bytes) :
  List.length x = List.length y -> len (b64encode x) = len (b64encode y).
Proof.
  intros H. rewrite !b64encode_length. unfold len. rewrite H. reflexivity.
Qed.

End Base64Facts.

Opaque SHA256.sha256.

(** ** The frame codec *)

Section CodecFacts.
Import Struct.

Lemma fits_true (w v : Z) : 0 <= v < 2 ^ w -> fits w v = true.
Proof.
  intros H. unfold fits. apply andb_true_iff.
  split; [apply Z.leb_le | apply Z.ltb_lt]; lia.
Qed.

Lemma fits_inv (w v : Z) : fits w v = true -> 0 <= v < 2 ^ w.
Proof.
  unfold fits. intros H. apply andb_true_iff in H.
  destruct H as [H1 H2]. apply Z.leb_le in H1. apply Z.ltb_lt in H2. lia.
Qed.

Lemma init_ok (cmd nonce : Z) (payload : bytes) :
  0 <= cmd < 256 -> 0 <= nonce < 2 ^ 32 ->
  Frame.__init__ cmd nonce payload =
  Ok (Frame.mk cmd nonce payload
               (SHA256.sha256 (header cmd nonce ++ payload))).
Proof.
  intros Hc Hn. unfold Frame.__init__, Frame._calculate_hash, pack_B, pack_I.
  rewrite (fits_true 8 cmd), (fits_true 32 nonce) by assumption.
  reflexivity.
Qed.

Lemma init_inv (cmd nonce : Z) (payload : bytes) (f : Frame.t) :
  Frame.__init__ cmd nonce payload = Ok f ->
  0 <= cmd < 256 /\ 0 <= nonce < 2 ^ 32 /\
  f = Frame.mk cmd nonce payload
               (SHA256.sha256 (header cmd nonce ++ payload)).
Proof.
  unfold Frame.__init__, Frame._calculate_hash, pack_B, pack_I.
  destruct (fits 8 cmd) eqn:Ec; [|discriminate].
  destruct (fits 32 nonce) eqn:En; [|discriminate].
  apply fits_inv in Ec. apply fits_inv in En.
  cbn. intros H. injection H as <-. auto.
Qed.

(** Constructing a frame raises [struct.error] only, never a
    [ProtocolError]. *)
Lemma init_raise (cmd nonce : Z) (payload : bytes) (e : exn) :
  Frame.__init__ cmd nonce payload = Raise e -> e = StructError.
Proof.
  unfold Frame.__init__, Frame._calculate_hash, pack_B, pack_I.
  destruct (fits 8 cmd); destruct (fits 32 nonce); cbn; congruence.
Qed.

Lemma binary_frame_len (f : Frame.t) :
  len (binary_frame f) = 5 + len (Frame.payload f) + len (Frame.hash f).
Proof.
  unfold binary_frame. rewrite !len_app.
  change (len (header (Frame.cmd f) (Frame.nonce f))) with 5. lia.
Qed.

(** [encode] on a frame whose fields are in range. *)
Lemma encode_spec (f : Frame.t) :
  0 <= Frame.cmd f < 256 -> 0 <= Frame.nonce f < 2 ^ 32 ->
  Frame.encode f =
  if 65535 <? len (b64_data f)
  then Raise (Protocol (FrameTooLarge (len (b64_data f))))
  else Ok ([byte_of_Z (len (b64_data f) / 2 ^ 8);
            byte_of_Z (len (b64_data f))] ++ b64_data f).
Proof.
  intros Hc Hn. unfold Frame.encode, pack_B, pack_I.
  rewrite (fits_true 8 _ Hc), (fits_true 32 _ Hn). cbn [bind].
  change ([byte_of_Z (Frame.cmd f)] ++
          [byte_of_Z (Frame.nonce f / 2 ^ 24);
           byte_of_Z (Frame.nonce f / 2 ^ 16);
           byte_of_Z (Frame.nonce f / 2 ^ 8); byte_of_Z (Frame.nonce f)] ++
          Frame.payload f ++ Frame.hash f) with (binary_frame f).
  fold (b64_data f).
  destruct (65535 <? len (b64_data f)) eqn:E; [reflexivity|].
  apply Z.ltb_ge in E. unfold pack_H.
  rewrite fits_true by (pose proof (len_nonneg (b64_data f)); lia).
  reflexivity.
Qed.

(** [decode] on a length prefix followed by the base64 text of a
    command byte, four nonce bytes, a payload and 32 more bytes: what
    is left is the comparison of the digests. *)
Lemma decode_spec (c n3 n2 n1 n0 : byte) (p h : bytes) :
  let binary := [c; n3; n2; n1; n0] ++ p ++ h in
  let length := len (Base64.b64encode binary) in
  List.length h = 32%nat ->
  length <= 65535 ->
  Frame.decode ([byte_of_Z (length / 2 ^ 8); byte_of_Z length]
                  ++ Base64.b64encode binary) =
  (frame <- Frame.__init__ (Z_of_byte c) (from_bytes_big [n3; n2; n1; n0]) p ;;
   if bytes_eqb (Frame.hash frame) h then Ok frame
   else Raise (Protocol HashValidationFailed)).
Proof.
  intros binary length Hh Hlen.
  assert (Hh' : len h = 32) by (unfold len; rewrite Hh; reflexivity).
  assert (H0 : 0 <= length) by apply len_nonneg.
  set (prefix := [byte_of_Z (length / 2 ^ 8); byte_of_Z length]).
  set (text := Base64.b64encode binary) in *.
  assert (Hdata : len (prefix ++ text) = 2 + length).
  { rewrite len_app. reflexivity. }
  unfold Frame.decode. rewrite Hdata.
  destruct (2 + length <? 2) eqn:E1; [apply Z.ltb_lt in E1; lia|].
  assert (S1 : slice (prefix ++ text) 0 2 = prefix)
    by apply (slice_prefix prefix text).
  rewrite S1. unfold unpack_H, unpack_sized. cbn [List.length prefix Nat.eqb bind].
  assert (Hp : from_bytes_big prefix = length)
    by (apply from_bytes_big_2; change (2 ^ 16) with 65536; lia).
  rewrite !Hp, Z.ltb_irrefl.
  assert (S2 : slice (prefix ++ text) 2 (2 + length) = text).
  { pose proof (slice_middle prefix text []) as S.
    rewrite app_nil_r in S. exact S. }
  rewrite S2. unfold text. rewrite b64decode_b64encode.
  assert (Hb : len binary = 37 + len p).
  { unfold binary. rewrite !len_app, Hh'.
    change (len [c; n3; n2; n1; n0]) with 5. lia. }
  rewrite Hb.
  destruct (37 + len p <? 37) eqn:E2;
    [apply Z.ltb_lt in E2; pose proof (len_nonneg p); lia|].
  assert (S3 : slice binary 0 1 = [c])
    by apply (slice_prefix [c] ([n3; n2; n1; n0] ++ p ++ h)).
  assert (S4 : slice binary 1 5 = [n3; n2; n1; n0])
    by apply (slice_middle [c] [n3; n2; n1; n0] (p ++ h)).
  assert (S5 : slice binary 5 (-32) = p).
  { replace (-32) with (- len h) by lia.
    apply (slice_before_suffix [c; n3; n2; n1; n0] p h). lia. }
  assert (S6 : slice_from binary (-32) = h).
  { replace (-32) with (- len h) by lia.
    pose proof (slice_from_suffix ([c; n3; n2; n1; n0] ++ p) h) as S.
    rewrite <- app_assoc in S. apply S. lia. }
  rewrite S3, S4, S5, S6.
  unfold unpack_B, unpack_I, unpack_sized. cbn [List.length Nat.eqb bind].
  replace (from_bytes_big [c]) with (Z_of_byte c) by reflexivity.
  reflexivity.
Qed.

End CodecFacts.

Section TamperFacts.
Import Struct.

Lemma flip_bit_in_byte_neq (k : nat) (b : byte) :
  (k < 8)%nat -> flip_bit_in_byte k b <> b.
Proof.
  intros Hk.
  set (P := fun v : Z =>
              forallb (fun k => negb (Byte.eqb (flip_bit_in_byte k (byte_of_Z v))
                                               (byte_of_Z v)))
                      (seq 0 8)).
  assert (H : forallb P (map Z.of_nat (seq 0 256)) = true)
    by (vm_compute; reflexivity).
  pose proof (forallb_range P 256 H (Z_of_byte b) (Z_of_byte_range b)) as Hb.
  unfold P in Hb. rewrite forallb_forall in Hb.
  specialize (Hb k). rewrite byte_of_Z_of_byte in Hb.
  assert (Hin : In k (seq 0 8)) by (apply in_seq; lia).
  apply Hb in Hin. apply negb_true_iff in Hin.
  apply Byte.eqb_false in Hin. exact Hin.
Qed.

Lemma flip_bit_length (i : nat) (b : bytes) :
  List.length (flip_bit i b) = List.length b.
Proof.
  revert i. induction b as [|x b IH]; intros i; simpl; [reflexivity|].
  destruct (Nat.ltb i 8); simpl; [reflexivity|]. rewrite IH. reflexivity.
Qed.

(** Inverting a bit that the byte string has changes the string. *)
Lemma flip_bit_neq (i : nat) (b : bytes) :
  (i < 8 * List.length b)%nat -> flip_bit i b <> b.
Proof.
  revert i. induction b as [|x b IH]; intros i Hi; simpl in *; [lia|].
  destruct (Nat.ltb i 8) eqn:E.
  - apply Nat.ltb_lt in E. intros H. injection H as H.
    exact (flip_bit_in_byte_neq i x E H).
  - apply Nat.ltb_ge in E. intros H. injection H as H.
    apply (IH (i - 8)%nat); [lia | exact H].
Qed.

End TamperFacts.

Section CodecTheorems.
Import Struct.

(** The wire bytes of a command byte, a nonce and a payload followed by
    32 bytes that are not the digest of these fields do not decode. *)
Lemma digest_mismatch_rejected (cmd nonce : Z) (payload h : bytes) :
  let text := Base64.b64encode (header cmd nonce ++ payload ++ h) in
  0 <= cmd < 256 -> 0 <= nonce < 2 ^ 32 ->
  List.length h = 32%nat ->
  h <> SHA256.sha256 (header cmd nonce ++ payload) ->
  len text <= 65535 ->
  Frame.decode ([byte_of_Z (len text / 2 ^ 8); byte_of_Z (len text)] ++ text)
  = Raise (Protocol HashValidationFailed).
Proof.
  intros text Hc Hn Hh Hneq E. unfold text in *. unfold header in *.
  pose proof (decode_spec (byte_of_Z cmd) (byte_of_Z (nonce / 2 ^ 24))
                (byte_of_Z (nonce / 2 ^ 16)) (byte_of_Z (nonce / 2 ^ 8))
                (byte_of_Z nonce) payload h Hh E) as D.
  cbv zeta in D. refine (eq_trans D _).
  rewrite Z_of_byte_of_Z, from_bytes_big_4 by assumption.
  rewrite init_ok by assumption. cbn [bind Frame.hash].
  rewrite bytes_eqb_neq by (intros X; apply Hneq; symmetry; exact X).
  reflexivity.
Qed.

Lemma decode_encode (cmd nonce : Z) (payload : bytes) (f : Frame.t) (wire : bytes) :
  Frame.__init__ cmd nonce payload = Ok f ->
  Frame.encode f = Ok wire ->
  Frame.decode wire = Ok f.
Proof.
  intros Hf Henc. apply init_inv in Hf. destruct Hf as [Hc [Hn ->]].
  rewrite encode_spec in Henc by assumption.
  destruct (65535 <? _) eqn:E in Henc; [discriminate|].
  apply Z.ltb_ge in E. injection Henc as <-.
  unfold b64_data, binary_frame, header in *. cbn [Frame.cmd Frame.nonce Frame.payload Frame.hash] in *.
  pose proof (decode_spec (byte_of_Z cmd) (byte_of_Z (nonce / 2 ^ 24))
                (byte_of_Z (nonce / 2 ^ 16)) (byte_of_Z (nonce / 2 ^ 8))
                (byte_of_Z nonce) payload _ (sha256_length _) E) as D.
  cbv zeta in D. refine (eq_trans D _).
  rewrite Z_of_byte_of_Z, from_bytes_big_4 by assumption.
  rewrite init_ok by assumption. cbn [bind Frame.hash].
  unfold header. rewrite bytes_eqb_refl. reflexivity.
Qed.

(** C2.  For every command byte, every nonce below 2^32 and every
    payload whose base64 text does not exceed 65535 bytes, the frame is
    constructed and encoded without error, and decoding the encoded
    bytes returns a frame with the same command, nonce and payload
    whose digest is the one recomputed from these fields (it is the
    frame that was encoded). *)
Theorem C2_decode_encode_roundtrip (cmd nonce : Z) (payload : bytes) :
  0 <= cmd < 256 ->
  0 <= nonce < 2 ^ 32 ->
  len (Base64.b64encode
         (header cmd nonce ++ payload
            ++ SHA256.sha256 (header cmd nonce ++ payload))) <= 65535 ->
  exists (f g : Frame.t) (wire : bytes),
    Frame.__init__ cmd nonce payload = Ok f /\
    Frame.encode f = Ok wire /\
    Frame.decode wire = Ok g /\
    Frame.cmd g = cmd /\ Frame.nonce g = nonce /\
    Frame.payload g = payload /\
    Frame.hash g = Frame.hash f /\
    Frame._calculate_hash (Frame.cmd g) (Frame.nonce g) (Frame.payload g)
      = Ok (Frame.hash g).
Proof.
  intros Hc Hn Hlen.
  set (f := Frame.mk cmd nonce payload
                     (SHA256.sha256 (header cmd nonce ++ payload))).
  assert (Hf : Frame.__init__ cmd nonce payload = Ok f)
    by (apply init_ok; assumption).
  assert (Henc : exists wire, Frame.encode f = Ok wire).
  { rewrite encode_spec by assumption.
    change (b64_data f) with
      (Base64.b64encode
         (header cmd nonce ++ payload
            ++ SHA256.sha256 (header cmd nonce ++ payload))).
    destruct (65535 <? _) eqn:E; [apply Z.ltb_lt in E; lia|].
    eexists. reflexivity. }
  destruct Henc as [wire Henc].
  exists f, f, wire. repeat split; try assumption.
  - exact (decode_encode cmd nonce payload f wire Hf Henc).
  - cbn [Frame.cmd Frame.nonce Frame.payload Frame.hash f].
    unfold Frame._calculate_hash, pack_B, pack_I.
    rewrite (fits_true 8 cmd), (fits_true 32 nonce) by assumption.
    reflexivity.
Qed.

Lemma C2_decode_encode_roundtrip_witness :
  exists (f g : Frame.t) (wire : bytes),
    Frame.__init__ Command.HELLO 42 (list_byte_of_string "test payload") = Ok f /\
    Frame.encode f = Ok wire /\
    Frame.decode wire = Ok g /\
    Frame.cmd g = Command.HELLO /\ Frame.nonce g = 42 /\
    Frame.payload g = list_byte_of_string "test payload" /\
    Frame.hash g = Frame.hash f /\
    Frame._calculate_hash (Frame.cmd g) (Frame.nonce g) (Frame.payload g)
      = Ok (Frame.hash g).
Proof.
  apply (C2_decode_encode_roundtrip Command.HELLO 42
           (list_byte_of_string "test payload")).
  - unfold Command.HELLO. lia.
  - lia.
  - vm_compute. discriminate.
Defined.

(** C6 (amended).  The encoded form of a well-formed frame is a length
    prefix followed by the base64 text of command, nonce, payload and
    the 32-byte digest.  With any one of the 256 bits of that digest
    inverted before the text is made, [decode] raises "Hash validation
    failed" instead of returning a frame; so it does with any 32 bytes
    other than the recomputed digest in the digest's place.  (A bit
    inverted in the text itself is another matter: see
    [C6_counterexample].) *)
Theorem C6_tampered_digest_rejected
        (cmd nonce : Z) (payload : bytes) (f : Frame.t) :
  Frame.__init__ cmd nonce payload = Ok f ->
  len (b64_data f) <= 65535 ->
  exists prefix : bytes,
    Frame.encode f =
      Ok (prefix ++ Base64.b64encode
                      (header cmd nonce ++ payload ++ Frame.hash f)) /\
    (forall i : nat, (i < 256)%nat ->
       Frame.decode
         (prefix ++ Base64.b64encode
                      (header cmd nonce ++ payload
                         ++ flip_bit i (Frame.hash f)))
       = Raise (Protocol HashValidationFailed)) /\
    (forall h : bytes,
       List.length h = 32%nat -> h <> Frame.hash f ->
       Frame.decode
         (prefix ++ Base64.b64encode (header cmd nonce ++ payload ++ h))
       = Raise (Protocol HashValidationFailed)).
Proof.
  intros Hf Hlen. apply init_inv in Hf. destruct Hf as [Hc [Hn ->]].
  set (d := SHA256.sha256 (header cmd nonce ++ payload)) in *.
  set (f := Frame.mk cmd nonce payload d) in *.
  set (L := len (b64_data f)) in *.
  exists [byte_of_Z (L / 2 ^ 8); byte_of_Z L].
  assert (General : forall h : bytes,
             List.length h = 32%nat -> h <> d ->
             Frame.decode
               ([byte_of_Z (L / 2 ^ 8); byte_of_Z L]
                  ++ Base64.b64encode (header cmd nonce ++ payload ++ h))
             = Raise (Protocol HashValidationFailed)).
  { intros h Hh Hneq.
    assert (E : len (Base64.b64encode (header cmd nonce ++ payload ++ h)) = L).
    { apply b64encode_length_eq. unfold binary_frame.
      cbn [Frame.cmd Frame.nonce Frame.payload Frame.hash f].
      rewrite !length_app, Hh. unfold d. rewrite sha256_length. reflexivity. }
    pose proof (digest_mismatch_rejected cmd nonce payload h) as D.
    cbv zeta in D. rewrite E in D. apply D; try assumption. }
  split; [|split].
  - rewrite encode_spec by assumption. fold L.
    destruct (65535 <? L) eqn:E; [apply Z.ltb_lt in E; lia|]. reflexivity.
  - intros i Hi. cbn [Frame.hash f]. apply General.
    + rewrite flip_bit_length. apply sha256_length.
    + apply flip_bit_neq. unfold d. rewrite sha256_length. lia.
  - exact General.
Qed.

End CodecTheorems.

Section EncodeTheorems.
Import Struct.

(** C7.  For a well-formed frame, [encode] raises "Frame too large"
    exactly when the base64 text of command, nonce, payload and digest
    is longer than 65535 bytes, and then a client sending the frame
    writes nothing to its socket; otherwise [encode] returns the two
    bytes of the big-endian length of the text followed by the text. *)
Theorem C7_encode_frame_too_large
        (cmd nonce : Z) (payload : bytes) (f : Frame.t) :
  Frame.__init__ cmd nonce payload = Ok f ->
  b64_data f = Base64.b64encode (header cmd nonce ++ payload ++ Frame.hash f) /\
  ((exists n, Frame.encode f = Raise (Protocol (FrameTooLarge n)))
     <-> 65535 < len (b64_data f)) /\
  (65535 < len (b64_data f) ->
     Frame.encode f = Raise (Protocol (FrameTooLarge (len (b64_data f)))) /\
     forall client : MiniTelClient.t,
       fst (MiniTelClient._send_frame client f) = client) /\
  (len (b64_data f) <= 65535 ->
     exists l : bytes,
       Frame.encode f = Ok (l ++ b64_data f) /\
       List.length l = 2%nat /\
       from_bytes_big l = len (b64_data f)).
Proof.
  intros Hf. apply init_inv in Hf. destruct Hf as [Hc [Hn ->]].
  set (f := Frame.mk cmd nonce payload _).
  pose proof (encode_spec f Hc Hn) as Henc.
  split; [reflexivity|].
  destruct (65535 <? len (b64_data f)) eqn:E.
  - apply Z.ltb_lt in E. split; [|split].
    + split; [intros _; exact E | intros _; eexists; exact Henc].
    + intros _. split; [exact Henc|].
      intros client. unfold MiniTelClient._send_frame.
      destruct (negb (MiniTelClient.connected client)); [reflexivity|].
      rewrite Henc. reflexivity.
    + intros H. lia.
  - apply Z.ltb_ge in E. split; [|split].
    + split; [|intros H; lia].
      intros [n Hn']. rewrite Henc in Hn'. discriminate.
    + intros H. lia.
    + intros _. eexists. split; [exact Henc|]. split; [reflexivity|].
      apply from_bytes_big_2. pose proof (len_nonneg (b64_data f)).
      change (2 ^ 16) with 65536. lia.
Qed.

(** The limit in terms of the payload: the text of a frame has
    [4 * ceil((37 + len payload) / 3)] bytes, so [encode] rejects
    exactly the payloads of more than 49112 bytes. *)
Lemma encode_limit_payload (cmd nonce : Z) (payload : bytes) (f : Frame.t) :
  Frame.__init__ cmd nonce payload = Ok f ->
  (65535 < len (b64_data f) <-> 49112 < len payload).
Proof.
  intros Hf. apply init_inv in Hf. destruct Hf as [Hc [Hn ->]].
  unfold b64_data. rewrite b64encode_length, binary_frame_len.
  cbn [Frame.payload Frame.hash]. rewrite sha256_len.
  pose proof (len_nonneg payload).
  split; intros H1; Z.div_mod_to_equations; lia.
Qed.

End EncodeTheorems.

Lemma C7_encode_frame_too_large_witness :
  exists l : bytes,
    Frame.encode hello0 = Ok (l ++ b64_data hello0) /\
    List.length l = 2%nat /\
    Struct.from_bytes_big l = len (b64_data hello0).
Proof.
  destruct (C7_encode_frame_too_large Command.HELLO 0 [] hello0 eq_refl)
    as [_ [_ [_ H]]].
  apply H. vm_compute. discriminate.
Defined.

Lemma C6_tampered_digest_rejected_witness :
  exists prefix : bytes,
    Frame.encode hello0 =
      Ok (prefix ++ Base64.b64encode
                      (header Command.HELLO 0 ++ [] ++ Frame.hash hello0)) /\
    Frame.decode
      (prefix ++ Base64.b64encode
                   (header Command.HELLO 0 ++ []
                      ++ flip_bit 255 (Frame.hash hello0)))
    = Raise (Protocol HashValidationFailed).
Proof.
  assert (Hlen : len (b64_data hello0) <= 65535) by (vm_compute; discriminate).
  destruct (C6_tampered_digest_rejected Command.HELLO 0 [] hello0 eq_refl Hlen)
    as [prefix [Henc [Hflip _]]].
  exists prefix. split; [exact Henc|].
  apply (Hflip 255%nat). lia.
Defined.

(** ** The server's command processing *)

Section ServerFacts.
Import ConnectionState MiniTelServer.

Ltac run_server :=
  unfold _process_command, StateExn.bindM, StateExn.get, StateExn.modify,
    StateExn.raise, StateExn.lift, StateExn.ret;
  cbn [expected_client_nonce server_nonce last_command dump_count
       connected_at last_activity set_last_command set_dump_count
       set_expected_client_nonce set_server_nonce].

Variable self : MiniTelServer.t.

Lemma process_bad_nonce (f : Frame.t) (s : ConnectionState.t) :
  Frame.nonce f <> expected_client_nonce s ->
  _process_command self f s = (s, Raise (Protocol InvalidNonceSequence)).
Proof.
  intros H. run_server.
  apply Z.eqb_neq in H. rewrite H. reflexivity.
Qed.

Lemma process_hello (f : Frame.t) (s : ConnectionState.t) :
  Frame.nonce f = expected_client_nonce s ->
  Frame.cmd f = Command.HELLO ->
  0 <= server_nonce s < 2 ^ 32 ->
  _process_command self f s =
  (advanced (Some Command.HELLO) 0 s,
   Ok (response Command.HELLO_ACK (server_nonce s) [])).
Proof.
  intros Hn Hc Hs. run_server.
  rewrite Hn, Z.eqb_refl, Hc. cbn [negb Z.eqb Command.HELLO Pos.eqb].
  rewrite init_ok by (unfold Command.HELLO_ACK; lia).
  reflexivity.
Qed.

Lemma process_dump_unauthenticated (f : Frame.t) (s : ConnectionState.t) :
  Frame.nonce f = expected_client_nonce s ->
  Frame.cmd f = Command.DUMP ->
  last_command s <> Some Command.HELLO ->
  _process_command self f s = (s, Raise (Protocol DumpRequiresHelloFirst)).
Proof.
  intros Hn Hc Hl. run_server.
  rewrite Hn, Z.eqb_refl, Hc. cbn [negb Z.eqb Command.HELLO Command.DUMP Pos.eqb].
  destruct (last_command s) as [c|] eqn:E; cbn [option_Z_eqb]; [|reflexivity].
  destruct (c =? Command.HELLO) eqn:E1; [|reflexivity].
  apply Z.eqb_eq in E1. subst c. contradiction.
Qed.

Lemma process_dump_first (f : Frame.t) (s : ConnectionState.t) :
  Frame.nonce f = expected_client_nonce s ->
  Frame.cmd f = Command.DUMP ->
  last_command s = Some Command.HELLO ->
  dump_count s = 0 ->
  0 <= server_nonce s < 2 ^ 32 ->
  _process_command self f s =
  (advanced (Some Command.HELLO) 1 s,
   Ok (response Command.DUMP_FAILED (server_nonce s) [])).
Proof.
  intros Hn Hc Hl Hd Hs. run_server.
  rewrite Hn, Z.eqb_refl, Hc.
  cbn [negb Z.eqb Command.HELLO Command.DUMP Pos.eqb].
  rewrite Hl. cbn [negb Z.eqb Command.HELLO Pos.eqb option_Z_eqb].
  rewrite Hd. cbn [Z.eqb Z.add Pos.eqb].
  rewrite init_ok by (unfold Command.DUMP_FAILED; lia).
  unfold advanced, set_server_nonce, set_expected_client_nonce, set_dump_count.
  cbn [expected_client_nonce server_nonce last_command dump_count
       connected_at last_activity].
  rewrite Hl. reflexivity.
Qed.

Lemma process_dump_later (f : Frame.t) (s : ConnectionState.t) :
  Frame.nonce f = expected_client_nonce s ->
  Frame.cmd f = Command.DUMP ->
  last_command s = Some Command.HELLO ->
  dump_count s <> 0 ->
  0 <= server_nonce s < 2 ^ 32 ->
  _process_command self f s =
  (advanced (Some Command.HELLO) (dump_count s + 1) s,
   Ok (response Command.DUMP_OK (server_nonce s)
                (str_encode (secret self)))).
Proof.
  intros Hn Hc Hl Hd Hs. run_server.
  rewrite Hn, Z.eqb_refl, Hc.
  cbn [negb Z.eqb Command.HELLO Command.DUMP Pos.eqb].
  rewrite Hl. cbn [negb Z.eqb Command.HELLO Pos.eqb option_Z_eqb].
  destruct (dump_count s + 1 =? 1) eqn:E; [apply Z.eqb_eq in E; lia|].
  rewrite init_ok by (unfold Command.DUMP_OK; lia).
  unfold advanced, set_server_nonce, set_expected_client_nonce, set_dump_count.
  cbn [expected_client_nonce server_nonce last_command dump_count
       connected_at last_activity].
  rewrite Hl. reflexivity.
Qed.

Lemma process_stop (f : Frame.t) (s : ConnectionState.t) :
  Frame.nonce f = expected_client_nonce s ->
  Frame.cmd f = Command.STOP_CMD ->
  0 <= server_nonce s < 2 ^ 32 ->
  _process_command self f s =
  (advanced (last_command s) (dump_count s) s,
   Ok (response Command.STOP_OK (server_nonce s) [])).
Proof.
  intros Hn Hc Hs. run_server.
  rewrite Hn, Z.eqb_refl, Hc.
  cbn [negb Z.eqb Command.HELLO Command.DUMP Command.STOP_CMD Pos.eqb].
  rewrite init_ok by (unfold Command.STOP_OK; lia).
  reflexivity.
Qed.

Lemma process_unknown (f : Frame.t) (s : ConnectionState.t) :
  Frame.nonce f = expected_client_nonce s ->
  Frame.cmd f <> Command.HELLO ->
  Frame.cmd f <> Command.DUMP ->
  Frame.cmd f <> Command.STOP_CMD ->
  _process_command self f s =
  (s, Raise (Protocol (UnknownCommand (Frame.cmd f)))).
Proof.
  intros Hn H1 H2 H3. run_server.
  rewrite Hn, Z.eqb_refl. cbn [negb].
  apply Z.eqb_neq in H1, H2, H3. rewrite H1, H2, H3. reflexivity.
Qed.

(** Whatever the outcome, a call leaves the nonces where they were or
    moves both two further, the latter exactly when it returns a
    response; the response carries the server nonce of before. *)
Lemma process_nonces (f : Frame.t) (s s' : ConnectionState.t)
      (r : result Frame.t) :
  _process_command self f s = (s', r) ->
  match r with
  | Ok resp =>
      Frame.nonce f = expected_client_nonce s /\
      expected_client_nonce s' = expected_client_nonce s + 2 /\
      server_nonce s' = server_nonce s + 2 /\
      Frame.nonce resp = server_nonce s
  | Raise _ =>
      expected_client_nonce s' = expected_client_nonce s /\
      server_nonce s' = server_nonce s
  end.
Proof.
  run_server.
  destruct (Frame.nonce f =? expected_client_nonce s) eqn:En; cbn [negb].
  2:{ intros H. injection H as <- <-. auto. }
  apply Z.eqb_eq in En.
  destruct (Frame.cmd f =? Command.HELLO).
  { destruct (Frame.__init__ Command.HELLO_ACK (server_nonce s) []) as [resp|e] eqn:E;
      intros H; injection H as <- <-; cbn; auto.
    apply init_inv in E. destruct E as [_ [_ ->]]. auto. }
  destruct (Frame.cmd f =? Command.DUMP).
  { cbn beta.
    destruct (negb (option_Z_eqb (last_command s) (Some Command.HELLO)));
      cbn beta.
    { intros H. injection H as <- <-. auto. }
    destruct (dump_count s + 1 =? 1).
    - destruct (Frame.__init__ Command.DUMP_FAILED (server_nonce s) []) as [resp|e] eqn:E;
        intros H; injection H as <- <-; cbn; auto.
      apply init_inv in E. destruct E as [_ [_ ->]]. auto.
    - destruct (Frame.__init__ Command.DUMP_OK (server_nonce s) _) as [resp|e] eqn:E;
        intros H; injection H as <- <-; cbn; auto.
      apply init_inv in E. destruct E as [_ [_ ->]]. auto. }
  destruct (Frame.cmd f =? Command.STOP_CMD).
  { destruct (Frame.__init__ Command.STOP_OK (server_nonce s) []) as [resp|e] eqn:E;
      intros H; injection H as <- <-; cbn; auto.
    apply init_inv in E. destruct E as [_ [_ ->]]. auto. }
  intros H. injection H as <- <-. auto.
Qed.

(** A [ProtocolError] leaves the whole state as it was. *)
Lemma process_protocol_error (f : Frame.t) (s s' : ConnectionState.t)
      (e : ProtocolError) :
  _process_command self f s = (s', Raise (Protocol e)) -> s' = s.
Proof.
  run_server.
  destruct (Frame.nonce f =? expected_client_nonce s); cbn [negb].
  2:{ intros H. injection H as <- _. reflexivity. }
  destruct (Frame.cmd f =? Command.HELLO).
  { destruct (Frame.__init__ Command.HELLO_ACK (server_nonce s) []) as [resp|e'] eqn:E;
      intros H; [discriminate|].
    apply init_raise in E. injection H as _ H. congruence. }
  destruct (Frame.cmd f =? Command.DUMP).
  { cbn beta.
    destruct (negb (option_Z_eqb (last_command s) (Some Command.HELLO)));
      cbn beta.
    { intros H. injection H as <- _. reflexivity. }
    destruct (dump_count s + 1 =? 1).
    - destruct (Frame.__init__ Command.DUMP_FAILED (server_nonce s) []) as [resp|e'] eqn:E;
        intros H; [discriminate|].
      apply init_raise in E. injection H as _ H. congruence.
    - destruct (Frame.__init__ Command.DUMP_OK (server_nonce s) _) as [resp|e'] eqn:E;
        intros H; [discriminate|].
      apply init_raise in E. injection H as _ H. congruence. }
  destruct (Frame.cmd f =? Command.STOP_CMD).
  { destruct (Frame.__init__ Command.STOP_OK (server_nonce s) []) as [resp|e'] eqn:E;
      intros H; [discriminate|].
    apply init_raise in E. injection H as _ H. congruence. }
  intros H. injection H as <- _. reflexivity.
Qed.

End ServerFacts.

Section ServerTheorems.
Import ConnectionState MiniTelServer.

Lemma handle_frame_decoded (self : MiniTelServer.t) (now : timestamp)
      (data : bytes) (f : Frame.t) (s : ConnectionState.t) :
  Frame.decode data = Ok f ->
  handle_frame self now data s =
  match _process_command self f s with
  | (s', Ok r) =>
      match Frame.encode r with
      | Ok out => (update_activity now s', Ok out)
      | Raise e => (s', Raise e)
      end
  | (s', Raise e) => (s', Raise e)
  end.
Proof.
  intros H. unfold handle_frame, StateExn.bindM, StateExn.lift,
              StateExn.modify, StateExn.ret.
  rewrite H. destruct (_process_command self f s) as [s' [r|e]]; [|reflexivity].
  destruct (Frame.encode r); reflexivity.
Qed.

Lemma constructed_range (f : Frame.t) :
  constructed f -> 0 <= Frame.cmd f < 256 /\ 0 <= Frame.nonce f < 2 ^ 32.
Proof.
  intros [c [n [p H]]]. apply init_inv in H. destruct H as [Hc [Hn ->]].
  cbn. auto.
Qed.

(** What [decode] returns is a frame object. *)
Lemma decode_constructed (data : bytes) (f : Frame.t) :
  Frame.decode data = Ok f -> constructed f.
Proof.
  unfold Frame.decode.
  destruct (len data <? 2); [discriminate|].
  destruct (Struct.unpack_H _) as [length|]; cbn [bind]; [|discriminate].
  destruct (len data <? 2 + length); [discriminate|].
  destruct (Base64.b64decode _) as [binary|]; [|discriminate].
  destruct (len binary <? 37); [discriminate|].
  destruct (Struct.unpack_B _) as [c|]; cbn [bind]; [|discriminate].
  destruct (Struct.unpack_I _) as [n|]; cbn [bind]; [|discriminate].
  destruct (Frame.__init__ c n _) as [frame|] eqn:E; cbn [bind]; [|discriminate].
  destruct (bytes_eqb _ _); [|discriminate].
  intros H. injection H as <-. exists c, n, (slice binary 5 (-32)). exact E.
Qed.

(** On a connection the client nonce expected is even and the server
    nonce is the next number. *)
Lemma reachable_nonces (self : MiniTelServer.t) (s : ConnectionState.t) :
  reachable self s ->
  exists k, 0 <= k /\ expected_client_nonce s = 2 * k /\
            server_nonce s = 2 * k + 1.
Proof.
  induction 1 as [now | s s' f r _ [k [Hk [He Hs]]] Hstep
                  | s now _ [k [Hk [He Hs]]]].
  - exists 0. cbn. lia.
  - apply process_nonces in Hstep. destruct r as [resp|e].
    + destruct Hstep as [_ [He' [Hs' _]]]. exists (k + 1). lia.
    + destruct Hstep as [He' Hs']. exists k. lia.
  - exists k. cbn. auto.
Qed.

(** So the server nonce fits 32 bits whenever a frame object carries the
    expected nonce. *)
Lemma server_nonce_fits (self : MiniTelServer.t) (s : ConnectionState.t)
      (f : Frame.t) :
  reachable self s -> constructed f ->
  Frame.nonce f = expected_client_nonce s ->
  0 <= server_nonce s < 2 ^ 32.
Proof.
  intros Hr Hf Hn. apply reachable_nonces in Hr.
  destruct Hr as [k [Hk [He Hs]]].
  apply constructed_range in Hf. destruct Hf as [_ Hf].
  change (2 ^ 32) with 4294967296 in *. lia.
Qed.

Lemma in_sequence_last (fs : list Frame.t) :
  forall n : Z,
    fs <> [] -> Forall constructed fs -> in_sequence n fs ->
    n + 2 * (len fs - 1) < 2 ^ 32.
Proof.
  induction fs as [|f fs IH]; intros n Hne Hall Hseq; [contradiction|].
  inversion Hall as [|? ? Hf Hall']; subst.
  destruct Hseq as [Hn Hseq].
  assert (L : len (f :: fs) = len fs + 1)
    by (unfold len; cbn [List.length]; lia).
  destruct fs as [|g fs].
  - apply constructed_range in Hf. change (len [f]) with 1. lia.
  - specialize (IH (n + 2)). rewrite L.
    assert (n + 2 + 2 * (len (g :: fs) - 1) < 2 ^ 32)
      by (apply IH; [discriminate | assumption | assumption]).
    lia.
Qed.

(** C1 (amended).  On a connection that has not processed a HELLO, a
    DUMP frame with the expected nonce is rejected with "DUMP requires
    HELLO first": the state is unchanged, nothing is sent and the
    reading loop ends without reading further frames.  A STOP_CMD frame
    with the expected nonce is not rejected there: it is answered with
    STOP_OK at the server nonce and both nonces advance by 2. *)
Theorem C1_dump_before_hello_rejected
        (self : MiniTelServer.t) (s : ConnectionState.t) (now : timestamp)
        (data : bytes) (f : Frame.t) (rest : list (timestamp * bytes)) :
  reachable self s ->
  last_command s = None ->
  Frame.decode data = Ok f ->
  Frame.nonce f = expected_client_nonce s ->
  (Frame.cmd f = Command.DUMP ->
     _process_command self f s = (s, Raise (Protocol DumpRequiresHelloFirst)) /\
     handle_frame self now data s = (s, Raise (Protocol DumpRequiresHelloFirst)) /\
     _handle_client self ((now, data) :: rest) s
       = (s, [], Some (Protocol DumpRequiresHelloFirst))) /\
  (Frame.cmd f = Command.STOP_CMD ->
     _process_command self f s =
     (ConnectionState.mk (expected_client_nonce s + 2) (server_nonce s + 2)
                         None (dump_count s)
                         (connected_at s) (last_activity s),
      Ok (response Command.STOP_OK (server_nonce s) []))).
Proof.
  intros Hr Hl Hd Hn. split.
  - intros Hc.
    assert (P : _process_command self f s
                = (s, Raise (Protocol DumpRequiresHelloFirst))).
    { apply process_dump_unauthenticated; try assumption.
      rewrite Hl. discriminate. }
    assert (Hf : handle_frame self now data s
                 = (s, Raise (Protocol DumpRequiresHelloFirst))).
    { rewrite (handle_frame_decoded self now data f s Hd), P. reflexivity. }
    split; [exact P|]. split; [exact Hf|].
    cbn [_handle_client]. rewrite Hf. reflexivity.
  - intros Hc.
    pose proof (server_nonce_fits self s f Hr (decode_constructed data f Hd) Hn)
      as Hs.
    rewrite (process_stop self f s Hn Hc Hs), Hl. reflexivity.
Qed.

Lemma session_dump_oks (self : MiniTelServer.t) (dumps : list Frame.t) :
  forall s : ConnectionState.t,
    last_command s = Some Command.HELLO ->
    1 <= dump_count s ->
    Forall (fun f => Frame.cmd f = Command.DUMP) dumps ->
    in_sequence (expected_client_nonce s) dumps ->
    0 <= server_nonce s ->
    server_nonce s + 2 * len dumps <= 2 ^ 32 + 1 ->
    session self dumps s =
    (ConnectionState.mk (expected_client_nonce s + 2 * len dumps)
                        (server_nonce s + 2 * len dumps)
                        (Some Command.HELLO) (dump_count s + len dumps)
                        (connected_at s) (last_activity s),
     dump_oks self (server_nonce s) (List.length dumps), None).
Proof.
  induction dumps as [|d dumps IH]; intros s Hl Hd Hall Hseq H0 Hmax.
  - cbn. destruct s; cbn in *. rewrite Hl, !Z.add_0_r. reflexivity.
  - inversion Hall as [|? ? Hc Hall']; subst.
    destruct Hseq as [Hn Hseq].
    assert (L : len (d :: dumps) = len dumps + 1)
      by (unfold len; cbn [List.length]; lia).
    rewrite L in *. pose proof (len_nonneg dumps).
    cbn [session].
    rewrite (process_dump_later self d s Hn Hc Hl) by lia.
    rewrite (IH (advanced (Some Command.HELLO) (dump_count s + 1) s));
      cbn [advanced expected_client_nonce server_nonce last_command
           dump_count connected_at last_activity];
      try assumption; try reflexivity; try lia.
    cbn [dump_oks List.length]. f_equal. f_equal. f_equal; lia.
Qed.

(** A HELLO and DUMPs in sequence, while the server nonce has room. *)
Lemma session_hello_dumps
      (self : MiniTelServer.t) (s : ConnectionState.t)
      (hello : Frame.t) (dumps : list Frame.t) :
  Frame.cmd hello = Command.HELLO ->
  Frame.nonce hello = expected_client_nonce s ->
  Forall (fun f => Frame.cmd f = Command.DUMP) dumps ->
  in_sequence (expected_client_nonce s + 2) dumps ->
  0 <= server_nonce s ->
  server_nonce s + 2 * len dumps < 2 ^ 32 ->
  session self (hello :: dumps) s =
  (ConnectionState.mk (expected_client_nonce s + 2 + 2 * len dumps)
                      (server_nonce s + 2 + 2 * len dumps)
                      (Some Command.HELLO) (len dumps)
                      (connected_at s) (last_activity s),
   response Command.HELLO_ACK (server_nonce s) []
     :: scripted_dumps self (server_nonce s + 2) (List.length dumps),
   None).
Proof.
  intros Hc Hn Hall Hseq H0 Hmax.
  pose proof (len_nonneg dumps) as Hlen.
  cbn [session]. rewrite (process_hello self hello s Hn Hc) by lia.
  destruct dumps as [|d dumps].
  - cbn. unfold advanced. rewrite !Z.add_0_r. reflexivity.
  - inversion Hall as [|? ? Hcd Hall']; subst.
    destruct Hseq as [Hnd Hseq].
    assert (L : len (d :: dumps) = len dumps + 1)
      by (unfold len; cbn [List.length]; lia).
    rewrite L in *. pose proof (len_nonneg dumps).
    cbn [session].
    rewrite (process_dump_first self d (advanced (Some Command.HELLO) 0 s))
      by (cbn [advanced expected_client_nonce server_nonce last_command
               dump_count]; try assumption; try reflexivity; lia).
    rewrite (session_dump_oks self dumps);
      cbn [advanced expected_client_nonce server_nonce last_command
           dump_count connected_at last_activity];
      try assumption; try reflexivity; try lia.
    cbn [scripted_dumps List.length]. f_equal. f_equal. f_equal; lia.
Qed.

(** C3.  On every connection, in whatever state, a HELLO frame with the
    expected nonce followed by DUMP frames with the following nonces is
    answered with HELLO_ACK, then DUMP_FAILED for the first DUMP and
    DUMP_OK carrying the secret for the second and every later one; no
    request raises, and the last command is HELLO at the end, whatever
    the number of DUMPs. *)
Theorem C3_first_dump_fails_then_succeeds
        (self : MiniTelServer.t) (s : ConnectionState.t)
        (hello : Frame.t) (dumps : list Frame.t) :
  reachable self s ->
  constructed hello ->
  Forall constructed dumps ->
  Frame.cmd hello = Command.HELLO ->
  Frame.nonce hello = expected_client_nonce s ->
  Forall (fun f => Frame.cmd f = Command.DUMP) dumps ->
  in_sequence (expected_client_nonce s + 2) dumps ->
  session self (hello :: dumps) s =
  (ConnectionState.mk (expected_client_nonce s + 2 + 2 * len dumps)
                      (server_nonce s + 2 + 2 * len dumps)
                      (Some Command.HELLO) (len dumps)
                      (connected_at s) (last_activity s),
   response Command.HELLO_ACK (server_nonce s) []
     :: scripted_dumps self (server_nonce s + 2) (List.length dumps),
   None).
Proof.
  intros Hr Hh Hds Hc Hn Hall Hseq.
  pose proof (server_nonce_fits self s hello Hr Hh Hn) as Hs.
  apply session_hello_dumps; try assumption; [lia|].
  destruct dumps as [|d dumps]; [change (len (@nil Frame.t)) with 0; lia|].
  pose proof (in_sequence_last (d :: dumps) _ ltac:(discriminate) Hds Hseq) as B.
  apply reachable_nonces in Hr. destruct Hr as [k [Hk [He Hsn]]].
  change (2 ^ 32) with 4294967296 in *. lia.
Qed.

(** C10.  On every connection, in whatever state, a HELLO frame with
    the expected nonce is accepted: the DUMP counter becomes zero, the
    last command HELLO, the response is HELLO_ACK at the server nonce of
    before, and both nonces advance by 2; the next DUMP frame is then
    answered with DUMP_FAILED, whatever the counter was. *)
Theorem C10_hello_accepted_in_every_phase
        (self : MiniTelServer.t) (s : ConnectionState.t) (f : Frame.t) :
  reachable self s ->
  constructed f ->
  Frame.cmd f = Command.HELLO ->
  Frame.nonce f = expected_client_nonce s ->
  let s' := ConnectionState.mk (expected_client_nonce s + 2)
                               (server_nonce s + 2)
                               (Some Command.HELLO) 0
                               (connected_at s) (last_activity s) in
  _process_command self f s =
    (s', Ok (response Command.HELLO_ACK (server_nonce s) [])) /\
  (forall d : Frame.t,
     constructed d ->
     Frame.cmd d = Command.DUMP ->
     Frame.nonce d = expected_client_nonce s + 2 ->
     exists s'',
       _process_command self d s' =
         (s'', Ok (response Command.DUMP_FAILED (server_nonce s + 2) [])) /\
       dump_count s'' = 1 /\ last_command s'' = Some Command.HELLO).
Proof.
  intros Hr Hf Hc Hn s'.
  pose proof (server_nonce_fits self s f Hr Hf Hn) as Hs.
  assert (P : _process_command self f s =
              (s', Ok (response Command.HELLO_ACK (server_nonce s) [])))
    by exact (process_hello self f s Hn Hc Hs).
  split; [exact P|].
  intros d Hd Hcd Hnd.
  assert (Hs' : 0 <= server_nonce s' < 2 ^ 32).
  { apply (server_nonce_fits self s' d); [|exact Hd|exact Hnd].
    exact (reach_command self s s' f _ Hr P). }
  eexists. split.
  - apply process_dump_first; try assumption; reflexivity.
  - cbn. auto.
Qed.

End ServerTheorems.

Section NonceTheorems.
Import ConnectionState MiniTelServer.

Ltac fields :=
  cbn [advanced ConnectionState.__init__ expected_client_nonce server_nonce
       last_command dump_count connected_at last_activity].

Ltac accept_with lemma :=
  rewrite lemma by (fields; try assumption; try reflexivity; lia); fields.

Ltac reject :=
  rewrite process_bad_nonce by (fields; lia);
  eexists; eexists; split; [reflexivity|];
  split; [cbn; lia | reflexivity].

(** C5.  From a fresh connection, the requests HELLO, DUMP, DUMP,
    STOP_CMD with the nonces 0, 2, 4, 6 are answered with HELLO_ACK,
    DUMP_FAILED, DUMP_OK and STOP_OK at the nonces 1, 3, 5, 7 and leave
    the nonces at 8 and 9; with any other nonces the run ends in
    "Invalid nonce sequence" at the first request that deviates, after
    the responses 1, 3, ... sent so far.  In any state a call either
    returns a response, for a request at the expected nonce, and moves
    both nonces by exactly 2, or raises and leaves both where they
    were; a request at another nonce raises.  A client handler fed the
    nonces 1, 3, 5, 7 creates its requests at 0, 2, 4, 6. *)
Theorem C5_nonce_sequence
        (self : MiniTelServer.t) (now later : timestamp)
        (h d1 d2 t : Frame.t) :
  Frame.cmd h = Command.HELLO ->
  Frame.cmd d1 = Command.DUMP ->
  Frame.cmd d2 = Command.DUMP ->
  Frame.cmd t = Command.STOP_CMD ->
  let s0 := ConnectionState.__init__ now later in
  (map Frame.nonce [h; d1; d2; t] = [0; 2; 4; 6] ->
     exists final,
       session self [h; d1; d2; t] s0 =
         (final,
          [response Command.HELLO_ACK 1 [];
           response Command.DUMP_FAILED 3 [];
           response Command.DUMP_OK 5 (str_encode (secret self));
           response Command.STOP_OK 7 []],
          None) /\
       expected_client_nonce final = 8 /\ server_nonce final = 9) /\
  (map Frame.nonce [h; d1; d2; t] <> [0; 2; 4; 6] ->
     exists final rs,
       session self [h; d1; d2; t] s0
         = (final, rs, Some (Protocol InvalidNonceSequence)) /\
       (List.length rs < 4)%nat /\
       map Frame.nonce rs = firstn (List.length rs) [1; 3; 5; 7]) /\
  (forall (f : Frame.t) (s s' : ConnectionState.t) (r : result Frame.t),
     _process_command self f s = (s', r) ->
     match r with
     | Ok resp =>
         Frame.nonce f = expected_client_nonce s /\
         expected_client_nonce s' = expected_client_nonce s + 2 /\
         server_nonce s' = server_nonce s + 2 /\
         Frame.nonce resp = server_nonce s
     | Raise _ =>
         expected_client_nonce s' = expected_client_nonce s /\
         server_nonce s' = server_nonce s
     end) /\
  (forall (f : Frame.t) (s : ConnectionState.t),
     Frame.nonce f <> expected_client_nonce s ->
     _process_command self f s = (s, Raise (Protocol InvalidNonceSequence))) /\
  client_requests MiniTelProtocol.__init__ [1; 3; 5; 7] = [0; 2; 4; 6].
Proof.
  intros Hh Hd1 Hd2 Ht s0. unfold s0. repeat split.
  - intros Hn. cbn [map] in Hn. injection Hn as N1 N2 N3 N4.
    eexists. cbn [session].
    accept_with (process_hello self h).
    accept_with (process_dump_first self d1).
    accept_with (process_dump_later self d2).
    accept_with (process_stop self t).
    split; [reflexivity|]. split; reflexivity.
  - intros Hn. cbn [map] in Hn. cbn [session].
    destruct (Z.eq_dec (Frame.nonce h) 0) as [N1|N1]; [|reject].
    accept_with (process_hello self h).
    destruct (Z.eq_dec (Frame.nonce d1) 2) as [N2|N2]; [|reject].
    accept_with (process_dump_first self d1).
    destruct (Z.eq_dec (Frame.nonce d2) 4) as [N3|N3]; [|reject].
    accept_with (process_dump_later self d2).
    destruct (Z.eq_dec (Frame.nonce t) 6) as [N4|N4]; [|reject].
    exfalso. apply Hn. congruence.
  - intros f s s' r H. exact (process_nonces self f s s' r H).
  - intros f s H. exact (process_bad_nonce self f s H).
Qed.

(** C9.  A call that raises a [ProtocolError] leaves the state it was
    given: the server's connection state after [_process_command]
    (nonce mismatch, DUMP before HELLO and unknown opcode are such
    calls), and the client's counter after [update_nonce]. *)
Theorem C9_protocol_error_leaves_state
        (self : MiniTelServer.t) (f : Frame.t) (s : ConnectionState.t)
        (p : MiniTelProtocol.t) (received : Z) :
  (forall s' e, _process_command self f s = (s', Raise (Protocol e)) -> s' = s) /\
  (forall p' e,
     MiniTelProtocol.update_nonce p received = (p', Raise (Protocol e)) ->
     p' = p) /\
  (Frame.nonce f <> expected_client_nonce s ->
     _process_command self f s = (s, Raise (Protocol InvalidNonceSequence))) /\
  (Frame.nonce f = expected_client_nonce s ->
   Frame.cmd f = Command.DUMP ->
   last_command s <> Some Command.HELLO ->
     _process_command self f s = (s, Raise (Protocol DumpRequiresHelloFirst))) /\
  (Frame.nonce f = expected_client_nonce s ->
   Frame.cmd f <> Command.HELLO ->
   Frame.cmd f <> Command.DUMP ->
   Frame.cmd f <> Command.STOP_CMD ->
     _process_command self f s
       = (s, Raise (Protocol (UnknownCommand (Frame.cmd f))))) /\
  (received <> MiniTelProtocol.nonce p + 1 ->
     MiniTelProtocol.update_nonce p received =
       (p, Raise (Protocol (NonceMismatch (MiniTelProtocol.nonce p + 1)
                                          received)))).
Proof.
  repeat split.
  - intros s' e H. exact (process_protocol_error self f s s' e H).
  - intros p' e. unfold MiniTelProtocol.update_nonce.
    destruct (negb _); intros H; [|discriminate].
    injection H as <- _. reflexivity.
  - apply process_bad_nonce.
  - apply process_dump_unauthenticated.
  - apply process_unknown.
  - intros H. unfold MiniTelProtocol.update_nonce.
    apply Z.eqb_neq in H. rewrite H. reflexivity.
Qed.

(** C4.  The three frame constructors of the client handler leave the
    handler as it is and, for a counter N that fits 32 bits, return
    the frame of their command at nonce N; [update_nonce] with a peer
    nonce P raises "Nonce mismatch" and keeps the counter unless
    P = N + 1, and then sets the counter to P + 1 = N + 2. *)
Theorem C4_client_sequencer (p : MiniTelProtocol.t) (P : Z) :
  let N := MiniTelProtocol.nonce p in
  (fst (MiniTelProtocol.create_hello_frame p) = p /\
   fst (MiniTelProtocol.create_dump_frame p) = p /\
   fst (MiniTelProtocol.create_stop_frame p) = p) /\
  (0 <= N < 2 ^ 32 ->
     snd (MiniTelProtocol.create_hello_frame p)
       = Ok (response Command.HELLO N []) /\
     snd (MiniTelProtocol.create_dump_frame p)
       = Ok (response Command.DUMP N []) /\
     snd (MiniTelProtocol.create_stop_frame p)
       = Ok (response Command.STOP_CMD N [])) /\
  (P <> N + 1 ->
     MiniTelProtocol.update_nonce p P
       = (p, Raise (Protocol (NonceMismatch (N + 1) P)))) /\
  (P = N + 1 ->
     MiniTelProtocol.update_nonce p P = (MiniTelProtocol.mk (P + 1), Ok tt) /\
     P + 1 = N + 2).
Proof.
  intros N. repeat split.
  - unfold MiniTelProtocol.create_hello_frame. cbn [snd].
    apply init_ok; [unfold Command.HELLO; lia | assumption].
  - unfold MiniTelProtocol.create_dump_frame. cbn [snd].
    apply init_ok; [unfold Command.DUMP; lia | assumption].
  - unfold MiniTelProtocol.create_stop_frame. cbn [snd].
    apply init_ok; [unfold Command.STOP_CMD; lia | assumption].
  - intros H. unfold MiniTelProtocol.update_nonce. fold N.
    apply Z.eqb_neq in H. rewrite H. reflexivity.
  - unfold MiniTelProtocol.update_nonce. fold N.
    apply Z.eqb_eq in H. rewrite H. reflexivity.
  - lia.
Qed.

End NonceTheorems.

(** ** Connecting with retry *)

Section ConnectTheorems.
Import EnhancedMiniTelClient.

Lemma backoff_succ (j : nat) :
  backoff (S j) = backoff j ++ [2 ^ Z.of_nat (S j)].
Proof.
  unfold backoff. rewrite seq_S, map_app. reflexivity.
Qed.

(** [j] failures that each leave room for another attempt: the loop
    goes on with [j] more attempts counted, [j] more calls made and the
    waits 2^(a+1), ..., 2^(a+j) added. *)
Lemma connect_loop_failures (net : transport) (m : Z) (c : bool) :
  forall (j fuel : nat) (a : Z) (w : world),
    0 <= a ->
    a + Z.of_nat j < m ->
    (forall k, (k < j)%nat -> net (calls w + k)%nat = false) ->
    connect_loop (j + fuel) net (mk m a c) w =
    connect_loop fuel net (mk m (a + Z.of_nat j) c)
                 (mk_world (calls w + j)
                           (slept w ++ map (fun k => 2 ^ (a + Z.of_nat k))
                                           (seq 1 j))).
Proof.
  induction j as [|j IH]; intros fuel a w Ha Hm Hnet.
  - cbn [Nat.add seq map]. rewrite Z.add_0_r, Nat.add_0_r, app_nil_r.
    destruct w. reflexivity.
  - cbn [Nat.add connect_loop max_retries connection_attempts connected].
    destruct (a <? m) eqn:E1; [|apply Z.ltb_ge in E1; lia].
    rewrite <- (Nat.add_0_r (calls w)) at 1.
    rewrite (Hnet 0%nat) by lia.
    destruct (a + 1 <? m) eqn:E2; [|apply Z.ltb_ge in E2; lia].
    rewrite (IH fuel (a + 1) _) by
      (cbn [calls slept]; try lia;
       intros k Hk; replace (S (calls w) + k)%nat with (calls w + S k)%nat by lia;
       apply Hnet; lia).
    cbn [calls slept].
    replace (a + 1 + Z.of_nat j) with (a + Z.of_nat (S j)) by lia.
    replace (S (calls w) + j)%nat with (calls w + S j)%nat by lia.
    replace ((slept w ++ [2 ^ (a + 1)]) ++
             map (fun k => 2 ^ (a + 1 + Z.of_nat k)) (seq 1 j))
      with (slept w ++ map (fun k => 2 ^ (a + Z.of_nat k)) (seq 1 (S j)));
      [reflexivity|].
    rewrite <- app_assoc. f_equal.
    cbn [seq map app]. f_equal.
    rewrite <- seq_shift, map_map.
    apply map_ext. intros k. f_equal. lia.
Qed.

Lemma backoff_from_zero (j : nat) :
  map (fun k => 2 ^ (0 + Z.of_nat k)) (seq 1 j) = backoff j.
Proof. reflexivity. Qed.

(** C8.  [connect] always returns.  If the transport fails [j] times
    and then succeeds, with [j] below the maximum, [connect] returns
    [True] at once after that attempt, having made [j + 1] attempts
    and waited 2^k after the k-th failure for k = 1..j.  If the
    transport fails at every attempt, [connect] makes exactly the
    maximum number of attempts, waits 2^k after the k-th failure while
    an attempt is left, and returns [False] with [connected]
    untouched. *)
Theorem C8_connect_retries (net : transport) (self : t) (w : world) :
  let m := max_retries self in
  (forall j : nat,
     Z.of_nat j < m ->
     (forall k, (k < j)%nat -> net (calls w + k)%nat = false) ->
     net (calls w + j)%nat = true ->
     connect net self w =
     Some (mk m (Z.of_nat j) true,
           mk_world (calls w + j + 1) (slept w ++ backoff j), true)) /\
  ((forall k : nat, Z.of_nat k < m -> net (calls w + k)%nat = false) ->
     connect net self w =
     Some (mk m (Z.max 0 m) (connected self),
           mk_world (calls w + Z.to_nat m)
                    (slept w ++ backoff (Z.to_nat m - 1)), false)) /\
  (exists r, connect net self w = Some r).
Proof.
  intros m.
  assert (Success : forall j : nat,
     Z.of_nat j < m ->
     (forall k, (k < j)%nat -> net (calls w + k)%nat = false) ->
     net (calls w + j)%nat = true ->
     connect net self w =
     Some (mk m (Z.of_nat j) true,
           mk_world (calls w + j + 1) (slept w ++ backoff j), true)).
  { intros j Hj Hfail Hok. unfold connect. fold m.
    replace (S (Z.to_nat m)) with (j + S (Z.to_nat m - j))%nat by lia.
    rewrite connect_loop_failures by (try assumption; lia).
    cbn [connect_loop max_retries connection_attempts connected calls slept].
    rewrite Z.add_0_l.
    destruct (Z.of_nat j <? m) eqn:E; [|apply Z.ltb_ge in E; lia].
    rewrite Hok, backoff_from_zero. do 3 f_equal. f_equal. lia. }
  assert (Failure :
    (forall k : nat, Z.of_nat k < m -> net (calls w + k)%nat = false) ->
     connect net self w =
     Some (mk m (Z.max 0 m) (connected self),
           mk_world (calls w + Z.to_nat m)
                    (slept w ++ backoff (Z.to_nat m - 1)), false)).
  { intros Hfail. unfold connect. fold m.
    destruct (Z_le_gt_dec m 0) as [Hm|Hm].
    - cbn [connect_loop max_retries connection_attempts connected].
      destruct (0 <? m) eqn:E; [apply Z.ltb_lt in E; lia|].
      replace (Z.to_nat m) with 0%nat by lia.
      rewrite Z.max_l by lia. cbn [Nat.sub backoff seq map].
      rewrite app_nil_r, Nat.add_0_r. destruct w. reflexivity.
    - set (j := (Z.to_nat m - 1)%nat).
      replace (S (Z.to_nat m)) with (j + 2)%nat by lia.
      rewrite connect_loop_failures
        by (try lia; intros k Hk; apply Hfail; lia).
      cbn [connect_loop max_retries connection_attempts connected calls slept].
      rewrite Z.add_0_l, backoff_from_zero.
      destruct (Z.of_nat j <? m) eqn:E1; [|apply Z.ltb_ge in E1; lia].
      rewrite Hfail by lia.
      destruct (Z.of_nat j + 1 <? m) eqn:E2; [apply Z.ltb_lt in E2; lia|].
      rewrite Z.max_r by lia.
      do 3 f_equal; [f_equal; lia | f_equal; lia]. }
  split; [exact Success|]. split; [exact Failure|].
  (* the first attempt that succeeds, if any, decides *)
  assert (Search : forall n : nat, Z.of_nat n <= Z.max 0 m ->
            (exists r, connect net self w = Some r) \/
            (forall k, (k < n)%nat -> net (calls w + k)%nat = false)).
  { induction n as [|n IH]; intros Hn.
    - right. intros k Hk. lia.
    - destruct IH as [IH|IH]; [lia | left; exact IH |].
      destruct (net (calls w + n)%nat) eqn:E.
      + left. eexists. apply (Success n); [lia | exact IH | exact E].
      + right. intros k Hk.
        destruct (Nat.eq_dec k n) as [->|Hne]; [exact E | apply IH; lia]. }
  destruct (Search (Z.to_nat (Z.max 0 m))) as [H|H]; [lia | exact H |].
  eexists. apply Failure. intros k Hk. apply H. lia.
Qed.

(** A transport that fails twice and then succeeds, with three
    attempts allowed: connected after the waits 2 and 4. *)
Lemma C8_connect_retries_witness :
  connect (fun k => Nat.leb 2 k) (mk 3 0 false) (mk_world 0 []) =
  Some (mk 3 2 true, mk_world 3 [2; 4], true).
Proof.
  destruct (C8_connect_retries (fun k => Nat.leb 2 k) (mk 3 0 false)
                               (mk_world 0 [])) as [H _].
  apply (H 2%nat).
  - cbn. lia.
  - intros k Hk. cbn. destruct k as [|[|k]]; [reflexivity | reflexivity | lia].
  - reflexivity.
Defined.

(** A transport that never connects, with two attempts allowed: one
    wait of 2, then failure. *)
Example connect_gives_up :
  connect (fun _ => false) (mk 2 0 false) (mk_world 0 []) =
  Some (mk 2 2 false, mk_world 2 [2], false).
Proof. reflexivity. Qed.

End ConnectTheorems.

(** ** Concrete runs *)

Section Runs.
Import ConnectionState MiniTelServer.

(** C1 as stated fails: on a fresh connection of the server with its
    default secret, the encoded STOP_CMD frame at nonce 0 decodes to a
    frame at the expected nonce, and handling it does not raise. *)
Lemma C1_counterexample :
  ~ (forall (self : MiniTelServer.t) (s : ConnectionState.t)
            (now : timestamp) (data : bytes) (f : Frame.t),
       last_command s = None ->
       Frame.decode data = Ok f ->
       Frame.nonce f = expected_client_nonce s ->
       Frame.cmd f = Command.DUMP \/ Frame.cmd f = Command.STOP_CMD ->
       exists e, handle_frame self now data s = (s, Raise (Protocol e))).
Proof.
  intros H.
  assert (D : Frame.decode (wire_of stop0) = Ok stop0)
    by (vm_compute; reflexivity).
  destruct (H MiniTelServer.__init__ fresh 1 (wire_of stop0) stop0
              eq_refl D eq_refl (or_intror eq_refl)) as [e He].
  vm_compute in He. discriminate He.
Qed.

(** What the server does there: STOP_OK at nonce 1 is sent and the
    connection stays open for the next frame. *)
Example stop_before_hello_is_answered :
  let '(final, outs, closed) :=
    _handle_client MiniTelServer.__init__ [(1, wire_of stop0)] fresh in
  (map Frame.decode outs, closed,
   expected_client_nonce final, server_nonce final, last_command final)
  = ([Ok (response Command.STOP_OK 1 [])], None, 2, 3, None).
Proof. vm_compute. reflexivity. Qed.

Lemma C1_dump_before_hello_rejected_witness :
  _handle_client MiniTelServer.__init__
                 [(1, wire_of dump0); (2, wire_of hello0)] fresh
  = (fresh, [], Some (Protocol DumpRequiresHelloFirst)).
Proof.
  assert (D : Frame.decode (wire_of dump0) = Ok dump0)
    by (vm_compute; reflexivity).
  destruct (C1_dump_before_hello_rejected
              MiniTelServer.__init__ fresh 1 (wire_of dump0) dump0
              [(2, wire_of hello0)] (reach_new _ 0 0) eq_refl D eq_refl)
    as [H _].
  apply H. reflexivity.
Defined.

Lemma C3_first_dump_fails_then_succeeds_witness :
  session MiniTelServer.__init__ [hello0; dump2; dump4] fresh =
  (ConnectionState.mk 6 7 (Some Command.HELLO) 2 0 0,
   [response Command.HELLO_ACK 1 [];
    response Command.DUMP_FAILED 3 [];
    response Command.DUMP_OK 5 (str_encode "FLAG{MINITEL_MASTER_2025}")],
   None).
Proof.
  apply (C3_first_dump_fails_then_succeeds
           MiniTelServer.__init__ fresh hello0 [dump2; dump4]).
  - exact (reach_new _ 0 0).
  - exists Command.HELLO, 0, []. reflexivity.
  - repeat constructor.
    + exists Command.DUMP, 2, []. reflexivity.
    + exists Command.DUMP, 4, []. reflexivity.
  - reflexivity.
  - reflexivity.
  - repeat constructor.
  - simpl. auto.
Defined.

Lemma C4_client_sequencer_witness :
  MiniTelProtocol.update_nonce MiniTelProtocol.__init__ 1
    = (MiniTelProtocol.mk 2, Ok tt) /\ 1 + 1 = 0 + 2.
Proof.
  destruct (C4_client_sequencer MiniTelProtocol.__init__ 1) as [_ [_ [_ H]]].
  apply H. reflexivity.
Defined.

Lemma C5_nonce_sequence_witness :
  exists final,
    session MiniTelServer.__init__ [hello0; dump2; dump4; stop6] fresh =
      (final,
       [response Command.HELLO_ACK 1 [];
        response Command.DUMP_FAILED 3 [];
        response Command.DUMP_OK 5 (str_encode "FLAG{MINITEL_MASTER_2025}");
        response Command.STOP_OK 7 []],
       None) /\
    expected_client_nonce final = 8 /\ server_nonce final = 9.
Proof.
  destruct (C5_nonce_sequence MiniTelServer.__init__ 0 0
              hello0 dump2 dump4 stop6 eq_refl eq_refl eq_refl eq_refl)
    as [H _].
  apply H. reflexivity.
Defined.

Lemma C9_protocol_error_leaves_state_witness :
  _process_command MiniTelServer.__init__ dump2 fresh
    = (fresh, Raise (Protocol InvalidNonceSequence)) /\
  _process_command MiniTelServer.__init__ dump0 fresh
    = (fresh, Raise (Protocol DumpRequiresHelloFirst)).
Proof.
  split.
  - destruct (C9_protocol_error_leaves_state
                MiniTelServer.__init__ dump2 fresh MiniTelProtocol.__init__ 0)
      as [_ [_ [H _]]].
    apply H. simpl. lia.
  - destruct (C9_protocol_error_leaves_state
                MiniTelServer.__init__ dump0 fresh MiniTelProtocol.__init__ 0)
      as [_ [_ [_ [H _]]]].
    apply H; [reflexivity | reflexivity | simpl; discriminate].
Defined.

(** An authenticated connection that has answered two DUMPs. *)
Lemma C10_hello_accepted_in_every_phase_witness :
  _process_command MiniTelServer.__init__ (response Command.HELLO 6 [])
                   (ConnectionState.mk 6 7 (Some Command.HELLO) 2 0 0)
  = (ConnectionState.mk 8 9 (Some Command.HELLO) 0 0 0,
     Ok (response Command.HELLO_ACK 7 [])).
Proof.
  assert (R : reachable MiniTelServer.__init__
                        (ConnectionState.mk 6 7 (Some Command.HELLO) 2 0 0)).
  { apply (reach_command _ (ConnectionState.mk 4 5 (Some Command.HELLO) 1 0 0)
                         _ dump4 (Ok (response Command.DUMP_OK 5
                                         (str_encode "FLAG{MINITEL_MASTER_2025}"))));
      [|vm_compute; reflexivity].
    apply (reach_command _ (ConnectionState.mk 2 3 (Some Command.HELLO) 0 0 0)
                         _ dump2 (Ok (response Command.DUMP_FAILED 3 [])));
      [|vm_compute; reflexivity].
    apply (reach_command _ fresh _ hello0
                         (Ok (response Command.HELLO_ACK 1 [])));
      [|vm_compute; reflexivity].
    exact (reach_new _ 0 0). }
  assert (C : constructed (response Command.HELLO 6 []))
    by (exists Command.HELLO, 6, []; reflexivity).
  destruct (C10_hello_accepted_in_every_phase
              MiniTelServer.__init__
              (ConnectionState.mk 6 7 (Some Command.HELLO) 2 0 0)
              (response Command.HELLO 6 []) R C eq_refl eq_refl) as [H _].
  exact H.
Defined.

(** The whole exchange on the wire, through [decode] and [encode] on
    both sides: the responses decode to the frames at 1, 3, 5, 7. *)
Example full_exchange_on_the_wire :
  let '(final, outs, closed) :=
    _handle_client MiniTelServer.__init__
                   [(1, wire_of hello0); (2, wire_of dump2);
                    (3, wire_of dump4); (4, wire_of stop6)] fresh in
  (map Frame.decode outs, closed, final)
  = ([Ok (response Command.HELLO_ACK 1 []);
      Ok (response Command.DUMP_FAILED 3 []);
      Ok (response Command.DUMP_OK 5 (str_encode "FLAG{MINITEL_MASTER_2025}"));
      Ok (response Command.STOP_OK 7 [])],
     None,
     ConnectionState.mk 8 9 (Some Command.HELLO) 2 0 4).
Proof. vm_compute. reflexivity. Qed.

(** The base64 text itself is not canonical: the last character before
    the padding of this frame carries two bits of the digest and four
    unused bits, which the decoder drops.  Inverting one of those in the
    wire bytes (bit 6 of byte 51, [w] to [7]) decodes to the same frame;
    inverting bit 7 of that byte takes it out of the alphabet and
    [decode] raises "Base64 decode error". *)
Example unused_bits_of_the_text :
  List.length (wire_of hello0) = 54%nat /\
  nth 51 (wire_of hello0) x00 = "w"%byte /\
  nth 51 (flip_bit (8 * 51 + 6) (wire_of hello0)) x00 = "7"%byte /\
  Frame.decode (flip_bit (8 * 51 + 6) (wire_of hello0)) = Ok hello0 /\
  Frame.decode (flip_bit (8 * 51 + 7) (wire_of hello0))
    = Raise (Protocol Base64DecodeError).
Proof. vm_compute. repeat split. Qed.

(** C6 as stated fails on the encoded bytes: in the encoding of the
    HELLO frame at nonce 0, byte 51 is the last character that carries
    bits of the digest, and with its bit 6 inverted (bit 8 * 51 + 6 =
    414 of the encoding) [decode] returns a frame instead of raising. *)
Lemma C6_counterexample :
  ~ (forall (cmd nonce : Z) (payload : bytes) (f : Frame.t) (wire : bytes)
            (i : nat),
       Frame.__init__ cmd nonce payload = Ok f ->
       Frame.encode f = Ok wire ->
       carries_digest f (i / 8) = true ->
       exists e, Frame.decode (flip_bit i wire) = Raise e).
Proof.
  intros H.
  assert (I : Frame.__init__ Command.HELLO 0 [] = Ok hello0) by reflexivity.
  assert (E : Frame.encode hello0 = Ok (wire_of hello0))
    by (vm_compute; reflexivity).
  assert (C : carries_digest hello0 51 = true) by (vm_compute; reflexivity).
  assert (D : Frame.decode (flip_bit 414 (wire_of hello0)) = Ok hello0)
    by (vm_compute; reflexivity).
  destruct (H _ _ _ _ _ 414%nat I E C) as [e He].
  rewrite D in He. discriminate He.
Qed.

(** A flip inside the digest's characters can also change the frame
    that is accepted.  The payload of this DUMP_OK frame at nonce 7 ends
    with the digest of the same frame without these 32 bytes.  Byte 61
    of its encoding is the character [5], all of whose bits are bits of
    the digest; inverting its bit 3 makes it the padding character, the
    decoder ends the text there, and [decode] returns the shorter
    frame. *)
Example one_bit_accepts_a_shorter_frame :
  let inner := response Command.DUMP_OK 7 (list_byte_of_string "ABCDEFG") in
  let f := response Command.DUMP_OK 7 (Frame.payload inner ++ Frame.hash inner) in
  Frame.encode f = Ok (wire_of f) /\
  carries_digest f 61 = true /\
  nth 61 (wire_of f) x00 = "5"%byte /\
  nth 61 (flip_bit (8 * 61 + 3) (wire_of f)) x00 = "="%byte /\
  Frame.decode (flip_bit (8 * 61 + 3) (wire_of f)) = Ok inner /\
  Frame.payload inner <> Frame.payload f.
Proof. vm_compute. repeat split. discriminate. Qed.

(** A replayed request is refused and ends the connection. *)
Example replay_is_rejected :
  let '(final, outs, closed) :=
    _handle_client MiniTelServer.__init__
                   [(1, wire_of hello0); (2, wire_of hello0)] fresh in
  (List.length outs, closed, final)
  = (1%nat, Some (Protocol InvalidNonceSequence),
     ConnectionState.mk 2 3 (Some Command.HELLO) 0 0 1).
Proof. vm_compute. reflexivity. Qed.

End Runs.

(* ################################################################# *)
(** * Further properties of the codec *)

Section CodecExtras.
Import Struct.

Lemma from_bytes_big_step (b : bytes) :
  forall acc : Z,
    fold_left (fun a x => a * 256 + Z_of_byte x) b acc
    = acc * 256 ^ len b + from_bytes_big b.
Proof.
  unfold from_bytes_big.
  induction b as [|x b IH]; intros acc.
  - cbn. lia.
  - cbn [fold_left]. rewrite IH, (IH (0 * 256 + Z_of_byte x)).
    replace (len (x :: b)) with (len b + 1)
      by (unfold len; cbn [List.length]; lia).
    rewrite Z.pow_add_r by (try apply len_nonneg; lia). lia.
Qed.

Lemma from_bytes_big_nonneg (b : bytes) : 0 <= from_bytes_big b.
Proof.
  unfold from_bytes_big.
  assert (H : forall acc, 0 <= acc ->
            0 <= fold_left (fun a x => a * 256 + Z_of_byte x) b acc).
  { induction b as [|x b IH]; intros acc Hacc; cbn [fold_left]; [exact Hacc|].
    apply IH. pose proof (Z_of_byte_range x). lia. }
  apply H. lia.
Qed.

Lemma slice_app_l {A : Type} (x y : list A) (lo hi : Z) :
  0 <= lo <= hi -> hi <= len x ->
  slice (x ++ y) lo hi = slice x lo hi.
Proof.
  intros H1 H2.
  rewrite !slice_inside
    by (try rewrite len_app; try assumption; pose proof (len_nonneg y); lia).
  assert (Hlo : (Z.to_nat lo <= List.length x)%nat) by (unfold len in H2; lia).
  rewrite skipn_app.
  replace (Z.to_nat lo - List.length x)%nat with 0%nat by lia.
  cbn [skipn]. rewrite firstn_app.
  replace (Z.to_nat (hi - lo) - List.length (skipn (Z.to_nat lo) x))%nat
    with 0%nat by (rewrite length_skipn; unfold len in H2; lia).
  cbn [firstn]. apply app_nil_r.
Qed.

(** X1.  [decode] reads the length prefix and that many bytes after it:
    whatever follows them in the buffer does not change its result. *)
Theorem X1_decode_ignores_trailing_bytes (data extra : bytes) (length : Z) :
  2 <= len data ->
  unpack_H (slice data 0 2) = Ok length ->
  2 + length <= len data ->
  Frame.decode (data ++ extra) = Frame.decode data.
Proof.
  intros H2 Hu Hl.
  assert (H0 : 0 <= length).
  { unfold unpack_H, unpack_sized in Hu.
    destruct (Nat.eqb _ _); [|discriminate].
    injection Hu as <-. apply from_bytes_big_nonneg. }
  unfold Frame.decode.
  rewrite len_app. pose proof (len_nonneg extra) as He.
  destruct (len data + len extra <? 2) eqn:E1; [apply Z.ltb_lt in E1; lia|].
  destruct (len data <? 2) eqn:E2; [apply Z.ltb_lt in E2; lia|].
  rewrite (slice_app_l data extra 0 2) by lia.
  rewrite Hu. cbn [bind].
  destruct (len data + len extra <? 2 + length) eqn:E3;
    [apply Z.ltb_lt in E3; lia|].
  destruct (len data <? 2 + length) eqn:E4; [apply Z.ltb_lt in E4; lia|].
  rewrite (slice_app_l data extra 2 (2 + length)) by lia.
  reflexivity.
Qed.

Lemma X1_decode_ignores_trailing_bytes_witness :
  Frame.decode (wire_of hello0 ++ wire_of dump2) = Frame.decode (wire_of hello0).
Proof.
  apply (X1_decode_ignores_trailing_bytes (wire_of hello0) (wire_of dump2) 52).
  - vm_compute. discriminate.
  - vm_compute. reflexivity.
  - vm_compute. discriminate.
Defined.

(** The wire bytes of a frame: two bytes of length, then the text. *)
Lemma encode_inv (cmd nonce : Z) (payload : bytes) (f : Frame.t) (wire : bytes) :
  Frame.__init__ cmd nonce payload = Ok f ->
  Frame.encode f = Ok wire ->
  len (b64_data f) <= 65535 /\
  wire = [byte_of_Z (len (b64_data f) / 2 ^ 8); byte_of_Z (len (b64_data f))]
           ++ b64_data f.
Proof.
  intros Hf Henc. apply init_inv in Hf. destruct Hf as [Hc [Hn ->]].
  rewrite encode_spec in Henc by assumption.
  destruct (65535 <? _) eqn:E in Henc; [discriminate|].
  apply Z.ltb_ge in E. injection Henc as <-. auto.
Qed.

(** X2.  A proper prefix of the wire bytes of a frame never decodes:
    with fewer than two bytes [decode] raises "Frame too short for
    length prefix", otherwise "Incomplete frame" with the length of the
    text expected and the number of bytes present after the prefix. *)
Theorem X2_truncated_frame_rejected
        (cmd nonce : Z) (payload : bytes) (f : Frame.t) (wire : bytes) (n : nat) :
  Frame.__init__ cmd nonce payload = Ok f ->
  Frame.encode f = Ok wire ->
  (n < List.length wire)%nat ->
  Frame.decode (firstn n wire) =
  if Nat.ltb n 2 then Raise (Protocol FrameTooShortForLengthPrefix)
  else Raise (Protocol (IncompleteFrame (len wire - 2) (Z.of_nat n - 2))).
Proof.
  intros Hf Henc Hn.
  destruct (encode_inv cmd nonce payload f wire Hf Henc) as [HL ->].
  set (L := len (b64_data f)) in *.
  set (prefix := [byte_of_Z (L / 2 ^ 8); byte_of_Z L]) in *.
  assert (Hw : len (prefix ++ b64_data f) = 2 + L)
    by (rewrite len_app; reflexivity).
  assert (HL0 : 0 <= L) by apply len_nonneg.
  rewrite Hw. replace (2 + L - 2) with L by lia.
  assert (Hlen : len (firstn n (prefix ++ b64_data f)) = Z.of_nat n).
  { unfold len. rewrite length_firstn. lia. }
  unfold Frame.decode. rewrite Hlen.
  destruct (Nat.ltb n 2) eqn:E.
  - apply Nat.ltb_lt in E.
    destruct (Z.of_nat n <? 2) eqn:E1; [reflexivity | apply Z.ltb_ge in E1; lia].
  - apply Nat.ltb_ge in E.
    destruct (Z.of_nat n <? 2) eqn:E1; [apply Z.ltb_lt in E1; lia|].
    assert (Hfirst : firstn n (prefix ++ b64_data f)
                     = prefix ++ firstn (n - 2) (b64_data f)).
    { rewrite firstn_app. change (List.length prefix) with 2%nat.
      rewrite firstn_all2 by (cbn; lia). reflexivity. }
    rewrite Hfirst.
    rewrite (slice_prefix prefix (firstn (n - 2) (b64_data f))
             : slice (prefix ++ firstn (n - 2) (b64_data f)) 0 2 = prefix).
    assert (Hp : from_bytes_big prefix = L)
      by (apply from_bytes_big_2; change (2 ^ 16) with 65536; lia).
    unfold unpack_H, unpack_sized.
    change (Nat.eqb (List.length prefix) 2) with true. cbn [bind].
    rewrite !Hp.
    assert (Hn' : Z.of_nat n < 2 + L) by (unfold len in Hw; lia).
    destruct (Z.of_nat n <? 2 + L) eqn:E2; [reflexivity|].
    apply Z.ltb_ge in E2. lia.
Qed.

Lemma X2_truncated_frame_rejected_witness :
  Frame.decode (firstn 53 (wire_of hello0))
  = Raise (Protocol (IncompleteFrame 52 51)).
Proof.
  assert (E : Frame.encode hello0 = Ok (wire_of hello0))
    by (vm_compute; reflexivity).
  assert (L : (53 < List.length (wire_of hello0))%nat) by (vm_compute; lia).
  pose proof (X2_truncated_frame_rejected
                Command.HELLO 0 [] hello0 (wire_of hello0) 53 eq_refl E L) as H.
  assert (W : len (wire_of hello0) - 2 = 52) by (vm_compute; reflexivity).
  rewrite W in H. exact H.
Defined.

End CodecExtras.

Section CanonicalText.
Import Struct Base64.

Lemma len_cons {A : Type} (x : A) (l : list A) : len (x :: l) = len l + 1.
Proof. unfold len. cbn [List.length]. lia. Qed.

(** The decoder never gives more bytes than the text could encode: the
    text that encodes its output is not longer than what it read. *)
Lemma a2b_base64_canonical (ascii : bytes) :
  forall (q : nat) (l : Z) (p : nat) (out : bytes),
    (q <= 3)%nat ->
    a2b_base64 ascii q l p = Some out ->
    4 * ((len out + Z.of_nat (q - 1) + 2) / 3)
    <= len ascii + Z.of_nat q + (if Nat.leb 2 q then Z.of_nat p else 0).
Proof.
  induction ascii as [|ch rest IH]; intros q l p out Hq H.
  - cbn [a2b_base64] in H. destruct q; [|discriminate].
    injection H as <-. change (len (@nil byte)) with 0. cbn [Nat.sub Nat.leb Z.of_nat]. change ((0 + 0 + 2) / 3) with 0. lia.
  - rewrite len_cons. pose proof (len_nonneg rest) as Hrest.
    cbn [a2b_base64] in H.
    destruct (Byte.eqb ch PAD).
    + destruct (Nat.leb 2 q) eqn:E2.
      * apply Nat.leb_le in E2.
        destruct (Nat.leb 4 (q + S p)) eqn:E4.
        -- apply Nat.leb_le in E4. injection H as <-.
           change (len (@nil byte)) with 0.
           assert (Z.of_nat (q - 1) <= 2) by lia.
           assert (4 * ((0 + Z.of_nat (q - 1) + 2) / 3) <= 4)
             by (Z.div_mod_to_equations; lia).
           lia.
        -- apply IH in H; [|assumption].
           apply Nat.leb_le in E2 as E2'.
           assert (E : Nat.leb 2 q = true) by (apply Nat.leb_le; lia).
           rewrite E in H. lia.
      * apply IH in H; [|assumption]. rewrite E2 in H. lia.
    + destruct (a2b ch) as [v|].
      * destruct q as [|[|[|[|q]]]]; [| | | |lia].
        -- apply IH in H; [|lia]. cbn [Nat.sub Nat.leb Z.of_nat Pos.of_succ_nat Pos.succ] in H |- *. lia.
        -- destruct (a2b_base64 rest 2 _ 0) as [out'|] eqn:E; [|discriminate].
           cbn [option_map] in H. injection H as <-.
           apply IH in E; [|lia]. rewrite len_cons. cbn [Nat.sub Nat.leb Z.of_nat Pos.of_succ_nat Pos.succ] in E |- *.
           replace (len out' + 1 + 0 + 2) with (len out' + 1 + 2) by lia.
           lia.
        -- destruct (a2b_base64 rest 3 _ 0) as [out'|] eqn:E; [|discriminate].
           cbn [option_map] in H. injection H as <-.
           apply IH in E; [|lia]. rewrite len_cons. cbn [Nat.sub Nat.leb Z.of_nat Pos.of_succ_nat Pos.succ] in E |- *.
           replace (len out' + 1 + 1 + 2) with (len out' + 2 + 2) by lia.
           lia.
        -- destruct (a2b_base64 rest 0 0 0) as [out'|] eqn:E; [|discriminate].
           cbn [option_map] in H. injection H as <-.
           apply IH in E; [|lia]. rewrite len_cons. cbn [Nat.sub Nat.leb Z.of_nat Pos.of_succ_nat Pos.succ] in E |- *.
           replace (len out' + 1 + 2 + 2) with ((len out' + 0 + 2) + 1 * 3) by lia.
           rewrite Z.div_add by lia. lia.
      * apply IH in H; [|assumption].
        destruct (Nat.leb 2 q); lia.
Qed.

Lemma b64decode_canonical (text out : bytes) :
  b64decode text = Some out -> len (b64encode out) <= len text.
Proof.
  intros H. apply a2b_base64_canonical in H; [|lia].
  rewrite b64encode_length.
  cbn [Nat.sub Nat.leb Z.of_nat] in H. rewrite !Z.add_0_r in H. lia.
Qed.

End CanonicalText.

Section DecodedFrames.
Import Struct.

Lemma from_bytes_big_bound (b : bytes) : from_bytes_big b < 256 ^ len b.
Proof.
  induction b as [|x b IH] using rev_ind.
  - cbn. lia.
  - unfold from_bytes_big in *. rewrite fold_left_app. cbn [fold_left].
    rewrite len_app. change (len [x]) with 1.
    rewrite Z.pow_add_r by (try apply len_nonneg; lia).
    pose proof (Z_of_byte_range x). lia.
Qed.

Lemma slice_len_inside {A : Type} (l : list A) (lo hi : Z) :
  0 <= lo <= hi -> hi <= len l -> len (slice l lo hi) = hi - lo.
Proof.
  intros H1 H2. rewrite slice_inside by assumption.
  unfold len in *. rewrite length_firstn, length_skipn. lia.
Qed.

Lemma slice_len_before_suffix {A : Type} (l : list A) (lo hi : Z) :
  0 <= lo -> hi < 0 -> lo <= len l + hi ->
  len (slice l lo hi) = len l + hi - lo.
Proof.
  intros H1 H2 H3. unfold slice, norm_index.
  destruct (lo <? 0) eqn:E1; [apply Z.ltb_lt in E1; lia|].
  destruct (hi <? 0) eqn:E2; [|apply Z.ltb_ge in E2; lia].
  unfold len in *. rewrite length_firstn, length_skipn. lia.
Qed.

(** What a successful [decode] went through. *)
Lemma decode_inv (data : bytes) (f : Frame.t) :
  Frame.decode data = Ok f ->
  exists (length : Z) (binary : bytes),
    2 <= len data /\
    unpack_H (slice data 0 2) = Ok length /\
    0 <= length <= 65535 /\
    2 + length <= len data /\
    Base64.b64decode (slice data 2 (2 + length)) = Some binary /\
    37 <= len binary /\
    constructed f /\
    Frame.payload f = slice binary 5 (-32) /\
    Frame.hash f = slice_from binary (-32).
Proof.
  unfold Frame.decode.
  destruct (len data <? 2) eqn:E1; [discriminate|]. apply Z.ltb_ge in E1.
  destruct (unpack_H _) as [length|] eqn:Eu; cbn [bind]; [|discriminate].
  destruct (len data <? 2 + length) eqn:E2; [discriminate|].
  apply Z.ltb_ge in E2.
  destruct (Base64.b64decode _) as [binary|] eqn:Eb; [|discriminate].
  destruct (len binary <? 37) eqn:E3; [discriminate|]. apply Z.ltb_ge in E3.
  destruct (unpack_B _) as [c|]; cbn [bind]; [|discriminate].
  destruct (unpack_I _) as [n|]; cbn [bind]; [|discriminate].
  destruct (Frame.__init__ c n _) as [frame|] eqn:E; cbn [bind]; [|discriminate].
  destruct (bytes_eqb _ _) eqn:Eh; [|discriminate].
  intros H. injection H as <-.
  exists length, binary.
  assert (Hlen : 0 <= length <= 65535).
  { unfold unpack_H, unpack_sized in Eu.
    destruct (Nat.eqb _ 2) eqn:E2'; [|discriminate].
    apply Nat.eqb_eq in E2'. injection Eu as <-.
    pose proof (from_bytes_big_nonneg (slice data 0 2)).
    pose proof (from_bytes_big_bound (slice data 0 2)) as B.
    unfold len in B. rewrite E2' in B. change (256 ^ Z.of_nat 2) with 65536 in B.
    lia. }
  repeat split; try assumption; try lia.
  - exists c, n, (slice binary 5 (-32)). exact E.
  - apply init_inv in E. destruct E as [_ [_ ->]]. reflexivity.
  - apply bytes_eqb_eq in Eh. exact Eh.
Qed.

Lemma decoded_frame_encodes (data : bytes) (f : Frame.t) :
  Frame.decode data = Ok f ->
  exists wire : bytes,
    Frame.encode f = Ok wire /\
    len wire <= len data /\
    Frame.decode wire = Ok f.
Proof.
  intros H. apply decode_inv in H.
  destruct H as [length [binary [H2 [Hu [Hl [Hd [Hb [H37 [Hc [Hp Hh]]]]]]]]]].
  destruct Hc as [c [n [p Hf]]].
  pose proof (init_inv c n p f Hf) as [Hcr [Hnr Ef]].
  assert (Htext : len (slice data 2 (2 + length)) = length).
  { rewrite slice_len_inside by lia. lia. }
  pose proof (b64decode_canonical _ _ Hb) as Hcan. rewrite Htext in Hcan.
  assert (Hsame : len (b64_data f) = len (Base64.b64encode binary)).
  { apply b64encode_length_eq.
    assert (E : len (binary_frame f) = len binary).
    { rewrite binary_frame_len, Hp.
      rewrite slice_len_before_suffix by lia.
      rewrite Ef. cbn [Frame.hash]. rewrite sha256_len. lia. }
    unfold len in E. lia. }
  assert (Hr : 0 <= Frame.cmd f < 256 /\ 0 <= Frame.nonce f < 2 ^ 32)
    by (rewrite Ef; cbn; auto).
  destruct Hr as [Hr1 Hr2].
  pose proof (encode_spec f Hr1 Hr2) as Henc.
  destruct (65535 <? len (b64_data f)) eqn:E; [apply Z.ltb_lt in E; lia|].
  eexists. split; [exact Henc|]. split.
  - rewrite len_app. change (len [_; _]) with 2. lia.
  - exact (decode_encode c n p f _ Hf Henc).
Qed.

(** X3.  A frame that [decode] returns carries the digest of its own
    fields, and it can be sent on: [encode] accepts it, the encoding is
    not longer than the bytes it was decoded from, and decoding the
    encoding gives the same frame. *)
Theorem X3_decoded_frame_reencodes (data : bytes) (f : Frame.t) :
  Frame.decode data = Ok f ->
  Frame._calculate_hash (Frame.cmd f) (Frame.nonce f) (Frame.payload f)
    = Ok (Frame.hash f) /\
  exists wire : bytes,
    Frame.encode f = Ok wire /\
    len wire <= len data /\
    Frame.decode wire = Ok f.
Proof.
  intros H. split; [|exact (decoded_frame_encodes data f H)].
  apply decode_inv in H.
  destruct H as [length [binary [_ [_ [_ [_ [_ [_ [Hc _]]]]]]]]].
  destruct Hc as [c [n [p Hf]]].
  pose proof (init_inv c n p f Hf) as [Hcr [Hnr Ef]].
  rewrite Ef. cbn [Frame.cmd Frame.nonce Frame.payload Frame.hash].
  unfold Frame._calculate_hash, pack_B, pack_I.
  rewrite (fits_true 8 c), (fits_true 32 n) by assumption. reflexivity.
Qed.

Lemma X3_decoded_frame_reencodes_witness :
  exists wire : bytes,
    Frame.encode hello0 = Ok wire /\
    len wire <= len (flip_bit (8 * 51 + 6) (wire_of hello0) ++ wire_of dump2) /\
    Frame.decode wire = Ok hello0.
Proof.
  assert (D : Frame.decode (flip_bit (8 * 51 + 6) (wire_of hello0)
                              ++ wire_of dump2) = Ok hello0)
    by (vm_compute; reflexivity).
  destruct (X3_decoded_frame_reencodes _ hello0 D) as [_ H]. exact H.
Defined.

(** X4.  Two frame objects with the same encoding are the same frame. *)
Theorem X4_encode_injective (f g : Frame.t) (wire : bytes) :
  constructed f -> constructed g ->
  Frame.encode f = Ok wire -> Frame.encode g = Ok wire ->
  f = g.
Proof.
  intros [c1 [n1 [p1 Hf]]] [c2 [n2 [p2 Hg]]] Ef Eg.
  pose proof (decode_encode c1 n1 p1 f wire Hf Ef) as D1.
  pose proof (decode_encode c2 n2 p2 g wire Hg Eg) as D2.
  congruence.
Qed.

Lemma X4_encode_injective_witness : hello0 = hello0.
Proof.
  assert (C : constructed hello0) by (exists Command.HELLO, 0, []; reflexivity).
  assert (E : Frame.encode hello0 = Ok (wire_of hello0))
    by (vm_compute; reflexivity).
  exact (X4_encode_injective hello0 hello0 (wire_of hello0) C C E E).
Defined.

(** X5.  [encode] accepts a frame exactly when its payload has at most
    49112 bytes, and the encoding of a payload of [n] bytes has
    [2 + 4 * ceil((37 + n) / 3)] bytes. *)
Theorem X5_encoded_size (cmd nonce : Z) (payload : bytes) (f : Frame.t) :
  Frame.__init__ cmd nonce payload = Ok f ->
  ((exists wire, Frame.encode f = Ok wire) <-> len payload <= 49112) /\
  (forall wire, Frame.encode f = Ok wire ->
     len wire = 2 + 4 * ((len payload + 39) / 3)).
Proof.
  intros Hf.
  pose proof (encode_limit_payload cmd nonce payload f Hf) as Hlim.
  pose proof (init_inv cmd nonce payload f Hf) as [Hc [Hn Ef]].
  assert (Hr : 0 <= Frame.cmd f < 256 /\ 0 <= Frame.nonce f < 2 ^ 32)
    by (rewrite Ef; cbn; auto).
  destruct Hr as [Hr1 Hr2].
  pose proof (encode_spec f Hr1 Hr2) as Henc.
  assert (Hsize : len (b64_data f) = 4 * ((len payload + 39) / 3)).
  { unfold b64_data. rewrite b64encode_length, binary_frame_len.
    rewrite Ef. cbn [Frame.payload Frame.hash]. rewrite sha256_len.
    f_equal. f_equal. lia. }
  split; [split|].
  - intros [wire Hw]. rewrite Hw in Henc.
    destruct (65535 <? len (b64_data f)) eqn:E; [discriminate|].
    apply Z.ltb_ge in E. lia.
  - intros Hp.
    destruct (65535 <? len (b64_data f)) eqn:E; [apply Z.ltb_lt in E; lia|].
    eexists. exact Henc.
  - intros wire Hw. rewrite Hw in Henc.
    destruct (65535 <? len (b64_data f)) eqn:E; [discriminate|].
    injection Henc as ->. rewrite !len_cons, Hsize. lia.
Qed.

Lemma X5_encoded_size_witness : len (wire_of hello0) = 54.
Proof.
  assert (E : Frame.encode hello0 = Ok (wire_of hello0))
    by (vm_compute; reflexivity).
  destruct (X5_encoded_size Command.HELLO 0 [] hello0 eq_refl) as [_ H].
  exact (H (wire_of hello0) E).
Defined.

(** X6.  A length prefix followed by the base64 text of fewer than 37
    bytes is rejected with "Binary frame too short", whatever the bytes
    are. *)
Theorem X6_short_binary_rejected (binary : bytes) :
  len binary < 37 ->
  let text := Base64.b64encode binary in
  Frame.decode ([byte_of_Z (len text / 2 ^ 8); byte_of_Z (len text)] ++ text)
  = Raise (Protocol BinaryFrameTooShort).
Proof.
  intros Hb text.
  assert (HL : 0 <= len text <= 52).
  { unfold text. rewrite b64encode_length. pose proof (len_nonneg binary).
    Z.div_mod_to_equations. lia. }
  set (L := len text) in *.
  set (prefix := [byte_of_Z (L / 2 ^ 8); byte_of_Z L]).
  assert (Hdata : len (prefix ++ text) = 2 + L)
    by (rewrite len_app; reflexivity).
  unfold Frame.decode. rewrite Hdata.
  destruct (2 + L <? 2) eqn:E1; [apply Z.ltb_lt in E1; lia|].
  rewrite (slice_prefix prefix text : slice (prefix ++ text) 0 2 = prefix).
  assert (Hp : from_bytes_big prefix = L)
    by (apply from_bytes_big_2; change (2 ^ 16) with 65536; lia).
  unfold unpack_H, unpack_sized.
  change (Nat.eqb (List.length prefix) 2) with true. cbn [bind].
  rewrite !Hp, Z.ltb_irrefl.
  assert (S2 : slice (prefix ++ text) 2 (2 + L) = text).
  { pose proof (slice_middle prefix text []) as S.
    rewrite app_nil_r in S. exact S. }
  rewrite S2. unfold text. rewrite b64decode_b64encode.
  destruct (len binary <? 37) eqn:E2; [reflexivity|].
  apply Z.ltb_ge in E2. lia.
Qed.

Lemma X6_short_binary_rejected_witness :
  Frame.decode [x00; x00] = Raise (Protocol BinaryFrameTooShort).
Proof.
  apply (X6_short_binary_rejected []). reflexivity.
Defined.

End DecodedFrames.

(* ################################################################# *)
(** * Further properties of the server *)

Section ServerExtras.
Import ConnectionState MiniTelServer.

Ltac run_process :=
  unfold _process_command, StateExn.bindM, StateExn.get, StateExn.modify,
    StateExn.raise, StateExn.lift, StateExn.ret;
  cbn [expected_client_nonce server_nonce last_command dump_count
       connected_at last_activity set_last_command set_dump_count
       set_expected_client_nonce set_server_nonce].

(** What a call does to the fields other than the nonces, and what it
    returns: a response is a frame object, and the clock fields are not
    touched. *)
Lemma process_fields (self : MiniTelServer.t) (f : Frame.t)
      (s s' : ConnectionState.t) (r : result Frame.t) :
  _process_command self f s = (s', r) ->
  connected_at s' = connected_at s /\
  last_activity s' = last_activity s /\
  (last_command s' = last_command s \/ last_command s' = Some Command.HELLO) /\
  (dump_count s' = 0 \/
   (last_command s' = last_command s /\
    (dump_count s' = dump_count s \/
     (dump_count s' = dump_count s + 1 /\
      last_command s = Some Command.HELLO)))) /\
  (forall resp, r = Ok resp -> constructed resp).
Proof.
  run_process.
  destruct (Frame.nonce f =? expected_client_nonce s); cbn [negb].
  2:{ intros H. injection H as <- <-. repeat split; auto. discriminate. }
  destruct (Frame.cmd f =? Command.HELLO).
  { destruct (Frame.__init__ Command.HELLO_ACK (server_nonce s) []) as [resp|e] eqn:E;
      intros H; injection H as <- <-; cbn; repeat split; auto;
        try discriminate.
    intros resp' H. injection H as <-. eexists _, _, _. exact E. }
  destruct (Frame.cmd f =? Command.DUMP).
  { cbn beta.
    destruct (option_Z_eqb (last_command s) (Some Command.HELLO)) eqn:El;
      cbn [negb]; cbn beta.
    2:{ intros H. injection H as <- <-. repeat split; auto. discriminate. }
    assert (Hl : last_command s = Some Command.HELLO).
    { destruct (last_command s) as [c|]; cbn in El; [|discriminate].
      destruct c as [|c|c]; try discriminate.
      apply Pos.eqb_eq in El. subst c. reflexivity. }
    destruct (dump_count s + 1 =? 1).
    - destruct (Frame.__init__ Command.DUMP_FAILED (server_nonce s) []) as [resp|e] eqn:E;
        intros H; injection H as <- <-; cbn; repeat split; auto;
          try discriminate.
      intros resp' H. injection H as <-. eexists _, _, _. exact E.
    - destruct (Frame.__init__ Command.DUMP_OK (server_nonce s) _) as [resp|e] eqn:E;
        intros H; injection H as <- <-; cbn; repeat split; auto;
          try discriminate.
      intros resp' H. injection H as <-. eexists _, _, _. exact E. }
  destruct (Frame.cmd f =? Command.STOP_CMD).
  { destruct (Frame.__init__ Command.STOP_OK (server_nonce s) []) as [resp|e] eqn:E;
      intros H; injection H as <- <-; cbn; repeat split; auto;
        try discriminate.
    intros resp' H. injection H as <-. eexists _, _, _. exact E. }
  intros H. injection H as <- <-. repeat split; auto. discriminate.
Qed.

(** X7.  On every connection the expected client nonce is even and not
    negative, the server nonce is the number after it, the DUMP counter
    is not negative, the last command is unset or HELLO, and the counter
    is zero as long as no HELLO was processed. *)
Theorem X7_connection_invariant (self : MiniTelServer.t) (s : ConnectionState.t) :
  reachable self s ->
  0 <= expected_client_nonce s /\
  Z.even (expected_client_nonce s) = true /\
  server_nonce s = expected_client_nonce s + 1 /\
  0 <= dump_count s /\
  (last_command s = None \/ last_command s = Some Command.HELLO) /\
  (last_command s = None -> dump_count s = 0).
Proof.
  intros Hr.
  pose proof (reachable_nonces self s Hr) as [k [Hk [He Hs]]].
  split; [lia|]. split; [rewrite He; apply Z.even_mul; reflexivity|].
  split; [lia|]. clear k Hk He Hs.
  induction Hr as [now later | s s' f r Hr IH Hstep | s now Hr IH].
  - cbn. repeat split; auto. lia.
  - destruct IH as [Hd [Hl Hz]].
    apply process_fields in Hstep.
    destruct Hstep as [_ [_ [Hlc [Hdc _]]]].
    split; [|split].
    + destruct Hdc as [->|[_ [->|[-> _]]]]; lia.
    + destruct Hlc as [->| ->]; auto.
    + intros Hn. destruct Hdc as [Hd0|[Hsame [Hd1|[_ Hh]]]]; [exact Hd0| |].
      * rewrite Hd1. apply Hz. congruence.
      * congruence.
  - destruct IH as [Hd [Hl Hz]]. cbn. auto.
Qed.

Lemma X7_connection_invariant_witness :
  0 <= expected_client_nonce fresh /\
  Z.even (expected_client_nonce fresh) = true /\
  server_nonce fresh = expected_client_nonce fresh + 1 /\
  0 <= dump_count fresh /\
  (last_command fresh = None \/ last_command fresh = Some Command.HELLO) /\
  (last_command fresh = None -> dump_count fresh = 0).
Proof.
  exact (X7_connection_invariant MiniTelServer.__init__ fresh (reach_new _ 0 0)).
Defined.

(** X8.  A request that was answered is refused when it is received
    again: in the state the answer left, the same frame raises "Invalid
    nonce sequence" and changes nothing. *)
Theorem X8_replayed_request_rejected
        (self : MiniTelServer.t) (f r : Frame.t) (s s' : ConnectionState.t) :
  _process_command self f s = (s', Ok r) ->
  _process_command self f s' = (s', Raise (Protocol InvalidNonceSequence)).
Proof.
  intros H. apply process_nonces in H. destruct H as [Hn [He _]].
  apply process_bad_nonce. lia.
Qed.

Lemma X8_replayed_request_rejected_witness :
  _process_command MiniTelServer.__init__ hello0
                   (ConnectionState.mk 2 3 (Some Command.HELLO) 0 0 0)
  = (ConnectionState.mk 2 3 (Some Command.HELLO) 0 0 0,
     Raise (Protocol InvalidNonceSequence)).
Proof.
  apply (X8_replayed_request_rejected
           MiniTelServer.__init__ hello0 (response Command.HELLO_ACK 1 []) fresh).
  vm_compute. reflexivity.
Defined.

(** X9.  Client and server counters stay in step: when the client's
    counter is the nonce the server expects and the server answers the
    client's frame, [update_nonce] accepts the nonce of the answer and
    leaves the client's counter at the nonce the server expects next. *)
Theorem X9_sequencers_stay_in_step
        (self : MiniTelServer.t) (s s' : ConnectionState.t)
        (p : MiniTelProtocol.t) (f r : Frame.t) :
  reachable self s ->
  MiniTelProtocol.nonce p = expected_client_nonce s ->
  Frame.nonce f = MiniTelProtocol.nonce p ->
  _process_command self f s = (s', Ok r) ->
  exists p',
    MiniTelProtocol.update_nonce p (Frame.nonce r) = (p', Ok tt) /\
    MiniTelProtocol.nonce p' = expected_client_nonce s'.
Proof.
  intros Hr Hp Hf H.
  apply reachable_nonces in Hr. destruct Hr as [k [Hk [He Hs]]].
  apply process_nonces in H. destruct H as [Hn [He' [Hs' Hrn]]].
  exists (MiniTelProtocol.mk (Frame.nonce r + 1)).
  unfold MiniTelProtocol.update_nonce.
  replace (Frame.nonce r =? MiniTelProtocol.nonce p + 1) with true
    by (symmetry; apply Z.eqb_eq; lia).
  split; [reflexivity|]. cbn. lia.
Qed.

Lemma X9_sequencers_stay_in_step_witness :
  exists p',
    MiniTelProtocol.update_nonce MiniTelProtocol.__init__ 1 = (p', Ok tt) /\
    MiniTelProtocol.nonce p' = 2.
Proof.
  apply (X9_sequencers_stay_in_step
           MiniTelServer.__init__ fresh
           (ConnectionState.mk 2 3 (Some Command.HELLO) 0 0 0)
           MiniTelProtocol.__init__ hello0 (response Command.HELLO_ACK 1 [])).
  - exact (reach_new _ 0 0).
  - reflexivity.
  - reflexivity.
  - vm_compute. reflexivity.
Defined.

End ServerExtras.

Section HandlerExtras.
Import ConnectionState MiniTelServer.

(** The three ways a pass of the reading loop ends. *)
Lemma handle_frame_cases (self : MiniTelServer.t) (now : timestamp)
      (data : bytes) (s s' : ConnectionState.t) (res : result bytes) :
  handle_frame self now data s = (s', res) ->
  (exists e, Frame.decode data = Raise e /\ s' = s /\ res = Raise e) \/
  (exists f e, Frame.decode data = Ok f /\
               _process_command self f s = (s', Raise e) /\ res = Raise e) \/
  (exists f r, Frame.decode data = Ok f /\
               _process_command self f s = (s', Ok r) /\
               exists e, Frame.encode r = Raise e /\ res = Raise e) \/
  (exists f r s1 out, Frame.decode data = Ok f /\
                      _process_command self f s = (s1, Ok r) /\
                      Frame.encode r = Ok out /\
                      s' = update_activity now s1 /\ res = Ok out).
Proof.
  destruct (Frame.decode data) as [f|e] eqn:D.
  - rewrite (handle_frame_decoded self now data f s D).
    destruct (_process_command self f s) as [s1 [r|e]] eqn:P.
    + destruct (Frame.encode r) as [out|e] eqn:E; intros H; injection H as <- <-.
      * right. right. right. exists f, r, s1, out. auto.
      * right. right. left. exists f, r. repeat split; auto. exists e. auto.
    + intros H. injection H as <- <-. right. left. exists f, e. auto.
  - unfold handle_frame, StateExn.bindM, StateExn.lift. rewrite D.
    intros H. injection H as <- <-. left. exists e. auto.
Qed.

(** X10.  A pass of the reading loop records the activity only when it
    has sent a response: then the last activity is the clock of the
    pass; when the pass raises, at whatever step, the last activity is
    what it was.  The connection's start is never changed. *)
Theorem X10_activity_only_on_response
        (self : MiniTelServer.t) (now : timestamp) (data : bytes)
        (s s' : ConnectionState.t) (res : result bytes) :
  handle_frame self now data s = (s', res) ->
  connected_at s' = connected_at s /\
  last_activity s' = match res with
                     | Ok _ => now
                     | Raise _ => last_activity s
                     end.
Proof.
  intros H. apply handle_frame_cases in H.
  destruct H as [[e [_ [-> ->]]]
                |[[f [e [_ [P ->]]]]
                 |[[f [r [_ [P [e [_ ->]]]]]]
                  |[f [r [s1 [out [_ [P [_ [-> ->]]]]]]]]]]].
  - auto.
  - apply process_fields in P. destruct P as [H1 [H2 _]]. auto.
  - apply process_fields in P. destruct P as [H1 [H2 _]]. auto.
  - apply process_fields in P. destruct P as [H1 [H2 _]]. cbn. auto.
Qed.

Lemma X10_activity_only_on_response_witness :
  connected_at (ConnectionState.mk 2 3 (Some Command.HELLO) 0 0 7)
  = connected_at fresh /\
  last_activity (ConnectionState.mk 2 3 (Some Command.HELLO) 0 0 7) = 7.
Proof.
  exact (X10_activity_only_on_response
           MiniTelServer.__init__ 7 (wire_of hello0) fresh
           (ConnectionState.mk 2 3 (Some Command.HELLO) 0 0 7)
           (Ok (wire_of (response Command.HELLO_ACK 1 [])))
           ltac:(vm_compute; reflexivity)).
Defined.

(** X11.  Whatever the reading loop sends is the encoding of the
    response to the frame it decoded: the bytes sent decode to that
    response, which carries the server nonce of before and the nonce of
    the request plus one. *)
Theorem X11_sent_bytes_decode_to_response
        (self : MiniTelServer.t) (now : timestamp) (data out : bytes)
        (s s' : ConnectionState.t) :
  reachable self s ->
  handle_frame self now data s = (s', Ok out) ->
  exists f r,
    Frame.decode data = Ok f /\
    Frame.decode out = Ok r /\
    Frame.nonce r = server_nonce s /\
    Frame.nonce r = Frame.nonce f + 1 /\
    expected_client_nonce s' = expected_client_nonce s + 2 /\
    server_nonce s' = server_nonce s + 2.
Proof.
  intros Hr H. apply handle_frame_cases in H.
  destruct H as [[e [_ [_ H]]]
                |[[f [e [_ [_ H]]]]
                 |[[f [r [_ [_ [e [_ H]]]]]]
                  |[f [r [s1 [out' [D [P [E [-> H]]]]]]]]]]];
    try discriminate.
  injection H as <-.
  pose proof (process_fields self f s s1 (Ok r) P) as [_ [_ [_ [_ Hc]]]].
  destruct (Hc r eq_refl) as [c [n [pl Hinit]]].
  pose proof (process_nonces self f s s1 (Ok r) P) as [Hn [He [Hs Hrn]]].
  apply reachable_nonces in Hr. destruct Hr as [k [Hk [Hek Hsk]]].
  exists f, r. repeat split; try assumption.
  - exact (decode_encode c n pl r out Hinit E).
  - lia.
Qed.

Lemma X11_sent_bytes_decode_to_response_witness :
  exists f r,
    Frame.decode (wire_of hello0) = Ok f /\
    Frame.decode (wire_of (response Command.HELLO_ACK 1 [])) = Ok r /\
    Frame.nonce r = server_nonce fresh /\
    Frame.nonce r = Frame.nonce f + 1 /\
    expected_client_nonce (ConnectionState.mk 2 3 (Some Command.HELLO) 0 0 9)
      = expected_client_nonce fresh + 2 /\
    server_nonce (ConnectionState.mk 2 3 (Some Command.HELLO) 0 0 9)
      = server_nonce fresh + 2.
Proof.
  apply (X11_sent_bytes_decode_to_response MiniTelServer.__init__ 9).
  - exact (reach_new _ 0 0).
  - vm_compute. reflexivity.
Defined.



(** X13.  STOP_CMD does not end an authenticated session and does not
    count as a DUMP: it is answered with STOP_OK, and the DUMP after it
    is answered as it would have been before, DUMP_FAILED if it is the
    first DUMP since the HELLO and DUMP_OK with the secret otherwise. *)
Theorem X13_stop_keeps_the_session
        (self : MiniTelServer.t) (s : ConnectionState.t) (stop d : Frame.t) :
  reachable self s ->
  last_command s = Some Command.HELLO ->
  constructed stop -> constructed d ->
  Frame.cmd stop = Command.STOP_CMD ->
  Frame.cmd d = Command.DUMP ->
  Frame.nonce stop = expected_client_nonce s ->
  Frame.nonce d = expected_client_nonce s + 2 ->
  session self [stop; d] s =
  (ConnectionState.mk (expected_client_nonce s + 4) (server_nonce s + 4)
                      (Some Command.HELLO) (dump_count s + 1)
                      (connected_at s) (last_activity s),
   [response Command.STOP_OK (server_nonce s) [];
    if dump_count s =? 0
    then response Command.DUMP_FAILED (server_nonce s + 2) []
    else response Command.DUMP_OK (server_nonce s + 2)
                  (str_encode (secret self))],
   None).
Proof.
  intros Hr Hl Hcs Hcd Hs Hd Hns Hnd.
  pose proof (server_nonce_fits self s stop Hr Hcs Hns) as Hfit.
  pose proof (process_stop self stop s Hns Hs Hfit) as P1.
  set (s1 := advanced (last_command s) (dump_count s) s) in *.
  assert (Hr1 : reachable self s1) by exact (reach_command self s s1 stop _ Hr P1).
  assert (Hfit1 : 0 <= server_nonce s1 < 2 ^ 32)
    by (apply (server_nonce_fits self s1 d Hr1 Hcd); exact Hnd).
  cbn [session]. rewrite P1.
  destruct (dump_count s =? 0) eqn:E.
  - apply Z.eqb_eq in E.
    rewrite (process_dump_first self d s1 Hnd Hd Hl E Hfit1).
    unfold s1, advanced. cbn. rewrite E. do 3 f_equal; lia.
  - apply Z.eqb_neq in E.
    rewrite (process_dump_later self d s1 Hnd Hd Hl E Hfit1).
    unfold s1, advanced. cbn. do 3 f_equal; lia.
Qed.

Lemma X13_stop_keeps_the_session_witness :
  session MiniTelServer.__init__
          [response Command.STOP_CMD 2 []; response Command.DUMP 4 []]
          (ConnectionState.mk 2 3 (Some Command.HELLO) 0 0 0) =
  (ConnectionState.mk 6 7 (Some Command.HELLO) 1 0 0,
   [response Command.STOP_OK 3 []; response Command.DUMP_FAILED 5 []],
   None).
Proof.
  apply (X13_stop_keeps_the_session
           MiniTelServer.__init__
           (ConnectionState.mk 2 3 (Some Command.HELLO) 0 0 0)
           (response Command.STOP_CMD 2 []) (response Command.DUMP 4 [])).
  - apply (reach_command _ fresh _ hello0 (Ok (response Command.HELLO_ACK 1 [])));
      [exact (reach_new _ 0 0) | vm_compute; reflexivity].
  - reflexivity.
  - exists Command.STOP_CMD, 2, []. reflexivity.
  - exists Command.DUMP, 4, []. reflexivity.
  - reflexivity.
  - reflexivity.
  - reflexivity.
  - reflexivity.
Defined.

End HandlerExtras.

(* ################################################################# *)
(** * Properties of the client *)

Section ClientExtras.
Import Struct MiniTelClient.

Lemma slice_from_app {A : Type} (x y : list A) :
  slice_from (x ++ y) (len x) = y.
Proof.
  unfold slice_from, norm_index. rewrite len_app.
  pose proof (len_nonneg x). pose proof (len_nonneg y).
  destruct (len x <? 0) eqn:E; [apply Z.ltb_lt in E; lia|].
  rewrite Z.min_r, Z.max_r by lia.
  unfold len. rewrite Nat2Z.id, skipn_app, Nat.sub_diag, skipn_all.
  reflexivity.
Qed.

Lemma receive_exact_ok (self : t) (x y : bytes) :
  incoming self = x ++ y ->
  _receive_exact self (len x)
  = (mk (protocol self) (connected self) (sent self) y, Ok x).
Proof.
  intros H. unfold _receive_exact. rewrite H, len_app.
  pose proof (len_nonneg y).
  destruct (len x + len y <? len x) eqn:E; [apply Z.ltb_lt in E; lia|].
  rewrite slice_from_app, slice_prefix. reflexivity.
Qed.

Lemma receive_exact_closed (self : t) (n : Z) :
  len (incoming self) < n ->
  _receive_exact self n
  = (mk (protocol self) (connected self) (sent self) [],
     Raise (Protocol ConnectionClosedByServer)).
Proof.
  intros H. unfold _receive_exact.
  destruct (len (incoming self) <? n) eqn:E; [reflexivity|].
  apply Z.ltb_ge in E. lia.
Qed.

Lemma receive_frame_framed (self : t) (f : Frame.t) (wire rest : bytes) :
  constructed f ->
  Frame.encode f = Ok wire ->
  incoming self = wire ++ rest ->
  _receive_frame self
  = (mk (protocol self) (connected self) (sent self) rest, Ok f).
Proof.
  intros [c [n [p Hf]]] Henc Hin.
  destruct (encode_inv c n p f wire Hf Henc) as [HL Hw].
  set (L := len (b64_data f)) in *.
  set (prefix := [byte_of_Z (L / 2 ^ 8); byte_of_Z L]) in *.
  assert (HL0 : 0 <= L) by apply len_nonneg.
  assert (Hp : from_bytes_big prefix = L)
    by (apply from_bytes_big_2; change (2 ^ 16) with 65536; lia).
  unfold _receive_frame.
  assert (Hsplit : incoming self = prefix ++ b64_data f ++ rest)
    by (rewrite Hin, Hw, <- app_assoc; reflexivity).
  rewrite (receive_exact_ok self prefix (b64_data f ++ rest) Hsplit
           : _receive_exact self 2 = _).
  rewrite Hp.
  rewrite (receive_exact_ok _ (b64_data f) rest) by reflexivity.
  cbn [protocol connected sent]. rewrite <- Hw.
  rewrite (decode_encode c n p f wire Hf Henc). reflexivity.
Qed.

(** X14.  [_receive_frame] reads exactly one frame: when the bytes
    waiting start with the encoding of a frame, it returns that frame
    and leaves what follows the encoding waiting for the next call. *)
Theorem X14_receive_frame_reads_one_frame
        (self : t) (f : Frame.t) (wire rest : bytes) :
  constructed f ->
  Frame.encode f = Ok wire ->
  incoming self = wire ++ rest ->
  _receive_frame self
  = (mk (protocol self) (connected self) (sent self) rest, Ok f).
Proof. exact (receive_frame_framed self f wire rest). Qed.

Lemma X14_receive_frame_reads_one_frame_witness :
  _receive_frame (mk MiniTelProtocol.__init__ true []
                     (wire_of hello0 ++ wire_of dump2))
  = (mk MiniTelProtocol.__init__ true [] (wire_of dump2), Ok hello0).
Proof.
  apply (X14_receive_frame_reads_one_frame
           (mk MiniTelProtocol.__init__ true [] (wire_of hello0 ++ wire_of dump2))
           hello0 (wire_of hello0) (wire_of dump2)).
  - exists Command.HELLO, 0, []. reflexivity.
  - vm_compute. reflexivity.
  - reflexivity.
Defined.

(** X15.  When the peer closes after a proper prefix of a frame's
    encoding, [_receive_frame] raises "Connection closed by server" and
    nothing is left waiting. *)
Theorem X15_receive_frame_peer_closed
        (self : t) (f : Frame.t) (wire : bytes) (n : nat) :
  constructed f ->
  Frame.encode f = Ok wire ->
  (n < List.length wire)%nat ->
  incoming self = firstn n wire ->
  _receive_frame self
  = (mk (protocol self) (connected self) (sent self) [],
     Raise (Protocol ConnectionClosedByServer)).
Proof.
  intros [c [nn [p Hf]]] Henc Hn Hin.
  destruct (encode_inv c nn p f wire Hf Henc) as [HL Hw].
  set (L := len (b64_data f)) in *.
  set (prefix := [byte_of_Z (L / 2 ^ 8); byte_of_Z L]) in *.
  assert (HL0 : 0 <= L) by apply len_nonneg.
  assert (Hlen : len (incoming self) = Z.of_nat n).
  { rewrite Hin. unfold len. rewrite length_firstn. lia. }
  assert (Hwl : len wire = 2 + L) by (rewrite Hw, len_app; reflexivity).
  unfold _receive_frame.
  destruct (Nat.ltb n 2) eqn:E.
  - apply Nat.ltb_lt in E. rewrite receive_exact_closed by lia. reflexivity.
  - apply Nat.ltb_ge in E.
    assert (Hsplit : incoming self = prefix ++ firstn (n - 2) (b64_data f)).
    { rewrite Hin, Hw, firstn_app. change (List.length prefix) with 2%nat.
      rewrite firstn_all2 by (cbn; lia). reflexivity. }
    rewrite (receive_exact_ok self prefix (firstn (n - 2) (b64_data f)) Hsplit
             : _receive_exact self 2 = _).
    assert (Hp : from_bytes_big prefix = L)
      by (apply from_bytes_big_2; change (2 ^ 16) with 65536; lia).
    rewrite Hp.
    rewrite receive_exact_closed; [reflexivity|].
    cbn [incoming]. unfold len in *. rewrite length_firstn. lia.
Qed.

Lemma X15_receive_frame_peer_closed_witness :
  _receive_frame (mk MiniTelProtocol.__init__ true []
                     (firstn 10 (wire_of hello0)))
  = (mk MiniTelProtocol.__init__ true [] [],
     Raise (Protocol ConnectionClosedByServer)).
Proof.
  apply (X15_receive_frame_peer_closed
           (mk MiniTelProtocol.__init__ true [] (firstn 10 (wire_of hello0)))
           hello0 (wire_of hello0) 10).
  - exists Command.HELLO, 0, []. reflexivity.
  - vm_compute. reflexivity.
  - vm_compute. lia.
  - reflexivity.
Defined.

End ClientExtras.

Section DriverExtras.
Import Struct MiniTelClient.

Lemma encode_wire_of (f : Frame.t) (w : bytes) :
  Frame.encode f = Ok w -> wire_of f = w.
Proof. intros H. unfold wire_of. rewrite H. reflexivity. Qed.

(** A frame with fields in range and a payload of at most 49112 bytes
    has an encoding. *)
Lemma encode_response (cmd nonce : Z) (payload : bytes) :
  0 <= cmd < 256 -> 0 <= nonce < 2 ^ 32 -> len payload <= 49112 ->
  Frame.encode (response cmd nonce payload)
  = Ok (wire_of (response cmd nonce payload)).
Proof.
  intros Hc Hn Hp.
  pose proof (init_ok cmd nonce payload Hc Hn) as Hf.
  fold (response cmd nonce payload) in Hf.
  pose proof (encode_limit_payload cmd nonce payload _ Hf) as Hlim.
  pose proof (encode_spec (response cmd nonce payload) Hc Hn) as Henc.
  destruct (65535 <? len (b64_data (response cmd nonce payload))) eqn:E.
  - apply Z.ltb_lt in E. apply Hlim in E. lia.
  - rewrite (encode_wire_of _ _ Henc). exact Henc.
Qed.


(** A round trip that finds the encoding of a frame waiting. *)
Lemma send_frame_answered (self : t) (frame r : Frame.t)
      (data wire rest : bytes) :
  connected self = true ->
  Frame.encode frame = Ok data ->
  constructed r ->
  Frame.encode r = Ok wire ->
  incoming self = wire ++ rest ->
  _send_frame self frame
  = (mk (protocol self) true (sent self ++ [data]) rest, Ok r).
Proof.
  intros Hc He Hr Hw Hin. unfold _send_frame. rewrite Hc, He. cbn [negb].
  rewrite (receive_frame_framed _ r wire rest Hr Hw) by exact Hin.
  reflexivity.
Qed.

Ltac run_driver :=
  unfold send_hello, send_dump, send_stop, except_ProtocolError, bindC,
    on_protocol, call, ret, decode_utf8,
    MiniTelProtocol.create_hello_frame, MiniTelProtocol.create_dump_frame,
    MiniTelProtocol.create_stop_frame;
  cbn [protocol connected sent incoming MiniTelProtocol.nonce].

Ltac settle :=
  repeat (progress (cbn [negb orb protocol connected sent incoming
                         MiniTelProtocol.nonce];
                    rewrite ?Z.eqb_refl)).



Lemma send_dump_answered (n : Z) (s0 : list bytes) (r : Frame.t)
      (wire rest : bytes) :
  0 <= n < 2 ^ 32 ->
  constructed r ->
  Frame.encode r = Ok wire ->
  Frame.nonce r = n + 1 ->
  send_dump (mk (MiniTelProtocol.mk n) true s0 (wire ++ rest))
  = (mk (MiniTelProtocol.mk
           (if (Frame.cmd r =? Command.DUMP_FAILED)
               || (Frame.cmd r =? Command.DUMP_OK)
            then n + 2 else n))
        true
        (s0 ++ [wire_of (response Command.DUMP n [])]) rest,
     if Frame.cmd r =? Command.DUMP_FAILED then Returned None
     else if Frame.cmd r =? Command.DUMP_OK then
       match Utf8.decode (Frame.payload r) with
       | Some text => Returned (Some text)
       | None => Raised UnicodeDecodeError
       end
     else Returned None).
Proof.
  intros Hn Hr Hw Hnonce. run_driver.
  rewrite init_ok by (unfold Command.DUMP; lia).
  fold (response Command.DUMP n []).
  assert (Hreq : Frame.encode (response Command.DUMP n [])
                 = Ok (wire_of (response Command.DUMP n [])))
    by (apply encode_response; [unfold Command.DUMP; lia | lia
                                | change (len (@nil byte)) with 0; lia]).
  rewrite (send_frame_answered (mk (MiniTelProtocol.mk n) true s0 (wire ++ rest))
                               _ r _ wire rest eq_refl Hreq Hr Hw eq_refl).
  unfold MiniTelProtocol.update_nonce.
  destruct (Frame.cmd r =? Command.DUMP_FAILED) eqn:E1.
  - rewrite Hnonce. settle. do 3 f_equal. lia.
  - destruct (Frame.cmd r =? Command.DUMP_OK) eqn:E2.
    + rewrite Hnonce. settle.
      replace (n + 1 + 1) with (n + 2) by lia.
      destruct (Utf8.decode (Frame.payload r)); reflexivity.
    + reflexivity.
Qed.

(** X16.  [send_dump], when the answer to its DUMP frame is waiting at
    the nonce after the client's counter: on DUMP_FAILED it returns
    [None] and on DUMP_OK the payload as text, and in both cases it
    moves the counter by 2; on DUMP_OK with a payload that is not UTF-8
    it raises [UnicodeDecodeError], after the counter has moved; on any
    other response it returns [None] and leaves the counter.  In every
    case the DUMP frame is what it sent and what follows the answer is
    left waiting. *)
Theorem X16_send_dump_by_response
        (self : t) (r : Frame.t) (wire rest : bytes) :
  let n := MiniTelProtocol.nonce (protocol self) in
  connected self = true ->
  0 <= n < 2 ^ 32 ->
  constructed r ->
  Frame.encode r = Ok wire ->
  incoming self = wire ++ rest ->
  Frame.nonce r = n + 1 ->
  send_dump self
  = (mk (MiniTelProtocol.mk
           (if (Frame.cmd r =? Command.DUMP_FAILED)
               || (Frame.cmd r =? Command.DUMP_OK)
            then n + 2 else n))
        true
        (sent self ++ [wire_of (response Command.DUMP n [])]) rest,
     if Frame.cmd r =? Command.DUMP_FAILED then Returned None
     else if Frame.cmd r =? Command.DUMP_OK then
       match Utf8.decode (Frame.payload r) with
       | Some text => Returned (Some text)
       | None => Raised UnicodeDecodeError
       end
     else Returned None).
Proof.
  destruct self as [[n] c0 s0 i0].
  cbn [protocol connected sent incoming MiniTelProtocol.nonce].
  intros -> Hn Hr Hw -> Hnonce.
  exact (send_dump_answered n s0 r wire rest Hn Hr Hw Hnonce).
Qed.

(** A DUMP_OK whose payload is not UTF-8 (a lone continuation byte). *)
Lemma X16_send_dump_by_response_witness :
  send_dump (mk (MiniTelProtocol.mk 4) true []
                (wire_of (response Command.DUMP_OK 5 [x80])))
  = (mk (MiniTelProtocol.mk 6) true [wire_of dump4] [],
     Raised UnicodeDecodeError).
Proof.
  apply (X16_send_dump_by_response
           (mk (MiniTelProtocol.mk 4) true []
               (wire_of (response Command.DUMP_OK 5 [x80])))
           (response Command.DUMP_OK 5 [x80])
           (wire_of (response Command.DUMP_OK 5 [x80])) []).
  - reflexivity.
  - cbn. lia.
  - exists Command.DUMP_OK, 5, [x80]. reflexivity.
  - vm_compute. reflexivity.
  - cbn [incoming]. rewrite app_nil_r. reflexivity.
  - reflexivity.
Defined.

End DriverExtras.

Section HandshakeExtras.
Import Struct MiniTelClient.

(** [decode] raises nothing but [ProtocolError]. *)
Lemma decode_raises_protocol (data : bytes) (e : exn) :
  Frame.decode data = Raise e -> exists pe, e = Protocol pe.
Proof.
  unfold Frame.decode.
  destruct (len data <? 2) eqn:E1; [intros H; injection H as <-; eauto|].
  apply Z.ltb_ge in E1.
  unfold unpack_H, unpack_B, unpack_I, unpack_sized.
  assert (L2 : List.length (slice data 0 2) = 2%nat).
  { pose proof (slice_len_inside data 0 2 ltac:(lia) ltac:(lia)) as L.
    unfold len in L. lia. }
  rewrite L2. cbn [Nat.eqb bind].
  set (length := from_bytes_big (slice data 0 2)).
  destruct (len data <? 2 + length); [intros H; injection H as <-; eauto|].
  destruct (Base64.b64decode _) as [binary|];
    [|intros H; injection H as <-; eauto].
  destruct (len binary <? 37) eqn:E3; [intros H; injection H as <-; eauto|].
  apply Z.ltb_ge in E3.
  assert (L1 : List.length (slice binary 0 1) = 1%nat).
  { pose proof (slice_len_inside binary 0 1 ltac:(lia) ltac:(lia)) as L.
    unfold len in L. lia. }
  assert (L4 : List.length (slice binary 1 5) = 4%nat).
  { pose proof (slice_len_inside binary 1 5 ltac:(lia) ltac:(lia)) as L.
    unfold len in L. lia. }
  rewrite L1, L4. cbn [Nat.eqb bind].
  rewrite init_ok.
  - cbn [bind Frame.hash].
    destruct (bytes_eqb _ _); [discriminate|].
    intros H. injection H as <-. eauto.
  - pose proof (from_bytes_big_nonneg (slice binary 0 1)).
    pose proof (from_bytes_big_bound (slice binary 0 1)) as B.
    unfold len in B. rewrite L1 in B. change (256 ^ Z.of_nat 1) with 256 in B.
    lia.
  - pose proof (from_bytes_big_nonneg (slice binary 1 5)).
    pose proof (from_bytes_big_bound (slice binary 1 5)) as B.
    unfold len in B. rewrite L4 in B.
    change (256 ^ Z.of_nat 4) with (2 ^ 32) in B. lia.
Qed.

Lemma receive_exact_state (self self' : t) (n : Z) (r : result bytes) :
  _receive_exact self n = (self', r) ->
  protocol self' = protocol self /\ connected self' = connected self /\
  sent self' = sent self /\
  match r with
  | Raise e => exists pe, e = Protocol pe
  | Ok _ => True
  end.
Proof.
  unfold _receive_exact. destruct (len (incoming self) <? n);
    intros H; injection H as <- <-; cbn; repeat split; eauto.
Qed.

Lemma receive_frame_state (self self' : t) (r : result Frame.t) :
  _receive_frame self = (self', r) ->
  protocol self' = protocol self /\ connected self' = connected self /\
  sent self' = sent self /\
  match r with
  | Raise e => exists pe, e = Protocol pe
  | Ok _ => True
  end.
Proof.
  unfold _receive_frame.
  destruct (_receive_exact self 2) as [c1 [ld|e1]] eqn:R1.
  - apply receive_exact_state in R1. destruct R1 as [P1 [C1 [S1 _]]].
    destruct (_receive_exact c1 _) as [c2 [fd|e2]] eqn:R2.
    + apply receive_exact_state in R2. destruct R2 as [P2 [C2 [S2 _]]].
      intros H. injection H as <- <-.
      repeat split; try congruence.
      destruct (Frame.decode (ld ++ fd)) as [f|e] eqn:D; [exact I|].
      exact (decode_raises_protocol _ _ D).
    + apply receive_exact_state in R2. destruct R2 as [P2 [C2 [S2 E2]]].
      intros H. injection H as <- <-. repeat split; try congruence;
        try exact E2.
  - apply receive_exact_state in R1. destruct R1 as [P1 [C1 [S1 E1]]].
    intros H. injection H as <- <-. repeat split; try congruence;
      try exact E1.
Qed.


Ltac run_handshake :=
  unfold send_hello, send_stop, except_ProtocolError, bindC,
    on_protocol, call, ret,
    MiniTelProtocol.create_hello_frame, MiniTelProtocol.create_stop_frame,
    MiniTelProtocol.validate_response, MiniTelProtocol.update_nonce;
  cbn [protocol connected sent incoming MiniTelProtocol.nonce].




End HandshakeExtras.

Section EndToEnd.
Import Struct MiniTelClient.






End EndToEnd.

(* ################################################################# *)
(** * Further properties of [connect] *)

Section ConnectExtras.
Import EnhancedMiniTelClient.

Lemma connect_after_failures (net : transport) (self : t) (w : world) (j : nat) :
  Z.of_nat j < max_retries self ->
  (forall k, (k < j)%nat -> net (calls w + k)%nat = false) ->
  net (calls w + j)%nat = true ->
  connect net self w =
  Some (mk (max_retries self) (Z.of_nat j) true,
        mk_world (calls w + j + 1) (slept w ++ backoff j), true).
Proof.
  intros Hj Hfail Hok. unfold connect. set (m := max_retries self) in *.
  replace (S (Z.to_nat m)) with (j + S (Z.to_nat m - j))%nat by lia.
  rewrite connect_loop_failures by (try assumption; lia).
  cbn [connect_loop max_retries connection_attempts connected calls slept].
  rewrite Z.add_0_l.
  destruct (Z.of_nat j <? m) eqn:E; [|apply Z.ltb_ge in E; lia].
  rewrite Hok, backoff_from_zero. do 3 f_equal. f_equal. lia.
Qed.

Lemma connect_all_failures (net : transport) (self : t) (w : world) :
  (forall k : nat, Z.of_nat k < max_retries self ->
                   net (calls w + k)%nat = false) ->
  connect net self w =
  Some (mk (max_retries self) (Z.max 0 (max_retries self)) (connected self),
        mk_world (calls w + Z.to_nat (max_retries self))
                 (slept w ++ backoff (Z.to_nat (max_retries self) - 1)), false).
Proof.
  intros Hfail. unfold connect. set (m := max_retries self) in *.
  destruct (Z_le_gt_dec m 0) as [Hm|Hm].
  - cbn [connect_loop max_retries connection_attempts connected].
    destruct (0 <? m) eqn:E; [apply Z.ltb_lt in E; lia|].
    replace (Z.to_nat m) with 0%nat by lia.
    rewrite Z.max_l by lia. cbn [Nat.sub backoff seq map].
    rewrite app_nil_r, Nat.add_0_r. destruct w. reflexivity.
  - set (j := (Z.to_nat m - 1)%nat).
    replace (S (Z.to_nat m)) with (j + 2)%nat by lia.
    rewrite connect_loop_failures
      by (try lia; intros k Hk; apply Hfail; lia).
    cbn [connect_loop max_retries connection_attempts connected calls slept].
    rewrite Z.add_0_l, backoff_from_zero.
    destruct (Z.of_nat j <? m) eqn:E1; [|apply Z.ltb_ge in E1; lia].
    rewrite Hfail by lia.
    destruct (Z.of_nat j + 1 <? m) eqn:E2; [apply Z.ltb_lt in E2; lia|].
    rewrite Z.max_r by lia.
    do 3 f_equal; [f_equal; lia | f_equal; lia].
Qed.

Lemma backoff_sum (j : nat) :
  fold_right Z.add 0 (backoff j) = 2 ^ (Z.of_nat j + 1) - 2.
Proof.
  induction j as [|j IH].
  - reflexivity.
  - rewrite backoff_succ, fold_right_app. cbn [fold_right].
    assert (G : forall (l : list Z) (x : Z),
               fold_right Z.add x l = fold_right Z.add 0 l + x).
    { induction l as [|y l IHl]; intros x; cbn [fold_right]; [lia|].
      rewrite IHl. lia. }
    rewrite G, IH.
    replace (Z.of_nat (S j)) with (Z.of_nat j + 1) by lia.
    rewrite (Z.pow_add_r 2 (Z.of_nat j + 1) 1) by lia.
    change (2 ^ 1) with 2. lia.
Qed.

(** X19.  Whatever the transport does, [connect] makes at most
    [max_retries] attempts, one after the other, and its result is the
    outcome of the last one; it waits once between two attempts, 2^k
    after the k-th, so 2^made - 2 in all; [connection_attempts] counts
    the failed attempts; on success [connected] is set, on failure it
    is what it was and every allowed attempt was made. *)
Theorem X19_connect_bounds
        (net : transport) (self self' : t) (w w' : world) (ok : bool) :
  connect net self w = Some (self', w', ok) ->
  exists made : nat,
    calls w' = (calls w + made)%nat /\
    Z.of_nat made <= Z.max 0 (max_retries self) /\
    slept w' = slept w ++ backoff (made - 1) /\
    ((0 < made)%nat ->
       fold_right Z.add 0 (backoff (made - 1)) = 2 ^ Z.of_nat made - 2) /\
    max_retries self' = max_retries self /\
    connection_attempts self' = Z.of_nat made - (if ok then 1 else 0) /\
    (forall k, (k + 1 < made)%nat -> net (calls w + k)%nat = false) /\
    (if ok
     then connected self' = true /\ net (calls w + (made - 1))%nat = true /\
          (0 < made)%nat
     else connected self' = connected self /\
          Z.of_nat made = Z.max 0 (max_retries self) /\
          forall k, (k < made)%nat -> net (calls w + k)%nat = false).
Proof.
  set (m := max_retries self).
  assert (Search : forall n : nat, Z.of_nat n <= Z.max 0 m ->
            (exists j, (j < n)%nat /\
                       (forall k, (k < j)%nat -> net (calls w + k)%nat = false) /\
                       net (calls w + j)%nat = true) \/
            (forall k, (k < n)%nat -> net (calls w + k)%nat = false)).
  { induction n as [|n IH]; intros Hn.
    - right. intros k Hk. lia.
    - destruct IH as [[j [Hj H]]|IH]; [lia | left; exists j; split; [lia|exact H] |].
      destruct (net (calls w + n)%nat) eqn:E.
      + left. exists n. repeat split; auto.
      + right. intros k Hk.
        destruct (Nat.eq_dec k n) as [->|Hne]; [exact E | apply IH; lia]. }
  assert (Sum : forall made : nat, (0 < made)%nat ->
            fold_right Z.add 0 (backoff (made - 1)) = 2 ^ Z.of_nat made - 2).
  { intros made Hm. rewrite backoff_sum. f_equal. f_equal. lia. }
  destruct (Search (Z.to_nat (Z.max 0 m))) as [[j [Hj [Hfail Hok]]]|Hfail]; [lia| |].
  - rewrite (connect_after_failures net self w j) by (try assumption; lia).
    intros H. injection H as <- <- <-.
    exists (S j). cbn [calls slept max_retries connection_attempts connected].
    replace (S j - 1)%nat with j by lia.
    split; [lia|]. split; [lia|]. split; [reflexivity|].
    split; [intros _; rewrite backoff_sum; f_equal; f_equal; lia|].
    split; [reflexivity|]. split; [lia|].
    split; [intros k Hk; apply Hfail; lia|].
    split; [reflexivity|]. split; [exact Hok | lia].
  - rewrite (connect_all_failures net self w)
      by (intros k Hk; apply Hfail; fold m in Hk; lia).
    intros H. injection H as <- <- <-.
    exists (Z.to_nat m). cbn [calls slept max_retries connection_attempts connected].
    fold m.
    split; [reflexivity|]. split; [lia|]. split; [reflexivity|].
    split; [apply Sum|].
    split; [reflexivity|]. split; [lia|].
    split; [intros k Hk; apply Hfail; lia|].
    split; [reflexivity|]. split; [lia|].
    intros k Hk. apply Hfail. lia.
Qed.

Lemma X19_connect_bounds_witness :
  exists made : nat,
    3%nat = (0 + made)%nat /\
    Z.of_nat made <= Z.max 0 3 /\
    [2; 4] = [] ++ backoff (made - 1) /\
    ((0 < made)%nat ->
       fold_right Z.add 0 (backoff (made - 1)) = 2 ^ Z.of_nat made - 2) /\
    3 = 3 /\
    2 = Z.of_nat made - 1 /\
    (forall k, (k + 1 < made)%nat -> Nat.leb 2 (0 + k) = false) /\
    (true = true /\ Nat.leb 2 (0 + (made - 1)) = true /\ (0 < made)%nat).
Proof.
  exact (X19_connect_bounds (fun k => Nat.leb 2 k) (mk 3 0 false)
                            (mk 3 2 true) (mk_world 0 []) (mk_world 3 [2; 4])
                            true eq_refl).
Defined.

End ConnectExtras.

(* ################################################################# *)
(** * The session recorder *)

Section RecorderExtras.

Lemma seq_numbers (n : nat) :
  map Z.of_nat (seq 1 (S n)) = map Z.of_nat (seq 1 n) ++ [Z.of_nat n + 1].
Proof.
  rewrite seq_S, map_app. cbn [map]. do 2 f_equal. lia.
Qed.

Lemma recording_numbered (r : SessionRecorder.t) :
  recording r ->
  SessionRecorder.step_counter r = len (SessionRecorder.session_records r) /\
  map SessionRecorder.step_number (SessionRecorder.session_records r)
  = map Z.of_nat (seq 1 (List.length (SessionRecorder.session_records r))) /\
  (SessionRecorder.enabled r = false \/
   SessionRecorder.session_start_time r = None ->
   SessionRecorder.session_records r = []).
Proof.
  induction 1 as [enabled | now stamp r Hr IH
                  | now direction command nonce payload frame_data r Hr IH].
  - repeat split; reflexivity.
  - unfold SessionRecorder.start_session.
    destruct (SessionRecorder.enabled r) eqn:E; cbn [negb fst];
      [|rewrite E; exact IH].
    repeat split; reflexivity.
  - unfold SessionRecorder.record_frame.
    destruct (SessionRecorder.enabled r) eqn:E; cbn [negb orb];
      [|rewrite E; exact IH].
    destruct (SessionRecorder.session_start_time r) eqn:T;
      [|rewrite E, T; exact IH].
    destruct IH as [Hc [Hs He]].
    cbn [SessionRecorder.step_counter SessionRecorder.session_records
         SessionRecorder.enabled SessionRecorder.session_start_time].
    split; [|split].
    + rewrite Hc. unfold len. rewrite length_app. cbn [List.length]. lia.
    + rewrite map_app, length_app, Hs. cbn [List.length map].
      rewrite Nat.add_1_r, seq_numbers.
      cbn [SessionRecorder.step_number]. rewrite Hc. reflexivity.
    + intros [H|H]; discriminate.
Qed.

(** X20.  In every state of a recorder the step counter is the number
    of records kept, and the records carry the step numbers 1, 2, 3, ...
    in the order they were taken; a recorder that is disabled, or whose
    session was not started, keeps no record. *)
Theorem X20_recorder_steps_numbered (r : SessionRecorder.t) :
  recording r ->
  SessionRecorder.step_counter r = len (SessionRecorder.session_records r) /\
  map SessionRecorder.step_number (SessionRecorder.session_records r)
  = map Z.of_nat (seq 1 (List.length (SessionRecorder.session_records r))) /\
  (SessionRecorder.enabled r = false \/
   SessionRecorder.session_start_time r = None ->
   SessionRecorder.session_records r = []).
Proof. exact (recording_numbered r). Qed.

Lemma X20_recorder_steps_numbered_witness :
  let r := SessionRecorder.record_frame
             12 "response" "HELLO_ACK" 1 [] (wire_of (response Command.HELLO_ACK 1 []))
             (SessionRecorder.record_frame
                11 "request" "HELLO" 0 [] (wire_of hello0)
                (fst (SessionRecorder.start_session
                        10 "20250101_000000" (SessionRecorder.__init__ true)))) in
  SessionRecorder.step_counter r = 2 /\
  map SessionRecorder.step_number (SessionRecorder.session_records r) = [1; 2].
Proof.
  intros r.
  assert (R : recording r) by (repeat constructor).
  destruct (X20_recorder_steps_numbered r R) as [H1 [H2 _]].
  split; [exact H1 | exact H2].
Defined.

End RecorderExtras.

(* ################################################################# *)
(** * Sending with session recording *)

Section RecordingExtras.
Import EnhancedSession.

Lemma receive_exact_length (c c' : MiniTelClient.t) (n : Z) (b : bytes) :
  0 <= n ->
  MiniTelClient._receive_exact c n = (c', Ok b) ->
  len b = n /\
  len (MiniTelClient.incoming c') = len (MiniTelClient.incoming c) - n.
Proof.
  intros Hn. unfold MiniTelClient._receive_exact.
  destruct (len (MiniTelClient.incoming c) <? n) eqn:E; [discriminate|].
  apply Z.ltb_ge in E. intros H. injection H as <- <-.
  cbn [MiniTelClient.incoming]. split.
  - rewrite slice_len_inside by lia. lia.
  - unfold slice_from, norm_index.
    destruct (n <? 0) eqn:E0; [apply Z.ltb_lt in E0; lia|].
    unfold len in *. rewrite length_skipn. lia.
Qed.

Lemma receive_frame_decoded (c c' : MiniTelClient.t) (f : Frame.t) :
  MiniTelClient._receive_frame c = (c', Ok f) ->
  exists data,
    len data <= len (MiniTelClient.incoming c) /\ Frame.decode data = Ok f.
Proof.
  unfold MiniTelClient._receive_frame.
  destruct (MiniTelClient._receive_exact c 2) as [c1 [ld|e1]] eqn:R1;
    [|discriminate].
  destruct (MiniTelClient._receive_exact c1 _) as [c2 [fd|e2]] eqn:R2;
    [|discriminate].
  intros H. injection H as _ H.
  exists (ld ++ fd). split; [|exact H].
  destruct (receive_exact_length c c1 2 ld ltac:(lia) R1) as [L1 I1].
  assert (Hn : 0 <= Struct.from_bytes_big ld) by apply from_bytes_big_nonneg.
  destruct (receive_exact_length _ _ _ _ Hn R2) as [L2 I2].
  rewrite len_app. pose proof (len_nonneg (MiniTelClient.incoming c2)). lia.
Qed.

Lemma received_frame_encodes (c c' : MiniTelClient.t) (f : Frame.t) :
  MiniTelClient._receive_frame c = (c', Ok f) ->
  exists wire, Frame.encode f = Ok wire.
Proof.
  intros H. destruct (receive_frame_decoded c c' f H) as [data [_ D]].
  destruct (decoded_frame_encodes data f D) as [wire [E _]]. eauto.
Qed.


Lemma exchange_recorded
        (t0 t1 t2 : Z) (frame r : Frame.t) (data wire rest : bytes)
        (c : MiniTelClient.t) (records : list SessionRecorder.SessionRecord)
        (step : Z) :
  MiniTelClient.connected c = true ->
  Frame.encode frame = Ok data ->
  constructed r ->
  Frame.encode r = Ok wire ->
  MiniTelClient.incoming c = wire ++ rest ->
  _send_frame_with_recording
    t1 t2 frame
    (mk c (Some (SessionRecorder.mk true records (Some t0) step)))
  = (mk (MiniTelClient.mk (MiniTelClient.protocol c) true
                          (MiniTelClient.sent c ++ [data]) rest)
        (Some (SessionRecorder.mk
                 true
                 (records ++ [record_of t1 (step + 1) "request" frame data;
                              record_of t2 (step + 2) "response" r wire])
                 (Some t0) (step + 2))),
     Ok r).
Proof.
  intros Hc He Hr Hw Hin. unfold _send_frame_with_recording.
  cbn [client session_recorder option_map]. rewrite Hc, He. cbn [negb].
  rewrite (receive_frame_framed _ r wire rest Hr Hw) by exact Hin.
  cbn [MiniTelClient.protocol MiniTelClient.connected MiniTelClient.sent].
  rewrite Hw. unfold SessionRecorder.record_frame.
  cbn [SessionRecorder.enabled SessionRecorder.session_start_time
       SessionRecorder.session_records SessionRecorder.step_counter
       negb orb].
  unfold record_of. rewrite <- app_assoc. cbn [app].
  replace (step + 1 + 1) with (step + 2) by lia. reflexivity.
Qed.




(** X23.  When the exchange fails after the request was encoded, the
    request is on record and no response is: the records of a session
    need not come in pairs.  The exception is a [ProtocolError]. *)
Theorem X23_unanswered_request_recorded
        (t0 t1 t2 : Z) (frame : Frame.t) (data : bytes)
        (c : MiniTelClient.t) (records : list SessionRecorder.SessionRecord)
        (step : Z) (self' : t) (e : exn) :
  MiniTelClient.connected c = true ->
  Frame.encode frame = Ok data ->
  _send_frame_with_recording
    t1 t2 frame
    (mk c (Some (SessionRecorder.mk true records (Some t0) step)))
  = (self', Raise e) ->
  session_recorder self'
  = Some (SessionRecorder.mk
            true (records ++ [record_of t1 (step + 1) "request" frame data])
            (Some t0) (step + 1)) /\
  MiniTelClient.sent (client self') = MiniTelClient.sent c ++ [data] /\
  exists pe, e = Protocol pe.
Proof.
  intros Hc He. unfold _send_frame_with_recording.
  cbn [client session_recorder option_map]. rewrite Hc, He. cbn [negb].
  destruct (MiniTelClient._receive_frame _) as [c2 [f|e']] eqn:R.
  - destruct (received_frame_encodes _ _ _ R) as [wire ->]. discriminate.
  - intros H. injection H as <- <-.
    apply receive_frame_state in R. destruct R as [_ [_ [S E]]].
    cbn [client session_recorder]. repeat split; [exact S | exact E].
Qed.

Lemma X23_unanswered_request_recorded_witness :
  session_recorder
    (fst (_send_frame_with_recording
            11 12 hello0
            (mk (MiniTelClient.mk MiniTelProtocol.__init__ true [] [])
                (Some (SessionRecorder.mk true [] (Some 10) 0)))))
  = Some (SessionRecorder.mk
            true ([] ++ [record_of 11 (0 + 1) "request" hello0 (wire_of hello0)])
            (Some 10) (0 + 1)).
Proof.
  refine (proj1 (X23_unanswered_request_recorded
                   10 11 12 hello0 (wire_of hello0)
                   (MiniTelClient.mk MiniTelProtocol.__init__ true [] [])
                   [] 0 _ (Protocol ConnectionClosedByServer) eq_refl _ _)).
  - vm_compute. reflexivity.
  - vm_compute. reflexivity.
Defined.

End RecordingExtras.

(* ################################################################# *)
(** * Replaying a session *)

Section ReplayExtras.
Import SessionReplayer.

Lemma navigate_in_range (op : navigation) (self : t) :
  0 <= current_step self < Z.max 1 (len (records self)) ->
  records (fst (navigate op self)) = records self /\
  total_steps (fst (navigate op self)) = total_steps self /\
  0 <= current_step (fst (navigate op self)) < Z.max 1 (len (records self)).
Proof.
  intros H. destruct op as [| |n]; cbn [navigate];
    unfold next_step, previous_step, goto_step.
  - destruct (current_step self <? len (records self) - 1) eqn:E;
      [apply Z.ltb_lt in E|];
      cbn [fst records total_steps current_step]; repeat split; lia.
  - destruct (current_step self >? 0) eqn:E;
      cbn [fst records total_steps current_step]; repeat split; lia.
  - destruct ((0 <=? n) && (n <? len (records self))) eqn:E;
      [apply andb_prop in E; destruct E as [E1 E2];
       apply Z.leb_le in E1; apply Z.ltb_lt in E2|];
      cbn [fst records total_steps current_step]; repeat split; lia.
Qed.

Lemma replay_in_range (ops : list navigation) (self : t) :
  0 <= current_step self < Z.max 1 (len (records self)) ->
  records (replay ops self) = records self /\
  total_steps (replay ops self) = total_steps self /\
  0 <= current_step (replay ops self) < Z.max 1 (len (records self)).
Proof.
  revert self. induction ops as [|op ops IH]; intros self H.
  - repeat split; cbn; lia.
  - unfold replay. cbn [fold_left]. fold (replay ops (fst (navigate op self))).
    destruct (navigate_in_range op self H) as [Hr [Ht Hc]].
    rewrite <- Hr in Hc.
    destruct (IH _ Hc) as [Hr' [Ht' Hc']].
    split; [congruence|]. split; [congruence|].
    rewrite Hr in Hc'. exact Hc'.
Qed.

Lemma current_record_some (self : t) :
  0 <= current_step self < len (records self) ->
  exists record,
    get_current_record self = Some record /\
    nth_error (records self) (Z.to_nat (current_step self)) = Some record.
Proof.
  intros H. unfold get_current_record.
  destruct (0 <=? current_step self) eqn:E1; [|apply Z.leb_gt in E1; lia].
  destruct (current_step self <? len (records self)) eqn:E2;
    [|apply Z.ltb_ge in E2; lia].
  cbn [andb].
  destruct (nth_error (records self) (Z.to_nat (current_step self)))
    as [record|] eqn:N; [eauto|].
  apply nth_error_None in N. unfold len in H. lia.
Qed.

(** X24.  However a loaded session is navigated, the cursor stays on a
    record: the replayer keeps the records and their count, the current
    step is an index into them, and [get_current_record] returns a
    record; only a session without records has no current record, and
    its cursor stays at 0. *)
Theorem X24_replay_cursor_in_range
        (recs : list SessionRecorder.SessionRecord) (ops : list navigation)
        (self : t) :
  let s := replay ops (fst (load_session (Some recs) self)) in
  records s = recs /\
  total_steps s = len recs /\
  0 <= current_step s /\
  (recs <> [] ->
   current_step s < len recs /\
   exists record, get_current_record s = Some record) /\
  (recs = [] -> current_step s = 0 /\ get_current_record s = None).
Proof.
  intros s. subst s. cbn [load_session fst].
  destruct (replay_in_range ops (mk recs 0 (len recs))) as [Hr [Ht Hc]].
  { cbn [current_step records]. lia. }
  cbn [records total_steps] in Hr, Ht, Hc.
  split; [exact Hr|]. split; [exact Ht|]. split; [lia|]. split.
  - intros Hne.
    assert (L : 0 < len recs).
    { destruct recs; [congruence|]. unfold len. cbn [List.length]. lia. }
    split; [lia|].
    destruct (current_record_some (replay ops (mk recs 0 (len recs))))
      as [record [G _]]; [rewrite Hr; lia | eauto].
  - intros ->. change (len (@nil SessionRecorder.SessionRecord)) with 0 in *.
    split; [lia|].
    unfold get_current_record. rewrite Hr.
    change (len (@nil SessionRecorder.SessionRecord)) with 0.
    destruct (current_step _ <? 0) eqn:E; [apply Z.ltb_lt in E; lia|].
    rewrite andb_false_r. reflexivity.
Qed.

Lemma X24_replay_cursor_in_range_witness :
  current_step
    (replay [Next; Next; Next; Previous; Goto 7; Goto (-1)]
            (fst (load_session
                    (Some [SessionRecorder.mk_record 11 1 "request" "HELLO" 0 "" None "";
                           SessionRecorder.mk_record 12 2 "response" "HELLO_ACK" 1 "" None ""])
                    __init__)))
  < 2.
Proof.
  refine (proj1 (proj1 (proj2 (proj2 (proj2
            (X24_replay_cursor_in_range
               [SessionRecorder.mk_record 11 1 "request" "HELLO" 0 "" None "";
                SessionRecorder.mk_record 12 2 "response" "HELLO_ACK" 1 "" None ""]
               [Next; Next; Next; Previous; Goto 7; Goto (-1)] __init__)))) _)).
  discriminate.
Defined.

Lemma nth_error_numbered (l : list SessionRecorder.SessionRecord) (k : nat)
      (record : SessionRecorder.SessionRecord) :
  map SessionRecorder.step_number l = map Z.of_nat (seq 1 (List.length l)) ->
  nth_error l k = Some record ->
  SessionRecorder.step_number record = Z.of_nat k + 1.
Proof.
  intros Hs Hn.
  assert (Hk : (k < List.length l)%nat)
    by (apply nth_error_Some; congruence).
  pose proof (map_nth_error SessionRecorder.step_number k l Hn) as H1.
  rewrite Hs in H1.
  assert (H2 : nth_error (map Z.of_nat (seq 1 (List.length l))) k
               = Some (Z.of_nat (1 + k))).
  { apply map_nth_error.
    rewrite nth_error_nth' with (d := 0%nat) by (rewrite length_seq; exact Hk).
    rewrite seq_nth by exact Hk. reflexivity. }
  rewrite H2 in H1. injection H1 as H1. lia.
Qed.

(** X25.  Replaying what a recorder kept, the step number stored in the
    current record is the position [get_step_position] reports, and the
    total it reports is the recorder's step counter: the two numberings
    agree at every point of the navigation. *)
Theorem X25_replayed_numbering_agrees
        (r : SessionRecorder.t) (ops : list navigation) (self : t)
        (record : SessionRecorder.SessionRecord) :
  recording r ->
  let s := replay ops
             (fst (load_session (Some (SessionRecorder.session_records r)) self)) in
  get_current_record s = Some record ->
  get_step_position s
  = (SessionRecorder.step_number record, SessionRecorder.step_counter r).
Proof.
  intros Hr s G. subst s. cbn [load_session fst] in *.
  set (recs := SessionRecorder.session_records r) in *.
  destruct (recording_numbered r Hr) as [Hc [Hs _]]. fold recs in Hc, Hs.
  destruct (replay_in_range ops (mk recs 0 (len recs))) as [Hrec [Ht Hcur]].
  { cbn [current_step records]. lia. }
  cbn [records total_steps] in Hrec, Ht, Hcur.
  unfold get_step_position. rewrite Ht, Hc.
  unfold get_current_record in G. rewrite Hrec in G.
  destruct ((0 <=? current_step _) && (current_step _ <? len recs)) eqn:E;
    [|discriminate].
  rewrite (nth_error_numbered recs _ record Hs G).
  f_equal. lia.
Qed.

Lemma X25_replayed_numbering_agrees_witness :
  let r := SessionRecorder.record_frame
             12 "response" "HELLO_ACK" 1 [] []
             (SessionRecorder.record_frame
                11 "request" "HELLO" 0 [] []
                (fst (SessionRecorder.start_session
                        10 "20250101_000000" (SessionRecorder.__init__ true)))) in
  get_step_position
    (replay [Next; Next; Previous; Goto 1]
            (fst (load_session (Some (SessionRecorder.session_records r)) __init__)))
  = (2, 2).
Proof.
  intros r.
  assert (R : recording r) by (repeat constructor).
  exact (X25_replayed_numbering_agrees
           r [Next; Next; Previous; Goto 1] __init__
           (SessionRecorder.mk_record 12 2 "response" "HELLO_ACK" 1 "" None "")
           R eq_refl).
Defined.

End ReplayExtras.

(* ################################################################# *)
(** * The mission of the enhanced client *)

Section MissionExtras.
Import EnhancedSession.

Ltac run_enhanced :=
  unfold send_hello, send_dump, send_stop, except_ProtocolError, bindE,
    on_protocol, call, ret, decode_utf8,
    MiniTelProtocol.create_hello_frame, MiniTelProtocol.create_dump_frame,
    MiniTelProtocol.create_stop_frame;
  cbn [client session_recorder MiniTelClient.protocol MiniTelClient.connected
       MiniTelClient.sent MiniTelClient.incoming MiniTelProtocol.nonce].

Ltac settle_enhanced :=
  repeat (progress (cbn [negb orb client session_recorder
                         MiniTelClient.protocol MiniTelClient.connected
                         MiniTelClient.sent MiniTelClient.incoming
                         MiniTelProtocol.nonce];
                    rewrite ?Z.eqb_refl)).

Lemma handshake_recorded (request expected : Z)
      (n : Z) (s0 : list bytes) (r : Frame.t) (wire rest : bytes)
      (recs : list SessionRecorder.SessionRecord) (t0 step t1 t2 : Z) :
  0 <= request < 256 ->
  0 <= n < 2 ^ 32 ->
  constructed r ->
  Frame.encode r = Ok wire ->
  Frame.cmd r = expected ->
  Frame.nonce r = n + 1 ->
  let self := mk (MiniTelClient.mk (MiniTelProtocol.mk n) true s0 (wire ++ rest))
                 (Some (SessionRecorder.mk true recs (Some t0) step)) in
  forall m : M bool,
    m self =
    except_ProtocolError
      (frame <== on_protocol
                   (fun p => (p, Frame.__init__ request (MiniTelProtocol.nonce p) [])) ;;
       response <== call (_send_frame_with_recording t1 t2 frame) ;;
       _ <== on_protocol (fun p => MiniTelProtocol.validate_response
                                     p response expected) ;;
       _ <== on_protocol (fun p => MiniTelProtocol.update_nonce
                                     p (Frame.nonce response)) ;;
       ret true)
      false self ->
    m self = (answered n s0 rest recs t0 step t1 t2
                       (response request n []) r wire true,
              MiniTelClient.Returned true).
Proof.
  intros Hq Hn Hr Hw Hcmd Hnonce self m ->. subst self. run_enhanced.
  rewrite init_ok by assumption.
  fold (response request n []).
  assert (Hreq : Frame.encode (response request n [])
                 = Ok (wire_of (response request n [])))
    by (apply encode_response; [assumption | lia
                                | change (len (@nil byte)) with 0; lia]).
  rewrite (exchange_recorded t0 t1 t2 _ r _ wire rest
             (MiniTelClient.mk (MiniTelProtocol.mk n) true s0 (wire ++ rest))
             recs step eq_refl Hreq Hr Hw eq_refl).
  unfold MiniTelProtocol.validate_response, MiniTelProtocol.update_nonce.
  rewrite Hcmd, Hnonce. settle_enhanced.
  unfold answered. do 4 f_equal. lia.
Qed.


Lemma send_hello_recorded
      (n : Z) (s0 : list bytes) (r : Frame.t) (wire rest : bytes)
      (recs : list SessionRecorder.SessionRecord) (t0 step t1 t2 : Z) :
  0 <= n < 2 ^ 32 ->
  constructed r ->
  Frame.encode r = Ok wire ->
  Frame.cmd r = Command.HELLO_ACK ->
  Frame.nonce r = n + 1 ->
  send_hello t1 t2
    (mk (MiniTelClient.mk (MiniTelProtocol.mk n) true s0 (wire ++ rest))
        (Some (SessionRecorder.mk true recs (Some t0) step)))
  = (answered n s0 rest recs t0 step t1 t2
              (response Command.HELLO n []) r wire true,
     MiniTelClient.Returned true).
Proof.
  intros Hn Hr Hw Hcmd Hnonce.
  apply (handshake_recorded Command.HELLO Command.HELLO_ACK n s0 r wire rest
           recs t0 step t1 t2 ltac:(unfold Command.HELLO; lia)
           Hn Hr Hw Hcmd Hnonce (send_hello t1 t2)).
  reflexivity.
Qed.


Lemma send_dump_recorded
      (n : Z) (s0 : list bytes) (r : Frame.t) (wire rest : bytes)
      (recs : list SessionRecorder.SessionRecord) (t0 step t1 t2 : Z) :
  0 <= n < 2 ^ 32 ->
  constructed r ->
  Frame.encode r = Ok wire ->
  Frame.nonce r = n + 1 ->
  send_dump t1 t2
    (mk (MiniTelClient.mk (MiniTelProtocol.mk n) true s0 (wire ++ rest))
        (Some (SessionRecorder.mk true recs (Some t0) step)))
  = (answered n s0 rest recs t0 step t1 t2
              (response Command.DUMP n []) r wire
              ((Frame.cmd r =? Command.DUMP_FAILED)
               || (Frame.cmd r =? Command.DUMP_OK)),
     if Frame.cmd r =? Command.DUMP_FAILED
     then MiniTelClient.Returned (false, None)
     else if Frame.cmd r =? Command.DUMP_OK then
       match Utf8.decode (Frame.payload r) with
       | Some text => MiniTelClient.Returned (true, Some text)
       | None => MiniTelClient.Raised MiniTelClient.UnicodeDecodeError
       end
     else MiniTelClient.Returned (false, None)).
Proof.
  intros Hn Hr Hw Hnonce. run_enhanced.
  rewrite init_ok by (unfold Command.DUMP; lia).
  fold (response Command.DUMP n []).
  assert (Hreq : Frame.encode (response Command.DUMP n [])
                 = Ok (wire_of (response Command.DUMP n [])))
    by (apply encode_response; [unfold Command.DUMP; lia | lia
                                | change (len (@nil byte)) with 0; lia]).
  rewrite (exchange_recorded t0 t1 t2 _ r _ wire rest
             (MiniTelClient.mk (MiniTelProtocol.mk n) true s0 (wire ++ rest))
             recs step eq_refl Hreq Hr Hw eq_refl).
  unfold MiniTelProtocol.update_nonce, answered.
  destruct (Frame.cmd r =? Command.DUMP_FAILED) eqn:E1.
  - rewrite Hnonce. settle_enhanced. do 4 f_equal. lia.
  - destruct (Frame.cmd r =? Command.DUMP_OK) eqn:E2.
    + rewrite Hnonce. settle_enhanced.
      replace (n + 1 + 1) with (n + 2) by lia.
      destruct (Utf8.decode (Frame.payload r)); reflexivity.
    + reflexivity.
Qed.







(** X27.  Without codes there is no STOP: when the second DUMP is
    answered with DUMP_OK and a payload that is empty or not UTF-8,
    [retrieve_override_codes] returns [None] (the [UnicodeDecodeError]
    is swallowed), and it has sent HELLO and two DUMP frames only: the
    counter is left at 6, what follows the third answer is not read,
    and six frames are on record. *)
Theorem X27_no_codes_no_stop
        (r1 r2 r3 : Frame.t) (w1 w2 w3 rest : bytes)
        (t0 t1 t2 t3 t4 t5 t6 t7 t8 : Z) :
  constructed r1 -> Frame.encode r1 = Ok w1 ->
  Frame.cmd r1 = Command.HELLO_ACK -> Frame.nonce r1 = 1 ->
  constructed r2 -> Frame.encode r2 = Ok w2 ->
  Frame.cmd r2 = Command.DUMP_FAILED -> Frame.nonce r2 = 3 ->
  constructed r3 -> Frame.encode r3 = Ok w3 ->
  Frame.cmd r3 = Command.DUMP_OK -> Frame.nonce r3 = 5 ->
  truthy (Utf8.decode (Frame.payload r3)) = false ->
  retrieve_override_codes
    t1 t2 t3 t4 t5 t6 t7 t8
    (mk (MiniTelClient.mk MiniTelProtocol.__init__ true []
                          (w1 ++ w2 ++ w3 ++ rest))
        (Some (SessionRecorder.mk true [] (Some t0) 0)))
  = (mk (MiniTelClient.mk
           (MiniTelProtocol.mk 6) true
           [wire_of hello0; wire_of dump2; wire_of dump4] rest)
        (Some (SessionRecorder.mk
                 true
                 [record_of t1 1 "request" hello0 (wire_of hello0);
                  record_of t2 2 "response" r1 w1;
                  record_of t3 3 "request" dump2 (wire_of dump2);
                  record_of t4 4 "response" r2 w2;
                  record_of t5 5 "request" dump4 (wire_of dump4);
                  record_of t6 6 "response" r3 w3]
                 (Some t0) 6)),
     MiniTelClient.Returned None).
Proof.
  intros C1 E1 K1 N1 C2 E2 K2 N2 C3 E3 K3 N3 Hno.
  unfold hello0, dump2, dump4, MiniTelProtocol.__init__.
  pose proof (send_hello_recorded
                0 [] r1 w1 (w2 ++ w3 ++ rest)
                [] t0 0 t1 t2 ltac:(lia) C1 E1 K1 N1) as S1.
  pose proof (send_dump_recorded
                2 [wire_of (response Command.HELLO 0 [])] r2 w2
                (w3 ++ rest)
                [record_of t1 1 "request" (response Command.HELLO 0 [])
                           (wire_of (response Command.HELLO 0 []));
                 record_of t2 2 "response" r1 w1]
                t0 2 t3 t4 ltac:(lia) C2 E2 N2) as S2.
  pose proof (send_dump_recorded
                4 [wire_of (response Command.HELLO 0 []);
                   wire_of (response Command.DUMP 2 [])] r3 w3 rest
                [record_of t1 1 "request" (response Command.HELLO 0 [])
                           (wire_of (response Command.HELLO 0 []));
                 record_of t2 2 "response" r1 w1;
                 record_of t3 3 "request" (response Command.DUMP 2 [])
                           (wire_of (response Command.DUMP 2 []));
                 record_of t4 4 "response" r2 w2]
                t0 4 t5 t6 ltac:(lia) C3 E3 N3) as S3.
  rewrite K2 in S2. rewrite K3 in S3.
  unfold answered in S1, S2, S3.
  cbn [Z.eqb Pos.eqb orb Command.DUMP_FAILED Command.DUMP_OK Z.add Pos.add
       Pos.succ app] in S1, S2, S3.
  unfold retrieve_override_codes, except_Exception.
  cbn [client MiniTelClient.connected negb].
  unfold bindE at 1. rewrite S1. cbn [negb].
  unfold bindE at 1. rewrite S2.
  unfold bindE at 1. rewrite S3.
  destruct (Utf8.decode (Frame.payload r3)) as [text|].
  - cbn [fst snd negb orb]. rewrite Hno. reflexivity.
  - reflexivity.
Qed.

Lemma X27_no_codes_no_stop_witness :
  retrieve_override_codes
    11 12 13 14 15 16 17 18
    (mk (MiniTelClient.mk MiniTelProtocol.__init__ true []
                          (wire_of (response Command.HELLO_ACK 1 [])
                           ++ wire_of (response Command.DUMP_FAILED 3 [])
                           ++ wire_of (response Command.DUMP_OK 5 [])
                           ++ wire_of (response Command.STOP_OK 7 [])))
        (Some (SessionRecorder.mk true [] (Some 10) 0)))
  = (mk (MiniTelClient.mk
           (MiniTelProtocol.mk 6) true
           [wire_of hello0; wire_of dump2; wire_of dump4]
           (wire_of (response Command.STOP_OK 7 [])))
        (Some (SessionRecorder.mk
                 true
                 [record_of 11 1 "request" hello0 (wire_of hello0);
                  record_of 12 2 "response" (response Command.HELLO_ACK 1 [])
                            (wire_of (response Command.HELLO_ACK 1 []));
                  record_of 13 3 "request" dump2 (wire_of dump2);
                  record_of 14 4 "response" (response Command.DUMP_FAILED 3 [])
                            (wire_of (response Command.DUMP_FAILED 3 []));
                  record_of 15 5 "request" dump4 (wire_of dump4);
                  record_of 16 6 "response" (response Command.DUMP_OK 5 [])
                            (wire_of (response Command.DUMP_OK 5 []))]
                 (Some 10) 6)),
     MiniTelClient.Returned None).
Proof.
  apply (X27_no_codes_no_stop
           (response Command.HELLO_ACK 1 []) (response Command.DUMP_FAILED 3 [])
           (response Command.DUMP_OK 5 [])).
  - exists Command.HELLO_ACK, 1, []. vm_compute. reflexivity.
  - vm_compute. reflexivity.
  - reflexivity.
  - reflexivity.
  - exists Command.DUMP_FAILED, 3, []. vm_compute. reflexivity.
  - vm_compute. reflexivity.
  - reflexivity.
  - reflexivity.
  - exists Command.DUMP_OK, 5, []. vm_compute. reflexivity.
  - vm_compute. reflexivity.
  - reflexivity.
  - reflexivity.
  - vm_compute. reflexivity.
Defined.

End MissionExtras.
